(** * Emotion lava lamp: a shallow embedding of [emotion_lava_lamp.py]

    The Python module drives a particle "lava lamp" from a
    Valence/Arousal/Dominance signal.  This development embeds its five
    classes ([TemporalFilter], [EmotionEnergyModel], [VisualMapping],
    [FluidSimulation], [EmotionLavaLampEngine]) and states the properties
    of the specification over the embedding.

    Modelling conventions.
    - Python [float] is read as a real number ([R]); [math.sqrt],
      [math.sin], [math.cos] are the functions of the standard library of
      reals.  Last-place rounding of the arithmetic is outside the model.
      Three IEEE effects change the kind of a result and are modelled:
      [math.exp] raises [OverflowError] when its result exceeds the largest
      double ([math_exp]); the sign fix of the float [%] is a rounded
      addition, so a remainder can be the divisor itself ([float_rem]); and
      NaN inside an incoming sample is a constructor of [pyval].
    - Python [int] is [Z]; tuples and lists of unknown length are [list].
    - A Python exception is a [Raise] result; a [while] loop takes fuel and
      answers [OutOfFuel] when the fuel is spent before the loop condition
      turns false.
    - The module-level [random] generator and the generators made by
      [random.Random(None)] are streams of draws that the caller supplies,
      so every theorem quantifies over every choice of the draws.
    - The blobs of a simulation are distinct objects that share no position
      or velocity list (true of every blob the simulation creates), so a
      blob is a value and the blob list a list of values. *)

From Stdlib Require Import Reals Lra Lia ZArith.
From stdpp Require Import base list.

Open Scope R_scope.

(** ** Results of fallible, possibly non-terminating code *)

Inductive exn : Type :=
| TypeError
| IndexError
| ZeroDivisionError
| OverflowError.

Inductive result (A : Type) : Type :=
| Ok (a : A)
| Raise (e : exn)
| OutOfFuel.

Arguments Ok {A} a.
Arguments Raise {A} e.
Arguments OutOfFuel {A}.

#[global] Instance result_ret : MRet result := fun A a => Ok a.
#[global] Instance result_bind : MBind result := fun A B k m =>
  match m with
  | Ok a => k a
  | Raise e => Raise e
  | OutOfFuel => OutOfFuel
  end.

(** [for x in xs: ...] over a fallible body, collecting the results in
    order; the first exception stops the loop. *)
Fixpoint for_each {A B : Type} (body : A -> result B) (xs : list A)
  : result (list B) :=
  match xs with
  | [] => Ok []
  | x :: xs' => y ← body x; ys ← for_each body xs'; Ok (y :: ys)
  end.

(** ** Numeric helpers *)

(** [clamp(value, low, high) = max(low, min(high, value))]. *)
Definition clamp (value low high : R) : R := Rmax low (Rmin high value).

(** [lerp(a, b, t) = a + (b - a) * t]. *)
Definition lerp (a b t : R) : R := a + (b - a) * t.

(** [int(x)] on a float truncates towards zero. *)
Definition py_int (x : R) : Z :=
  if Rle_dec 0 x then Int_part x else (- Int_part (- x))%Z.

(** [x / y] as Python evaluates it on floats. *)
Definition py_div (x y : R) : result R :=
  if Req_dec_T y 0 then Raise ZeroDivisionError else Ok (x / y).

(** *** Doubles

    A double has 53 significant bits.  [binade y] is the exponent [e] with
    [2^e <= |y| < 2^(e+1)], and [fl y] the double nearest to [y], ties
    going to the even significand.  The exponent is unbounded: subnormal
    numbers and overflow to infinity are not represented. *)

Definition binade (y : R) : Z := Int_part (ln (Rabs y) / ln 2).

Definition round_half_even (z : R) : Z :=
  let n := Int_part z in
  let f := z - IZR n in
  if Rlt_dec f (1 / 2) then n
  else if Rlt_dec (1 / 2) f then (n + 1)%Z
  else if Z.even n then n else (n + 1)%Z.

Definition fl (y : R) : R :=
  if Req_dec_T y 0 then 0
  else
    let ulp := powerRZ 2 (binade y - 52) in
    IZR (round_half_even (y / ulp)) * ulp.

Definition is_double (w : R) : Prop := fl w = w.

(** The largest double, [(2^53 - 1) * 2^971]. *)
Definition max_float : R := IZR (2 ^ 53 - 1) * powerRZ 2 971.

(** [math.exp(x)]: raises [OverflowError] (math range error) when the
    result is too large for a double. *)
Definition math_exp (x : R) : result R :=
  if Rlt_dec max_float (exp x) then Raise OverflowError else Ok (exp x).

(** *** The remainder *)

(** The floor remainder [x - w * floor(x / w)] over the reals, in [0, w)
    for a positive [w]. *)
Definition fmod (x w : R) : R := x - w * IZR (Int_part (x / w)).

(** C's [fmod(x, w)], which the float [%] calls first: the quotient is
    truncated towards zero, so the remainder has the sign of [x]; it is
    computed without rounding. *)
Definition c_fmod (x w : R) : R := x - w * IZR (py_int (x / w)).

(** Python's float [x % w] for [w <> 0] ([float_rem] of CPython): a
    non-zero [fmod] remainder whose sign differs from the divisor's gets
    the divisor added, and that addition rounds.  For a remainder just
    below zero and a positive divisor the sum rounds to the divisor. *)
Definition float_rem (x w : R) : R :=
  let m := c_fmod x w in
  if Req_dec_T m 0 then 0
  else if Rlt_dec w 0
       then (if Rlt_dec m 0 then m else fl (m + w))
       else (if Rlt_dec m 0 then fl (m + w) else m).

(** [x % w] as Python evaluates it: a zero divisor raises. *)
Definition py_mod (x w : R) : result R :=
  if Req_dec_T w 0 then Raise ZeroDivisionError else Ok (float_rem x w).

(** [math.tau]. *)
Definition math_tau : R := 2 * PI.

(** ** Random generators

    A generator is a stream of uniform draws (the values [random()]
    returns) and a stream of standard normal deviates (what [gauss] scales),
    each with a cursor. *)

Record Rng : Type := mkRng {
  uniforms : nat -> R;
  ucursor : nat;
  normals : nat -> R;
  ncursor : nat
}.

(** [random()] returns values in the half-open interval [0, 1). *)
Definition rng_ok (g : Rng) : Prop := forall n, 0 <= uniforms g n < 1.

Definition random (g : Rng) : R * Rng :=
  (uniforms g (ucursor g),
   mkRng (uniforms g) (S (ucursor g)) (normals g) (ncursor g)).

(** [uniform(a, b) = a + (b - a) * random()]. *)
Definition uniform (a b : R) (g : Rng) : R * Rng :=
  let '(u, g') := random g in (a + (b - a) * u, g').

(** [gauss(mu, sigma) = mu + z * sigma] for a standard normal deviate [z]. *)
Definition gauss (mu sigma : R) (g : Rng) : R * Rng :=
  (mu + normals g (ncursor g) * sigma,
   mkRng (uniforms g) (ucursor g) (normals g) (S (ncursor g))).

(** The two generators the module uses: the global one behind
    [random.random()] and [random.uniform], and the supply from which each
    [random.Random(None)] of [reset] takes its draws. *)
Record World : Type := mkWorld {
  global_rng : Rng;
  seeded_rng : Rng
}.

Definition world_ok (w : World) : Prop :=
  rng_ok (global_rng w) /\ rng_ok (seeded_rng w).

(** ** Values a VAD source can hand over *)

Definition VAD : Type := (R * R * R)%type.

(** A component of a sample: a number, NaN, or an object that is not a
    number and cannot be compared with a float ([str], [None], ...). *)
Inductive pyval : Type :=
| PyFloat (x : R)
| PyNaN
| PyNonNumeric.

(** [clamp] applied to an arbitrary Python value with float bounds.
    [min(high, v)] keeps [high] unless [v < high]; that comparison is false
    for NaN and a [TypeError] for a value that is not a number. *)
Definition py_clamp (value : pyval) (low high : R) : result R :=
  match value with
  | PyFloat x => Ok (clamp x low high)
  | PyNaN => Ok (Rmax low high)
  | PyNonNumeric => Raise TypeError
  end.

(** ** TemporalFilter *)

Record TemporalFilter : Type := mkTemporalFilter {
  tau_v : R;
  tau_a : R;
  tau_d : R;
  max_step : R;
  state : VAD
}.

Definition TemporalFilter_default : TemporalFilter :=
  mkTemporalFilter 2 (6 / 10) (12 / 10) (25 / 100) (0, 0, 0).

(** The body of the loop of [update] for one axis. *)
Definition axis_update (max_step dt cur t axis_tau : R) : result R :=
  q ← py_div (- dt) axis_tau;
  e ← math_exp q;
  let alpha := 1 - e in
  let bounded_target := cur + clamp (t - cur) (- max_step) max_step in
  let nxt := lerp cur bounded_target alpha in
  Ok (clamp nxt (-1) 1).

(** [zip(current, target, tau)]: stops at the shortest argument. *)
Fixpoint zip3 {A B C : Type} (xs : list A) (ys : list B) (zs : list C)
  : list (A * B * C) :=
  match xs, ys, zs with
  | x :: xs', y :: ys', z :: zs' => (x, y, z) :: zip3 xs' ys' zs'
  | _, _, _ => []
  end.

(** [out[i]] on a Python list. *)
Definition py_index (out : list R) (i : nat) : result R :=
  match out !! i with
  | Some x => Ok x
  | None => Raise IndexError
  end.

(** [TemporalFilter.update]: the new filter and the returned state.  The
    target is whatever tuple the engine holds, of any length. *)
Definition TemporalFilter_update (f : TemporalFilter) (target : list R)
  (dt : R) : result (TemporalFilter * VAD) :=
  let '(c0, c1, c2) := state f in
  let current := [c0; c1; c2] in
  let tau := [tau_v f; tau_a f; tau_d f] in
  out ← for_each (fun '(cur, t, axis_tau) =>
                    axis_update (max_step f) dt cur t axis_tau)
                 (zip3 current target tau);
  o0 ← py_index out 0;
  o1 ← py_index out 1;
  o2 ← py_index out 2;
  let s := (o0, o1, o2) in
  Ok (mkTemporalFilter (tau_v f) (tau_a f) (tau_d f) (max_step f) s, s).

(** ** EmotionEnergyModel *)

Record EmotionEnergyModel : Type := mkEnergyModel {
  decay_per_frame : R;
  energy : R
}.

Definition EmotionEnergyModel_default : EmotionEnergyModel :=
  mkEnergyModel (995 / 1000) 0.

(** [sum(xs)]: Python adds from the left, starting at 0. *)
Definition py_sum (xs : list R) : R := foldl Rplus 0 xs.

(** [zip(target, smoothed)]. *)
Fixpoint zip2 {A B : Type} (xs : list A) (ys : list B) : list (A * B) :=
  match xs, ys with
  | x :: xs', y :: ys' => (x, y) :: zip2 xs' ys'
  | _, _ => []
  end.

Definition vad_list (v : VAD) : list R :=
  let '(a, b, c) := v in [a; b; c].

(** [EmotionEnergyModel.update]: the new model and the returned energy. *)
Definition EmotionEnergyModel_update (m : EmotionEnergyModel)
  (target : list R) (smoothed : VAD) : EmotionEnergyModel * R :=
  let delta :=
    py_sum (map (fun '(t, s) => Rabs (t - s))
                (zip2 target (vad_list smoothed))) / 3 in
  let e1 := energy m + delta in
  let e2 := e1 * decay_per_frame m in
  let e3 := clamp e2 0 10 in
  (mkEnergyModel (decay_per_frame m) e3, e3).

(** ** VisualParams and VisualMapping *)

(** [hsv_to_rgb].  The two remainders only select the sector and the
    ramp [x], and the colour is continuous across the wrap (a reduced hue of
    360 is painted like 0), so the remainders are taken over the reals. *)
Definition hsv_to_rgb (h s v : R) : R * R * R :=
  let h := fmod h 360 in
  let c := v * s in
  let x := c * (1 - Rabs (fmod (h / 60) 2 - 1)) in
  let m := v - c in
  let '(rp, gp, bp) :=
    if Rlt_dec h 60 then (c, x, 0)
    else if Rlt_dec h 120 then (x, c, 0)
    else if Rlt_dec h 180 then (0, c, x)
    else if Rlt_dec h 240 then (0, x, c)
    else if Rlt_dec h 300 then (x, 0, c)
    else (c, 0, x) in
  (rp + m, gp + m, bp + m).

Record VisualParams : Type := mkVisualParams {
  hsv_primary : R * R * R;
  hsv_secondary : R * R * R;
  rgb_primary : R * R * R;
  blob_count : Z;
  blob_size_mean : R;
  surface_tension : R;
  viscosity : R;
  buoyancy : R;
  turbulence : R;
  threshold : R;
  gravity_x : R
}.

Record VisualMapping : Type := mkVisualMapping {
  base_turbulence : R;
  arousal_gain : R;
  energy_gain : R
}.

Definition VisualMapping_default : VisualMapping :=
  mkVisualMapping (1 / 10) (9 / 10) (4 / 10).

(** [VisualMapping.map]; the hue jitter takes one draw of the global
    generator. *)
Definition VisualMapping_map (vm : VisualMapping) (vad : VAD) (energy t : R)
  (g : Rng) : VisualParams * Rng :=
  let '(v, a, d) := vad in
  let nv := (v + 1) / 2 in
  let na := (a + 1) / 2 in
  let nd := (d + 1) / 2 in
  let h := lerp 220 20 nv in
  let s := 3 / 10 + 7 / 10 * na in
  let val := 4 / 10 + 6 / 10 * na in
  let '(u, g') := uniform (-24) 24 g in
  let hue_noise := u * (1 - nd) in
  let h2 := float_rem (h + hue_noise) 360 in
  let blob_count := (3 + py_int (na * 10))%Z in
  let blob_size_mean := lerp (14 / 100) (5 / 100) na in
  let surface_tension := lerp (2 / 10) 1 nd in
  let viscosity := lerp 1 (2 / 10) nv in
  let buoyancy := lerp (- (3 / 10)) (3 / 10) nv in
  let turbulence :=
    base_turbulence vm + na * arousal_gain vm + energy * energy_gain vm in
  let threshold := lerp (12 / 10) (9 / 10) nd in
  let freq := 1 / 10 + na * (15 / 10) in
  let amp := 2 / 100 + energy * (5 / 100) in
  let gravity_x := sin (t * freq * math_tau) * amp in
  let hsv_primary := (h, s, val) in
  let hsv_secondary := (h2, s, val) in
  (mkVisualParams hsv_primary hsv_secondary (hsv_to_rgb h s val)
     blob_count blob_size_mean surface_tension viscosity buoyancy
     turbulence threshold gravity_x,
   g').

(** ** Blob and FluidSimulation *)

Record Blob : Type := mkBlob {
  position : R * R;
  velocity : R * R;
  radius : R;
  color : R * R * R
}.

Record FluidSimulation : Type := mkFluidSimulation {
  width : R;
  height : R;
  damping_base : R;
  blobs : list Blob
}.

Definition FluidSimulation_default : FluidSimulation :=
  mkFluidSimulation 1 1 (995 / 1000) [].

Definition with_blobs (sim : FluidSimulation) (bs : list Blob)
  : FluidSimulation :=
  mkFluidSimulation (width sim) (height sim) (damping_base sim) bs.

(** One blob of [reset], made from five draws of the seeded generator in
    the order the constructor arguments are evaluated. *)
Definition reset_blob (sim : FluidSimulation) (params : VisualParams)
  (g : Rng) : Blob * Rng :=
  let '(u1, g1) := random g in
  let '(u2, g2) := random g1 in
  let '(v1, g3) := uniform (- (5 / 100)) (5 / 100) g2 in
  let '(v2, g4) := uniform (- (5 / 100)) (5 / 100) g3 in
  let '(r, g5) := gauss (blob_size_mean params) (15 / 1000) g4 in
  (mkBlob (u1 * width sim, u2 * height sim) (v1, v2)
          (Rmax (1 / 100) r) (rgb_primary params),
   g5).

(** [for _ in range(n): self.blobs.append(make())]. *)
Fixpoint append_blobs (make : Rng -> Blob * Rng) (n : nat)
  (bs : list Blob) (g : Rng) : list Blob * Rng :=
  match n with
  | O => (bs, g)
  | S n' => let '(b, g') := make g in append_blobs make n' (bs ++ [b]) g'
  end.

(** [FluidSimulation.reset(params)] with the default [seed=None];
    [range] of a negative count is empty. *)
Definition FluidSimulation_reset (sim : FluidSimulation)
  (params : VisualParams) (w : World) : FluidSimulation * World :=
  let '(bs, g) := append_blobs (reset_blob sim params)
                    (Z.to_nat (blob_count params)) [] (seeded_rng w) in
  (with_blobs sim bs, mkWorld (global_rng w) g).

(** [FluidSimulation._curl_noise]. *)
Definition curl_noise (x y t : R) : R * R :=
  let nx := sin (3 * y + 17 / 10 * t) * (1 / 2)
            + sin (7 * y - 6 / 10 * t) * (1 / 2) in
  let ny := cos (3 * x - 13 / 10 * t) * (1 / 2)
            + cos (5 * x + 8 / 10 * t) * (1 / 2) in
  (nx, ny).

(** The blob appended by the growth loop of [step]. *)
Definition grow_blob (sim : FluidSimulation) (params : VisualParams)
  (g : Rng) : Blob * Rng :=
  let '(u1, g1) := random g in
  let '(u2, g2) := random g1 in
  (mkBlob (u1 * width sim, u2 * height sim) (0, 0)
          (blob_size_mean params) (rgb_primary params),
   g2).

(** [xs[:n]] for a Python [int] n: a negative stop counts from the end. *)
Definition py_slice_to {A : Type} (xs : list A) (n : Z) : list A :=
  if (n <? 0)%Z then take (Z.to_nat (Z.of_nat (length xs) + n)) xs
  else take (Z.to_nat n) xs.

(** The count reconciliation of [step] (lines 169-182): seed an empty
    simulation, grow while there are too few blobs, cut when there are too
    many.  The [while] loop appends one blob per turn until the length
    reaches the count, that is [blob_count - len] times. *)
Definition reconcile (sim : FluidSimulation) (params : VisualParams)
  (w : World) : FluidSimulation * World :=
  let '(sim1, w1) :=
    match blobs sim with
    | [] => FluidSimulation_reset sim params w
    | _ :: _ => (sim, w)
    end in
  let missing :=
    Z.to_nat (blob_count params - Z.of_nat (length (blobs sim1))) in
  let '(bs, g) := append_blobs (grow_blob sim1 params) missing
                    (blobs sim1) (global_rng w1) in
  let bs' :=
    if (blob_count params <? Z.of_nat (length bs))%Z
    then py_slice_to bs (blob_count params) else bs in
  (with_blobs sim1 bs', mkWorld g (seeded_rng w1)).

(** The body of the integration loop of [step] for one blob. *)
Definition integrate_blob (sim : FluidSimulation) (params : VisualParams)
  (dt t : R) (blob : Blob) : result Blob :=
  let damping := damping_base sim - (1 - viscosity params) * (2 / 100) in
  let '(px, py) := position blob in
  let '(vx, vy) := velocity blob in
  let '(cx, cy) := curl_noise px py t in
  let vx := vx + (cx * turbulence params + gravity_x params) * dt in
  let vy := vy + (cy * turbulence params + buoyancy params) * dt in
  let vx := vx * damping in
  let vy := vy * damping in
  px' ← py_mod (px + vx * dt) (width sim);
  let py' := clamp (py + vy * dt) 0 (height sim) in
  Ok (mkBlob (px', py') (vx, vy) (radius blob) (rgb_primary params)).

(** *** _merge_and_split: the merge scan *)

Definition dist2 (a b : Blob) : R :=
  let dx := (position a).1 - (position b).1 in
  let dy := (position a).2 - (position b).2 in
  dx * dx + dy * dy.

Definition merge_threshold (nd : R) (a b : Blob) : R :=
  (radius a + radius b) * (15 / 10 - 5 / 10 * nd).

(** The survivor [a] after it has absorbed [b] (lines 209-212).  [area] is
    a sum of two squares, so [math.sqrt] is inside its domain. *)
Definition absorb (a b : Blob) : Blob :=
  let area := radius a * radius a + radius b * radius b in
  mkBlob (position a)
         (((velocity a).1 + (velocity b).1) * (1 / 2),
          ((velocity a).2 + (velocity b).2) * (1 / 2))
         (sqrt area) (color a).

(** One turn of the inner [while j < len(self.blobs)] loop: the new [j],
    blob list and generator.  The right operand of [and] is evaluated, and
    a draw consumed, only when the distance test holds. *)
Definition merge_iter (nd : R) (i j : nat) (bs : list Blob) (g : Rng)
  : result (nat * list Blob * Rng) :=
  match bs !! i, bs !! j with
  | Some a, Some b =>
      let thr := merge_threshold nd a b in
      if Rlt_dec (dist2 a b) (thr * thr) then
        let '(u, g') := random g in
        if Rlt_dec u nd
        then Ok (j, delete j (<[i := absorb a b]> bs), g')
        else Ok (S j, bs, g')
      else Ok (S j, bs, g)
  | _, _ => Raise IndexError
  end.

Fixpoint merge_inner (fuel : nat) (nd : R) (i j : nat) (bs : list Blob)
  (g : Rng) {struct fuel} : result (list Blob * Rng) :=
  if decide (j < length bs)%nat then
    match fuel with
    | O => OutOfFuel
    | S fuel' =>
        '(j', bs', g') ← merge_iter nd i j bs g;
        merge_inner fuel' nd i j' bs' g'
    end
  else Ok (bs, g).

Fixpoint merge_outer (fuel : nat) (nd : R) (i : nat) (bs : list Blob)
  (g : Rng) {struct fuel} : result (list Blob * Rng) :=
  if decide (i < length bs)%nat then
    match fuel with
    | O => OutOfFuel
    | S fuel' =>
        '(bs', g') ← merge_inner fuel nd i (S i) bs g;
        merge_outer fuel' nd (S i) bs' g'
    end
  else Ok (bs, g).

(** *** _merge_and_split: the split scan *)

(** The parent after a split and the child it spawns (lines 222-229). *)
Definition shrink (b : Blob) : Blob :=
  mkBlob (position b) (velocity b) (radius b / sqrt 2) (color b).

Definition spawn (sim : FluidSimulation) (b : Blob) : result Blob :=
  x ← py_mod ((position b).1 + 3 / 100) (width sim);
  Ok (mkBlob (x, clamp ((position b).2 + 3 / 100) 0 (height sim))
             (- (velocity b).1, (velocity b).2)
             (radius b) (color b)).

(** One turn of the [while idx < len(self.blobs)] loop at index [idx]. *)
Definition split_iter (sim : FluidSimulation) (na : R)
  (params : VisualParams) (idx : nat) (bs : list Blob) (g : Rng)
  : result (list Blob * Rng) :=
  match bs !! idx with
  | Some b =>
      if Rgt_dec (radius b) (blob_size_mean params * (18 / 10)) then
        let '(u, g') := random g in
        if Rlt_dec u na then
          let b' := shrink b in
          child ← spawn sim b';
          Ok (<[idx := b']> bs ++ [child], g')
        else Ok (bs, g')
      else Ok (bs, g)
  | None => Raise IndexError
  end.

Fixpoint split_loop (fuel : nat) (sim : FluidSimulation) (na : R)
  (params : VisualParams) (idx : nat) (bs : list Blob) (g : Rng)
  {struct fuel} : result (list Blob * Rng) :=
  if decide (idx < length bs)%nat then
    match fuel with
    | O => OutOfFuel
    | S fuel' =>
        '(bs', g') ← split_iter sim na params idx bs g;
        split_loop fuel' sim na params (S idx) bs' g'
    end
  else Ok (bs, g).

(** [FluidSimulation._merge_and_split]. *)
Definition merge_and_split (fuel : nat) (sim : FluidSimulation) (nd na : R)
  (params : VisualParams) (g : Rng) : result (FluidSimulation * Rng) :=
  '(bs1, g1) ← merge_outer fuel nd 0 (blobs sim) g;
  '(bs2, g2) ← split_loop fuel sim na params 0 bs1 g1;
  Ok (with_blobs sim bs2, g2).

(** [FluidSimulation.step]. *)
Definition FluidSimulation_step (fuel : nat) (sim : FluidSimulation)
  (params : VisualParams) (nd na dt t : R) (w : World)
  : result (FluidSimulation * World) :=
  let '(sim1, w1) := reconcile sim params w in
  bs ← for_each (integrate_blob sim1 params dt t) (blobs sim1);
  '(sim2, g) ← merge_and_split fuel (with_blobs sim1 bs) nd na params
                 (global_rng w1);
  Ok (sim2, mkWorld g (seeded_rng w1)).

(** ** EmotionLavaLampEngine

    [vad_getter] is the caller's: each tick receives what the getter
    returned on that call, [None] or a tuple of Python values. *)

Record Engine : Type := mkEngine {
  filter : TemporalFilter;
  energy_model : EmotionEnergyModel;
  mapper : VisualMapping;
  sim : FluidSimulation;
  target_vad : list R;
  time_s : R
}.

Definition Engine_default : Engine :=
  mkEngine TemporalFilter_default EmotionEnergyModel_default
           VisualMapping_default FluidSimulation_default [0; 0; 0] 0.

(** Sample retrieval (lines 245-247). *)
Definition store_sample (eng : Engine) (sample : option (list pyval))
  : result Engine :=
  match sample with
  | None => Ok eng
  | Some s =>
      tv ← for_each (fun v => py_clamp v (-1) 1) s;
      Ok (mkEngine (filter eng) (energy_model eng) (mapper eng) (sim eng)
                   tv (time_s eng))
  end.

(** [EmotionLavaLampEngine.tick]. *)
Definition tick (fuel : nat) (eng : Engine) (sample : option (list pyval))
  (dt : R) (w : World) : result (VisualParams * Engine * World) :=
  eng1 ← store_sample eng sample;
  '(f', smoothed) ← TemporalFilter_update (filter eng1) (target_vad eng1) dt;
  let '(m', e) :=
    EmotionEnergyModel_update (energy_model eng1) (target_vad eng1)
                              smoothed in
  let time' := time_s eng1 + dt in
  let '(params, g) :=
    VisualMapping_map (mapper eng1) smoothed e time' (global_rng w) in
  let na := (smoothed.1.2 + 1) / 2 in
  let nd := (smoothed.2 + 1) / 2 in
  '(sim', w') ← FluidSimulation_step fuel (sim eng1) params nd na dt time'
                  (mkWorld g (seeded_rng w));
  Ok (params, mkEngine f' m' (mapper eng1) sim' (target_vad eng1) time', w').

(** Successive ticks, one per entry of [samples]; each entry of the result
    is the [VisualParams] a tick returned with the engine as that tick left
    it. *)
Fixpoint run (fuel : nat) (eng : Engine) (samples : list (option (list pyval)))
  (dt : R) (w : World) : result (list (VisualParams * Engine) * World) :=
  match samples with
  | [] => Ok ([], w)
  | s :: rest =>
      '(p, eng', w') ← tick fuel eng s dt w;
      '(frames, w'') ← run fuel eng' rest dt w';
      Ok ((p, eng') :: frames, w'')
  end.

(** ** Traces used by the statements *)

(** The mean absolute per-axis divergence of two VAD triples, as the
    specification words it. *)
Definition mean_abs_divergence (target smoothed : VAD) : R :=
  let '(t1, t2, t3) := target in
  let '(s1, s2, s3) := smoothed in
  (Rabs (t1 - s1) + Rabs (t2 - s2) + Rabs (t3 - s3)) / 3.

(** The energies returned by successive [EmotionEnergyModel.update] calls
    on a sequence of (target, smoothed) pairs. *)
Fixpoint energy_trace (m : EmotionEnergyModel) (inputs : list (VAD * VAD))
  : list R :=
  match inputs with
  | [] => []
  | (t, s) :: rest =>
      let '(m', e) := EmotionEnergyModel_update m (vad_list t) s in
      e :: energy_trace m' rest
  end.

(** The states returned by successive [TemporalFilter.update] calls with a
    fixed target, one call per entry of [dts]. *)
Fixpoint filter_trace (f : TemporalFilter) (target : list R) (dts : list R)
  : result (list VAD) :=
  match dts with
  | [] => Ok []
  | dt :: rest =>
      '(f', s) ← TemporalFilter_update f target dt;
      ss ← filter_trace f' target rest;
      Ok (s :: ss)
  end.

Inductive Axis : Type := Valence | Arousal | Dominance.

Definition component (k : Axis) (v : VAD) : R :=
  match k with
  | Valence => v.1.1
  | Arousal => v.1.2
  | Dominance => v.2
  end.

Definition axis_tau (k : Axis) (f : TemporalFilter) : R :=
  match k with
  | Valence => tau_v f
  | Arousal => tau_a f
  | Dominance => tau_d f
  end.

(** ** Concrete inputs for the examples *)

Definition blob_at (x y vx vy r : R) : Blob :=
  mkBlob (x, y) (vx, vy) r (1, 1, 1).

(** A generator whose every uniform draw is [u]. *)
Definition rng_const (u : R) : Rng := mkRng (fun _ => u) 0 (fun _ => 0) 0.

(** ** Domain containment *)

(** The position of a blob lies in [0, width) x [0, height]. *)
Definition in_domain (sim : FluidSimulation) (b : Blob) : Prop :=
  0 <= (position b).1 < width sim /\ 0 <= (position b).2 <= height sim.


(** ** A measure for the split scan

    A blob of radius at most [T * sqrt 2 ^ n] can head a chain of at most
    [n] splits against the threshold [T]; it is charged [S n] turns of the
    scan, one for its own visit and [n] for the visits of its descendants.
    [budget T l N] says the blobs still to be visited are charged [N] turns
    in total. *)
Inductive budget (T : R) : list Blob -> nat -> Prop :=
| budget_nil : budget T [] 0
| budget_cons (b : Blob) (l : list Blob) (n N : nat) :
    radius b <= T * sqrt 2 ^ n -> budget T l N ->
    budget T (b :: l) (S n + N).

(** Parameters under which a resting blob stays where it is: no
    turbulence, gravity or buoyancy, a mean size of 0.1. *)
Definition params_still (count : Z) : VisualParams :=
  mkVisualParams (0, 0, 0) (0, 0, 0) (1, 1, 1) count (1 / 10) 0 1 0 0 0 0.

(** Two resting blobs of radius 0.1 on the same spot of the unit domain. *)
Definition two_blobs : FluidSimulation :=
  mkFluidSimulation 1 1 (995 / 1000)
    [blob_at (1 / 2) (1 / 2) 0 0 (1 / 10);
     blob_at (1 / 2) (1 / 2) 0 0 (1 / 10)].

Definition world_const (u : R) : World := mkWorld (rng_const u) (rng_const u).


(** ** Engine well-formedness and samples *)

(** What [tick] needs to run with a time step [dt >= 0]: positive time
    constants, a domain width one can divide by, and a held target of at
    least three components. *)
Definition engine_ok (eng : Engine) : Prop :=
  0 < tau_v (filter eng) /\ 0 < tau_a (filter eng)
  /\ 0 < tau_d (filter eng) /\ width (sim eng) <> 0
  /\ (3 <= length (target_vad eng))%nat.

(** What [clamp(v, -1.0, 1.0)] stores for a component that is a number or
    NaN. *)
Definition stored_component (v : pyval) : R :=
  match v with
  | PyFloat x => clamp x (-1) 1
  | PyNaN => 1
  | PyNonNumeric => 0
  end.

Definition is_numeric (v : pyval) : Prop :=
  match v with
  | PyFloat _ => True
  | PyNaN | PyNonNumeric => False
  end.

(** A well-formed sample is a triple of numbers; anything else is
    malformed: wrong arity, or a component that is NaN or not a number. *)
Definition well_formed_sample (s : list pyval) : Prop :=
  length s = 3%nat /\ Forall is_numeric s.

(** ** Definitions for the further properties *)

(** The summed squared radii of a blob list (the total area up to the
    factor pi). *)
Fixpoint total_area (bs : list Blob) : R :=
  match bs with
  | [] => 0
  | b :: bs' => radius b * radius b + total_area bs'
  end.

(** [get_global_vad]: the placeholder source, which never has a sample. *)
Definition get_global_vad : option (list pyval) := None.

(** [run_engine(frames, dt)]: a fresh engine on the placeholder source,
    ticked [frames] times; the generator's yields are collected in a list.
    [range] of a negative count is empty. *)
Definition run_engine (fuel : nat) (frames : Z) (dt : R) (w : World)
  : result (list VisualParams * World) :=
  '(fr, w') ← run fuel Engine_default
                (replicate (Z.to_nat frames) get_global_vad) dt w;
  Ok (map fst fr, w').

(** What one blob made by [reset] looks like. *)
Definition fresh_blob (sim : FluidSimulation) (params : VisualParams)
  (b : Blob) : Prop :=
  in_domain sim b
  /\ - (5 / 100) <= (velocity b).1 < 5 / 100
  /\ - (5 / 100) <= (velocity b).2 < 5 / 100
  /\ 1 / 100 <= radius b
  /\ color b = rgb_primary params.

(** A sample with every number clamped to [-1, 1] beforehand. *)
Definition clamp_sample (s : list pyval) : list pyval :=
  map (fun v => match v with
                | PyFloat x => PyFloat (clamp x (-1) 1)
                | PyNaN => PyNaN
                | PyNonNumeric => PyNonNumeric
                end) s.

(** An engine at rest: default filter and mapper, no energy, a held
    target of zero. *)
Definition at_rest (eng : Engine) : Prop :=
  filter eng = TemporalFilter_default
  /\ energy (energy_model eng) = 0
  /\ decay_per_frame (energy_model eng) = 995 / 1000
  /\ mapper eng = VisualMapping_default
  /\ target_vad eng = [0; 0; 0]
  /\ width (sim eng) <> 0.

(** The parameters an engine at rest returns (up to the time-dependent
    gravity and the jittered secondary hue). *)
Definition resting_params (p : VisualParams) : Prop :=
  blob_count p = 8%Z /\ turbulence p = 55 / 100
  /\ blob_size_mean p = 95 / 1000
  /\ hsv_primary p = (120, 65 / 100, 7 / 10).

(** Two engines with the default configuration whose states mirror each
    other in arousal: same valence and dominance, opposite arousal, the
    high one at [sa] in [0, ca]; same energy model. *)
Definition mirrored (ca : R) (el eh : Engine) : Prop :=
  exists sv sa sd : R,
    filter eh = mkTemporalFilter 2 (6 / 10) (12 / 10) (25 / 100) (sv, sa, sd)
    /\ filter el
       = mkTemporalFilter 2 (6 / 10) (12 / 10) (25 / 100) (sv, - sa, sd)
    /\ 0 <= sa <= ca
    /\ energy_model el = energy_model eh
    /\ mapper el = VisualMapping_default
    /\ mapper eh = VisualMapping_default.

(** ** demo_tk.VADSignal: the built-in VAD sources *)

From Stdlib Require String.
Import String.StringSyntax.
Delimit Scope string_scope with string.

Record VADSignal : Type := mkVADSignal {
  mode : String.string;
  signal_t : R;
  step_state : VAD;
  next_flip : R
}.

(** [VADSignal(mode)]. *)
Definition VADSignal_init (m : String.string) : VADSignal :=
  mkVADSignal m 0 (- (8 / 10), - (6 / 10), - (6 / 10)) (15 / 10).

(** What a call of the source does: it yields a sample, or raises
    [ValueError] for a mode it does not know.  Either way the signal's
    clock has advanced. *)
Inductive signal_outcome : Type :=
| Yields (sample : VAD) (sig' : VADSignal) (g' : Rng)
| RaisesValueError (sig' : VADSignal).

(** [VADSignal.__call__]; the noise mode takes three draws of the global
    generator. *)
Definition VADSignal_call (sig : VADSignal) (g : Rng) : signal_outcome :=
  let dt := 16 / 1000 in
  let t := signal_t sig + dt in
  let sig1 := mkVADSignal (mode sig) t (step_state sig) (next_flip sig) in
  if String.eqb (mode sig) "sine"%string then
    let v := sin (t * (5 / 10)) in
    let a := sin (t * (14 / 10)) in
    let d := sin (t * (8 / 10) + 12 / 10) in
    Yields (clamp v (-1) 1, clamp a (-1) 1, clamp d (-1) 1) sig1 g
  else if String.eqb (mode sig) "noise"%string then
    let '(u1, g1) := uniform (- (5 / 10)) (5 / 10) g in
    let v := sin (t * (25 / 100)) * (5 / 10) + u1 in
    let '(u2, g2) := uniform (- (6 / 10)) (6 / 10) g1 in
    let a := sin (t * (9 / 10)) * (4 / 10) + u2 in
    let '(u3, g3) := uniform (- (4 / 10)) (4 / 10) g2 in
    let d := sin (t * (45 / 100) + 1) * (3 / 10) + u3 in
    Yields (clamp v (-1) 1, clamp a (-1) 1, clamp d (-1) 1) sig1 g3
  else if String.eqb (mode sig) "step"%string then
    if Rgt_dec t (next_flip sig) then
      let '(x, y, z) := step_state sig in
      let flipped := (- x, - y, - z) in
      Yields flipped
             (mkVADSignal (mode sig) t flipped (next_flip sig + 15 / 10)) g
    else Yields (step_state sig) sig1 g
  else RaisesValueError sig1.

(** The signal after [n] calls in a row, when none of them raises. *)
Fixpoint VADSignal_calls (n : nat) (sig : VADSignal) (g : Rng)
  : option (list VAD * VADSignal * Rng) :=
  match n with
  | O => Some ([], sig, g)
  | S n' =>
      match VADSignal_call sig g with
      | Yields s sig' g' =>
          match VADSignal_calls n' sig' g' with
          | Some (ss, sig'', g'') => Some (s :: ss, sig'', g'')
          | None => None
          end
      | RaisesValueError _ => None
      end
  end.

Definition vad_neg (s : VAD) : VAD := (- s.1.1, - s.1.2, - s.2).

Definition vad_in_range (s : VAD) : Prop :=
  forall k : Axis, -1 <= component k s <= 1.

Definition known_mode (m : String.string) : Prop :=
  m = "sine"%string \/ m = "noise"%string \/ m = "step"%string.

(** * Properties *)

(** ** Numeric helpers *)

Lemma clamp_lower (x low high : R) : low <= clamp x low high.
Proof. unfold clamp. apply Rmax_l. Qed.

Lemma clamp_upper (x low high : R) : low <= high -> clamp x low high <= high.
Proof.
  intros Hlh. unfold clamp. apply Rmax_lub; [exact Hlh | apply Rmin_l].
Qed.

Lemma clamp_inside (x low high : R) :
  low <= x <= high -> clamp x low high = x.
Proof.
  intros [Hl Hh]. unfold clamp.
  rewrite Rmin_right by exact Hh. rewrite Rmax_right by exact Hl. reflexivity.
Qed.

Lemma clamp_above (x low high : R) :
  low <= high -> high <= x -> clamp x low high = high.
Proof.
  intros Hlh Hx. unfold clamp.
  rewrite Rmin_left by exact Hx. rewrite Rmax_right by exact Hlh. reflexivity.
Qed.

Lemma clamp_below (x low high : R) : x <= low -> clamp x low high = low.
Proof.
  intros Hx. unfold clamp. apply Rmax_left.
  eapply Rle_trans; [apply Rmin_r | exact Hx].
Qed.

Lemma clamp_mono (x y low high : R) :
  x <= y -> clamp x low high <= clamp y low high.
Proof.
  intros Hxy. unfold clamp.
  apply Rle_max_compat_l. apply Rle_min_compat_l. exact Hxy.
Qed.

(** The floor that [fmod] and [py_int] use. *)
Lemma Int_part_bounds (r : R) : IZR (Int_part r) <= r < IZR (Int_part r) + 1.
Proof. destruct (base_Int_part r) as [H1 H2]. lra. Qed.

Lemma Int_part_unique (r : R) (z : Z) :
  IZR z <= r < IZR z + 1 -> Int_part r = z.
Proof.
  intros [H1 H2]. symmetry. apply Int_part_spec. lra.
Qed.

(** For a positive divisor the remainder lies in [0, w). *)
Lemma fmod_range (x w : R) : 0 < w -> 0 <= fmod x w < w.
Proof.
  intros Hw. unfold fmod.
  destruct (Int_part_bounds (x / w)) as [H1 H2].
  assert (Hx : x = x / w * w) by (field; lra).
  set (q := x / w) in *. set (k := IZR (Int_part q)) in *.
  split; rewrite Hx at 1; nra.
Qed.

Lemma py_int_range (x : R) (n : Z) :
  0 <= x <= IZR n -> (0 <= py_int x <= n)%Z.
Proof.
  intros [H0 Hn]. unfold py_int.
  destruct (Rle_dec 0 x) as [_ | Hneg]; [| lra].
  destruct (Int_part_bounds x) as [H1 H2].
  split.
  - apply le_IZR. change (IZR 0) with 0.
    assert (-1 < IZR (Int_part x)) by lra.
    assert (Hlt : (-1 < Int_part x)%Z) by (apply lt_IZR; exact H).
    apply IZR_le. lia.
  - apply le_IZR. lra.
Qed.

(** ** Doubles and the float remainder *)

Lemma Int_part_mono (x y : R) : x <= y -> (Int_part x <= Int_part y)%Z.
Proof.
  intros Hxy.
  destruct (Int_part_bounds x) as [Hx1 Hx2].
  destruct (Int_part_bounds y) as [Hy1 Hy2].
  assert (H : (Int_part x < Int_part y + 1)%Z).
  { apply lt_IZR. rewrite plus_IZR. lra. }
  lia.
Qed.

Lemma ln2_pos : 0 < ln 2.
Proof. rewrite <- ln_1. apply ln_increasing; lra. Qed.

Lemma powerRZ_2_pos (e : Z) : 0 < powerRZ 2 e.
Proof. apply powerRZ_lt. lra. Qed.

Lemma powerRZ_2_exp (e : Z) : powerRZ 2 e = exp (IZR e * ln 2).
Proof. rewrite powerRZ_Rpower by lra. reflexivity. Qed.

Lemma powerRZ_2_IZR (p : positive) : powerRZ 2 (Z.pos p) = IZR (2 ^ Z.pos p).
Proof.
  unfold powerRZ. rewrite pow_IZR. rewrite positive_nat_Z. reflexivity.
Qed.

Lemma powerRZ_2_split (a b : Z) :
  powerRZ 2 (a + b) = powerRZ 2 a * powerRZ 2 b.
Proof. apply powerRZ_add. lra. Qed.

Lemma powerRZ_2_le (a b : Z) : (a <= b)%Z -> powerRZ 2 a <= powerRZ 2 b.
Proof.
  intros Hab. rewrite !powerRZ_2_exp. pose proof ln2_pos as H2.
  assert (H : IZR a * ln 2 <= IZR b * ln 2).
  { apply Rmult_le_compat_r; [lra | apply IZR_le; exact Hab]. }
  destruct H as [H | H]; [left; apply exp_increasing; exact H |].
  rewrite H. lra.
Qed.

(** [binade y] is the exponent of the power of two at or below [|y|]. *)
Lemma binade_spec (y : R) :
  y <> 0 -> powerRZ 2 (binade y) <= Rabs y < powerRZ 2 (binade y + 1).
Proof.
  intros Hy. assert (Ha : 0 < Rabs y) by (apply Rabs_pos_lt; exact Hy).
  pose proof ln2_pos as H2. unfold binade.
  destruct (Int_part_bounds (ln (Rabs y) / ln 2)) as [H1 H3].
  set (e := Int_part (ln (Rabs y) / ln 2)) in *.
  assert (HL : ln (Rabs y) = ln (Rabs y) / ln 2 * ln 2) by (field; lra).
  set (L := ln (Rabs y) / ln 2) in *.
  rewrite !powerRZ_2_exp, plus_IZR.
  rewrite <- (exp_ln (Rabs y) Ha). rewrite HL.
  split.
  - assert (H : IZR e * ln 2 <= L * ln 2) by nra.
    destruct H as [H | H]; [left; apply exp_increasing; exact H |].
    rewrite H. lra.
  - apply exp_increasing. nra.
Qed.

Lemma binade_unique (y : R) (e : Z) :
  powerRZ 2 e <= Rabs y < powerRZ 2 (e + 1) -> binade y = e.
Proof.
  intros [H1 H2]. pose proof ln2_pos as Hl. pose proof (powerRZ_2_pos e) as Hp.
  assert (Ha : 0 < Rabs y) by lra.
  unfold binade. apply Int_part_unique.
  rewrite powerRZ_2_exp in H1, H2. rewrite plus_IZR in H2.
  assert (Hlo : IZR e * ln 2 <= ln (Rabs y)).
  { destruct H1 as [H1 | H1].
    - left. apply exp_lt_inv. rewrite (exp_ln _ Ha). exact H1.
    - right. rewrite <- H1. rewrite ln_exp. reflexivity. }
  assert (Hhi : ln (Rabs y) < (IZR e + 1) * ln 2).
  { apply exp_lt_inv. rewrite (exp_ln _ Ha). exact H2. }
  assert (HL : ln (Rabs y) = ln (Rabs y) / ln 2 * ln 2) by (field; lra).
  set (L := ln (Rabs y) / ln 2) in *.
  split; nra.
Qed.

Lemma binade_mono (y1 y2 : R) :
  0 < y1 -> y1 <= y2 -> (binade y1 <= binade y2)%Z.
Proof.
  intros H1 H12. unfold binade. apply Int_part_mono.
  rewrite !Rabs_pos_eq by lra. pose proof ln2_pos as Hl.
  assert (H : ln y1 <= ln y2).
  { destruct H12 as [H | H]; [left; apply ln_increasing; assumption |].
    rewrite H. lra. }
  unfold Rdiv. apply Rmult_le_compat_r; [| exact H].
  left. apply Rinv_0_lt_compat. exact Hl.
Qed.

Lemma round_half_even_IZR (k : Z) : round_half_even (IZR k) = k.
Proof.
  unfold round_half_even. rewrite (Int_part_unique (IZR k) k) by lra.
  destruct (Rlt_dec (IZR k - IZR k) (1 / 2)); [reflexivity | lra].
Qed.

Lemma round_half_even_bounds (z : R) :
  (Int_part z <= round_half_even z <= Int_part z + 1)%Z.
Proof.
  unfold round_half_even.
  destruct (Rlt_dec _ _); [lia |].
  destruct (Rlt_dec _ _); [lia |].
  destruct (Z.even _); lia.
Qed.

Lemma round_half_even_mono (z1 z2 : R) :
  z1 <= z2 -> (round_half_even z1 <= round_half_even z2)%Z.
Proof.
  intros H. pose proof (Int_part_mono z1 z2 H) as Hn.
  pose proof (round_half_even_bounds z1) as B1.
  pose proof (round_half_even_bounds z2) as B2.
  destruct (Z.eq_dec (Int_part z1) (Int_part z2)) as [E | E]; [| lia].
  clear B1 B2 Hn. unfold round_half_even. rewrite <- E.
  destruct (Rlt_dec (z1 - IZR (Int_part z1)) (1 / 2)) as [A | A].
  { destruct (Rlt_dec _ _); [lia |].
    destruct (Rlt_dec _ _); [lia |]. destruct (Z.even _); lia. }
  destruct (Rlt_dec (z2 - IZR (Int_part z1)) (1 / 2)) as [B | B]; [lra |].
  destruct (Rlt_dec (1 / 2) (z1 - IZR (Int_part z1))) as [C | C].
  { destruct (Rlt_dec (1 / 2) (z2 - IZR (Int_part z1))); [lia | lra]. }
  destruct (Rlt_dec (1 / 2) (z2 - IZR (Int_part z1))) as [D | D].
  { destruct (Z.even _); lia. }
  destruct (Z.even _); lia.
Qed.

(** The scaled significand of a positive number lies in [2^52, 2^53). *)
Lemma significand_range (y : R) :
  0 < y ->
  IZR (2 ^ 52) <= y / powerRZ 2 (binade y - 52) < IZR (2 ^ 53).
Proof.
  intros Hy. destruct (binade_spec y) as [H1 H2]; [lra |].
  rewrite Rabs_pos_eq in H1, H2 by lra.
  pose proof (powerRZ_2_pos (binade y - 52)) as Hu.
  replace (binade y) with (52 + (binade y - 52))%Z in H1 at 1 by lia.
  replace (binade y + 1)%Z with (53 + (binade y - 52))%Z in H2 by lia.
  rewrite powerRZ_2_split, powerRZ_2_IZR in H1, H2.
  set (u := powerRZ 2 (binade y - 52)) in *.
  assert (Hy' : y = y / u * u) by (field; lra).
  set (z := y / u) in *.
  split; [apply (Rmult_le_reg_r u) | apply (Rmult_lt_reg_r u)]; lra.
Qed.

(** Rounding stays inside the closed binade. *)
Lemma fl_binade_bounds (y : R) :
  0 < y -> powerRZ 2 (binade y) <= fl y <= powerRZ 2 (binade y + 1).
Proof.
  intros Hy. destruct (significand_range y Hy) as [H1 H2].
  unfold fl. destruct (Req_dec_T y 0) as [E | _]; [lra |].
  pose proof (powerRZ_2_pos (binade y - 52)) as Hu.
  replace (binade y) with (52 + (binade y - 52))%Z at 1 by lia.
  replace (binade y + 1)%Z with (53 + (binade y - 52))%Z by lia.
  rewrite !powerRZ_2_split, !powerRZ_2_IZR.
  set (u := powerRZ 2 (binade y - 52)) in *.
  set (z := y / u) in *.
  assert (Hlo : (2 ^ 52 <= round_half_even z)%Z).
  { rewrite <- (round_half_even_IZR (2 ^ 52)).
    apply round_half_even_mono. exact H1. }
  assert (Hhi : (round_half_even z <= 2 ^ 53)%Z).
  { rewrite <- (round_half_even_IZR (2 ^ 53)).
    apply round_half_even_mono. lra. }
  apply IZR_le in Hlo, Hhi.
  split; apply Rmult_le_compat_r; lra.
Qed.

Lemma fl_pos (y : R) : 0 < y -> 0 < fl y.
Proof.
  intros Hy. destruct (fl_binade_bounds y Hy) as [H _].
  pose proof (powerRZ_2_pos (binade y)). lra.
Qed.

(** Rounding is monotone on the positive numbers. *)
Lemma fl_mono (y1 y2 : R) : 0 < y1 -> y1 <= y2 -> fl y1 <= fl y2.
Proof.
  intros H1 H12. pose proof (binade_mono y1 y2 H1 H12) as He.
  destruct (Z.eq_dec (binade y1) (binade y2)) as [E | E].
  - unfold fl. destruct (Req_dec_T y1 0) as [? | _]; [lra |].
    destruct (Req_dec_T y2 0) as [? | _]; [lra |].
    rewrite <- E. pose proof (powerRZ_2_pos (binade y1 - 52)) as Hu.
    set (u := powerRZ 2 (binade y1 - 52)) in *.
    apply Rmult_le_compat_r; [lra |]. apply IZR_le.
    apply round_half_even_mono.
    unfold Rdiv. apply Rmult_le_compat_r; [| exact H12].
    left. apply Rinv_0_lt_compat. exact Hu.
  - destruct (fl_binade_bounds y1 H1) as [_ Hup].
    destruct (fl_binade_bounds y2) as [Hlo _]; [lra |].
    pose proof (powerRZ_2_le (binade y1 + 1) (binade y2)) as Hp.
    specialize (Hp ltac:(lia)). lra.
Qed.

(** A positive number below a double rounds to at most that double. *)
Lemma fl_below_double (y w : R) :
  0 < y -> y <= w -> is_double w -> 0 <= fl y <= w.
Proof.
  intros Hy Hw Hd. split.
  - left. apply fl_pos. exact Hy.
  - rewrite <- Hd. apply fl_mono; assumption.
Qed.

(** A 53-bit significand times a power of two is a double. *)
Lemma is_double_scaled (m e : Z) :
  (2 ^ 52 <= m < 2 ^ 53)%Z -> is_double (IZR m * powerRZ 2 e).
Proof.
  intros [Hlo Hhi]. apply IZR_le in Hlo. apply IZR_lt in Hhi.
  pose proof (powerRZ_2_pos e) as Hu.
  assert (H52 : 0 < IZR (2 ^ 52)) by (apply IZR_lt; reflexivity).
  assert (Hy : 0 < IZR m * powerRZ 2 e) by nra.
  assert (Hb : binade (IZR m * powerRZ 2 e) = (52 + e)%Z).
  { apply binade_unique. rewrite Rabs_pos_eq by lra.
    replace (52 + e + 1)%Z with (53 + e)%Z by lia.
    rewrite !powerRZ_2_split, !powerRZ_2_IZR. split; nra. }
  unfold is_double, fl.
  destruct (Req_dec_T _ 0) as [E | _]; [lra |].
  rewrite Hb. replace (52 + e - 52)%Z with e by lia.
  replace (IZR m * powerRZ 2 e / powerRZ 2 e) with (IZR m) by (field; lra).
  rewrite round_half_even_IZR. reflexivity.
Qed.

Lemma powerRZ_2_inv (p : positive) :
  powerRZ 2 (Z.neg p) = / IZR (2 ^ Z.pos p).
Proof.
  assert (H : powerRZ 2 (Z.pos p) * powerRZ 2 (Z.neg p) = 1).
  { rewrite <- powerRZ_2_split. rewrite Z.add_opp_diag_r. reflexivity. }
  pose proof (powerRZ_2_pos (Z.pos p)) as Hp.
  rewrite powerRZ_2_IZR in H, Hp.
  apply (Rmult_eq_reg_l (IZR (2 ^ Z.pos p))); [| lra].
  rewrite H. field. lra.
Qed.


Lemma is_double_360 : is_double 360.
Proof.
  replace 360 with (IZR (360 * 2 ^ 44) * powerRZ 2 (-44)).
  - apply is_double_scaled. lia.
  - rewrite powerRZ_2_inv, mult_IZR. field. apply not_0_IZR. discriminate.
Qed.


(** Truncation towards zero leaves a fraction with the sign of the
    argument. *)
Lemma py_int_frac (q : R) :
  (0 <= q -> 0 <= q - IZR (py_int q) < 1)
  /\ (q <= 0 -> -1 < q - IZR (py_int q) <= 0).
Proof.
  unfold py_int. destruct (Rle_dec 0 q) as [H | H].
  - destruct (Int_part_bounds q) as [H1 H2]. split; intros Hq; [lra |].
    assert (q = 0) by lra. subst q.
    rewrite (Int_part_unique 0 0) by lra. lra.
  - destruct (Int_part_bounds (- q)) as [H1 H2]. rewrite opp_IZR.
    split; intros Hq; lra.
Qed.

(** The C remainder is smaller in magnitude than a positive divisor and
    has the sign of the dividend. *)
Lemma c_fmod_range (x w : R) :
  0 < w ->
  - w < c_fmod x w < w
  /\ (0 <= x -> 0 <= c_fmod x w) /\ (x <= 0 -> c_fmod x w <= 0).
Proof.
  intros Hw. unfold c_fmod.
  assert (Hx : x = x / w * w) by (field; lra).
  assert (Hi : 0 < / w) by (apply Rinv_0_lt_compat; exact Hw).
  destruct (py_int_frac (x / w)) as [Hp Hn].
  set (q := x / w) in *. set (k := IZR (py_int q)) in *.
  destruct (Rle_dec 0 q) as [Hq | Hq].
  - specialize (Hp Hq). split; [split; rewrite Hx at 1; nra |].
    split; intros Hs; rewrite Hx at 1; nra.
  - assert (Hq' : q <= 0) by lra. specialize (Hn Hq').
    split; [split; rewrite Hx at 1; nra |].
    split; intros Hs; rewrite Hx at 1; nra.
Qed.

Lemma c_fmod_small (x w : R) : 0 <= x < w -> c_fmod x w = x.
Proof.
  intros [H0 Hw]. unfold c_fmod, py_int.
  assert (Hi : 0 < / w) by (apply Rinv_0_lt_compat; lra).
  assert (Hq0 : 0 <= x / w) by (unfold Rdiv; nra).
  assert (Hq1 : x / w < 1).
  { apply (Rmult_lt_reg_r w); [lra |].
    replace (x / w * w) with x by (field; lra). lra. }
  destruct (Rle_dec 0 (x / w)) as [_ | H]; [| lra].
  rewrite (Int_part_unique (x / w) 0) by (simpl; lra). simpl. lra.
Qed.

(** A value already inside [0, w) is its own remainder. *)
Lemma float_rem_small (x w : R) : 0 <= x < w -> float_rem x w = x.
Proof.
  intros Hx. unfold float_rem. rewrite (c_fmod_small x w Hx).
  destruct (Req_dec_T x 0) as [E | E]; [lra |].
  destruct (Rlt_dec w 0) as [? | _]; [lra |].
  destruct (Rlt_dec x 0) as [? | _]; [lra | reflexivity].
Qed.

(** For a positive divisor that is a double, the remainder lies in the
    closed interval [0, w]: the right end is reached by rounding. *)
Lemma float_rem_range (x w : R) :
  0 < w -> is_double w -> 0 <= float_rem x w <= w.
Proof.
  intros Hw Hd. destruct (c_fmod_range x w Hw) as [[H1 H2] _].
  unfold float_rem. set (m := c_fmod x w) in *.
  destruct (Req_dec_T m 0) as [E | E]; [lra |].
  destruct (Rlt_dec w 0) as [? | _]; [lra |].
  destruct (Rlt_dec m 0) as [Hm | Hm]; [| lra].
  apply fl_below_double; [lra | lra | exact Hd].
Qed.


Lemma py_mod_Ok (x w : R) : w <> 0 -> py_mod x w = Ok (float_rem x w).
Proof.
  intros Hw. unfold py_mod. destruct (Req_dec_T w 0); [contradiction |].
  reflexivity.
Qed.

Lemma py_mod_zero (x : R) : py_mod x 0 = Raise ZeroDivisionError.
Proof.
  unfold py_mod. destruct (Req_dec_T 0 0); [reflexivity | contradiction].
Qed.

Lemma py_mod_small (x w : R) : 0 <= x < w -> py_mod x w = Ok x.
Proof.
  intros Hx. rewrite py_mod_Ok by lra. rewrite float_rem_small by exact Hx.
  reflexivity.
Qed.

(** ** [math.exp] *)

Lemma max_float_ge_1 : 1 <= max_float.
Proof.
  unfold max_float. rewrite powerRZ_2_IZR, <- mult_IZR.
  apply IZR_le. lia.
Qed.

(** A non-positive argument never overflows. *)
Lemma math_exp_Ok (x : R) : x <= 0 -> math_exp x = Ok (exp x).
Proof.
  intros Hx. unfold math_exp.
  destruct (Rlt_dec max_float (exp x)) as [H | _]; [| reflexivity].
  pose proof max_float_ge_1.
  assert (exp x <= 1).
  { rewrite <- exp_0. destruct Hx as [Hx | Hx];
      [left; apply exp_increasing; exact Hx | rewrite Hx; lra]. }
  lra.
Qed.

(** An argument of 1024 or more overflows: [exp 1 > 2] and the largest
    double is below [2 ^ 1024]. *)
Lemma math_exp_overflow (x : R) : 1024 <= x -> math_exp x = Raise OverflowError.
Proof.
  intros Hx. unfold math_exp.
  destruct (Rlt_dec max_float (exp x)) as [_ | H]; [reflexivity |].
  exfalso. apply H. clear H.
  assert (H2 : max_float < powerRZ 2 1024).
  { unfold max_float. replace 1024%Z with (53 + 971)%Z by reflexivity.
    rewrite powerRZ_2_split, (powerRZ_2_IZR 53).
    apply Rmult_lt_compat_r; [apply powerRZ_2_pos |].
    apply IZR_lt. lia. }
  assert (H3 : powerRZ 2 1024 <= exp 1024).
  { rewrite powerRZ_2_exp. assert (Hl : ln 2 < 1).
    { apply exp_lt_inv. rewrite exp_ln by lra.
      pose proof (exp_ineq1 1). lra. }
    left. apply exp_increasing. nra. }
  assert (H4 : exp 1024 <= exp x).
  { destruct Hx as [Hx | Hx];
      [left; apply exp_increasing; exact Hx | rewrite Hx; lra]. }
  lra.
Qed.

(** ** The result monad *)

Lemma bind_Ok {A B : Type} (m : result A) (k : A -> result B) (b : B) :
  m ≫= k = Ok b -> exists a, m = Ok a /\ k a = Ok b.
Proof. destruct m as [a | e |]; simpl; intros H; try discriminate; eauto. Qed.

Lemma for_each_length {A B : Type} (body : A -> result B) (xs : list A)
  (ys : list B) : for_each body xs = Ok ys -> length ys = length xs.
Proof.
  revert ys. induction xs as [| x xs IH]; simpl; intros ys H.
  - injection H as <-. reflexivity.
  - apply bind_Ok in H as (y & _ & H). apply bind_Ok in H as (ys' & Hys & H).
    injection H as <-. simpl. f_equal. apply IH. exact Hys.
Qed.

Lemma for_each_Forall {A B : Type} (body : A -> result B) (P : B -> Prop)
  (xs : list A) (ys : list B) :
  (forall x y, body x = Ok y -> P y) ->
  for_each body xs = Ok ys -> Forall P ys.
Proof.
  intros Hbody. revert ys. induction xs as [| x xs IH]; simpl; intros ys H.
  - injection H as <-. constructor.
  - apply bind_Ok in H as (y & Hy & H). apply bind_Ok in H as (ys' & Hys & H).
    injection H as <-. constructor; eauto.
Qed.

Lemma for_each_total {A B : Type} (body : A -> result B) (xs : list A) :
  (forall x, exists y, body x = Ok y) -> exists ys, for_each body xs = Ok ys.
Proof.
  intros Hbody. induction xs as [| x xs [ys IH]]; simpl.
  - eauto.
  - destruct (Hbody x) as [y ->]. simpl. rewrite IH. simpl. eauto.
Qed.

(** ** EmotionEnergyModel *)

Lemma energy_update_range (m : EmotionEnergyModel) (target : list R)
  (smoothed : VAD) :
  0 <= (EmotionEnergyModel_update m target smoothed).2 <= 10.
Proof.
  unfold EmotionEnergyModel_update. simpl. split.
  - apply clamp_lower.
  - apply clamp_upper. lra.
Qed.

Lemma energy_update_model (m : EmotionEnergyModel) (target : list R)
  (smoothed : VAD) :
  let r := EmotionEnergyModel_update m target smoothed in
  energy r.1 = r.2 /\ decay_per_frame r.1 = decay_per_frame m.
Proof. unfold EmotionEnergyModel_update. simpl. split; reflexivity. Qed.

(** On two triples the code's [sum(...) / 3.0] is the mean absolute
    divergence of the specification. *)
Lemma delta_is_mean_abs_divergence (t s : VAD) :
  py_sum (map (fun '(t, s) => Rabs (t - s)) (zip2 (vad_list t) (vad_list s)))
  / 3 = mean_abs_divergence t s.
Proof.
  destruct t as [[t1 t2] t3], s as [[s1 s2] s3].
  unfold py_sum, mean_abs_divergence. simpl. lra.
Qed.

Lemma energy_trace_range (inputs : list (VAD * VAD)) :
  forall m, Forall (fun e => 0 <= e <= 10) (energy_trace m inputs).
Proof.
  induction inputs as [| [t s] rest IH]; intros m; simpl.
  - constructor.
  - constructor; [apply (energy_update_range m (vad_list t) s) | apply IH].
Qed.

(** C5.  Whatever the sequence of (target, smoothed) pairs, the starting
    energy and the decay factor, every energy returned by
    [EmotionEnergyModel.update] lies in [0, 10]; and with the default decay
    0.995 one update turns the energy [e] into
    [clamp((e + mean absolute per-axis divergence) * 0.995, 0, 10)], which
    is both stored and returned. *)
Theorem energy_bounded_and_decayed :
  (forall (m : EmotionEnergyModel) (inputs : list (VAD * VAD)),
      Forall (fun e => 0 <= e <= 10) (energy_trace m inputs)) /\
  (forall (e : R) (target smoothed : VAD),
      let e' :=
        clamp ((e + mean_abs_divergence target smoothed) * (995 / 1000))
              0 10 in
      EmotionEnergyModel_update (mkEnergyModel (995 / 1000) e)
        (vad_list target) smoothed
      = (mkEnergyModel (995 / 1000) e', e')).
Proof.
  split.
  - intros m inputs. apply energy_trace_range.
  - intros e target smoothed. unfold EmotionEnergyModel_update. simpl.
    rewrite delta_is_mean_abs_divergence. reflexivity.
Qed.

(** ** VisualMapping *)

Lemma map_blob_count (vm : VisualMapping) (v a d e t : R) (g : Rng) :
  blob_count (VisualMapping_map vm (v, a, d) e t g).1
  = (3 + py_int ((a + 1) / 2 * 10))%Z.
Proof. reflexivity. Qed.

Lemma map_turbulence (vm : VisualMapping) (v a d e t : R) (g : Rng) :
  turbulence (VisualMapping_map vm (v, a, d) e t g).1
  = base_turbulence vm + (a + 1) / 2 * arousal_gain vm + e * energy_gain vm.
Proof. reflexivity. Qed.

Lemma map_blob_size_mean (vm : VisualMapping) (v a d e t : R) (g : Rng) :
  blob_size_mean (VisualMapping_map vm (v, a, d) e t g).1
  = lerp (14 / 100) (5 / 100) ((a + 1) / 2).
Proof. reflexivity. Qed.

(** C10.  For a VAD triple with every axis in [-1, 1] and an energy in
    [0, 10], the parameters [VisualMapping.map] produces with the default
    gains have a blob count between 3 and 13 and a turbulence in
    [0.1, 5.0], whatever the elapsed time and the hue-jitter draw. *)
Theorem map_default_ranges (v a d e t : R) (g : Rng) :
  -1 <= v <= 1 -> -1 <= a <= 1 -> -1 <= d <= 1 -> 0 <= e <= 10 ->
  let p := (VisualMapping_map VisualMapping_default (v, a, d) e t g).1 in
  (3 <= blob_count p <= 13)%Z /\ 1 / 10 <= turbulence p <= 5.
Proof.
  intros Hv Ha Hd He p. subst p. rewrite map_blob_count, map_turbulence.
  split.
  - assert (H : (0 <= py_int ((a + 1) / 2 * 10) <= 10)%Z).
    { apply py_int_range. simpl. lra. }
    lia.
  - simpl. lra.
Qed.

Lemma map_default_ranges_witness :
  let p := (VisualMapping_map VisualMapping_default (0, 1, 0) 10 0
              (mkRng (fun _ => 0) 0 (fun _ => 0) 0)).1 in
  (3 <= blob_count p <= 13)%Z /\ 1 / 10 <= turbulence p <= 5.
Proof.
  apply (map_default_ranges 0 1 0 10 0); lra.
Defined.

(** ** TemporalFilter *)

Lemma neg_quotient_nonpos (dt tau : R) : 0 <= dt -> 0 < tau -> - dt / tau <= 0.
Proof.
  intros Hdt Htau. unfold Rdiv.
  assert (0 < / tau) by (apply Rinv_0_lt_compat; exact Htau). nra.
Qed.

(** One axis returns whenever the exponent is not positive, so that
    [math.exp] cannot overflow. *)
Lemma axis_update_Ok_gen (ms dt cur t tau : R) :
  tau <> 0 -> - dt / tau <= 0 ->
  axis_update ms dt cur t tau
  = Ok (clamp (lerp cur (cur + clamp (t - cur) (- ms) ms)
                    (1 - exp (- dt / tau))) (-1) 1).
Proof.
  intros Htau Hq. unfold axis_update, py_div.
  destruct (Req_dec_T tau 0) as [E | _]; [contradiction |].
  cbn [mbind result_bind]. rewrite math_exp_Ok by exact Hq. reflexivity.
Qed.

Lemma axis_update_Ok (ms dt cur t tau : R) :
  0 <= dt -> 0 < tau ->
  axis_update ms dt cur t tau
  = Ok (clamp (lerp cur (cur + clamp (t - cur) (- ms) ms)
                    (1 - exp (- dt / tau))) (-1) 1).
Proof.
  intros Hdt Htau. apply axis_update_Ok_gen; [lra |].
  apply neg_quotient_nonpos; assumption.
Qed.

(** A zero time constant raises before the exponential is reached, and an
    exponent of 1024 or more overflows it. *)
Lemma axis_update_zero_tau (ms dt cur t : R) :
  axis_update ms dt cur t 0 = Raise ZeroDivisionError.
Proof.
  unfold axis_update, py_div.
  destruct (Req_dec_T 0 0) as [_ | E]; [reflexivity | contradiction].
Qed.

Lemma axis_update_overflow (ms dt cur t tau : R) :
  tau <> 0 -> 1024 <= - dt / tau ->
  axis_update ms dt cur t tau = Raise OverflowError.
Proof.
  intros Htau Hq. unfold axis_update, py_div.
  destruct (Req_dec_T tau 0) as [E | _]; [contradiction |].
  cbn [mbind result_bind]. rewrite math_exp_overflow by exact Hq. reflexivity.
Qed.

(** The smoothing factor of a positive time step and time constant lies
    strictly between 0 and 1. *)
Lemma alpha_range (dt tau : R) :
  0 < dt -> 0 < tau -> 0 < 1 - exp (- dt / tau) < 1.
Proof.
  intros Hdt Htau.
  assert (Hneg : - dt / tau < 0).
  { unfold Rdiv. assert (0 < / tau) by (apply Rinv_0_lt_compat; lra). nra. }
  pose proof (exp_pos (- dt / tau)) as Hpos.
  pose proof (exp_increasing _ _ Hneg) as Hlt. rewrite exp_0 in Hlt. lra.
Qed.

(** One axis, one tick: from a value in [-1, 1] that does not exceed the
    target, the filter moves up, stays in [-1, 1] and does not pass the
    target. *)
Lemma axis_update_towards (ms dt cur t tau x : R) :
  0 < dt -> 0 < tau -> 0 <= ms -> -1 <= cur <= 1 -> cur <= t ->
  axis_update ms dt cur t tau = Ok x ->
  cur <= x <= t /\ -1 <= x <= 1.
Proof.
  intros Hdt Htau Hms Hcur Hle Hx.
  rewrite axis_update_Ok in Hx by lra. injection Hx as <-.
  destruct (alpha_range dt tau Hdt Htau) as [Ha0 Ha1].
  set (alpha := 1 - exp (- dt / tau)) in *.
  assert (Hstep : 0 <= clamp (t - cur) (- ms) ms <= t - cur).
  { destruct (Rle_dec (t - cur) ms) as [Hs | Hs].
    - rewrite clamp_inside by lra. lra.
    - rewrite clamp_above by lra. lra. }
  set (step := clamp (t - cur) (- ms) ms) in *.
  assert (Hn : cur <= lerp cur (cur + step) alpha <= t).
  { unfold lerp. nra. }
  set (nxt := lerp cur (cur + step) alpha) in *.
  destruct (Rle_dec nxt 1) as [H1 | H1].
  - rewrite clamp_inside by lra. lra.
  - rewrite clamp_above by lra. lra.
Qed.

(** [update] on a target of at least three components: zip stops after
    the third, and each axis is updated with its own time constant. *)
Lemma TemporalFilter_update_axes (f : TemporalFilter) (t0 t1 t2 : R)
  (extra : list R) (dt : R) :
  0 <= dt -> 0 < tau_v f -> 0 < tau_a f -> 0 < tau_d f ->
  exists s : VAD,
    TemporalFilter_update f (t0 :: t1 :: t2 :: extra) dt
    = Ok (mkTemporalFilter (tau_v f) (tau_a f) (tau_d f) (max_step f) s, s)
    /\ forall k : Axis,
         axis_update (max_step f) dt (component k (state f))
                     (component k (t0, t1, t2)) (axis_tau k f)
         = Ok (component k s).
Proof.
  intros Hdt Hv Ha Hd. unfold TemporalFilter_update.
  destruct (state f) as [[c0 c1] c2] eqn:Hst. simpl.
  rewrite !axis_update_Ok by assumption. simpl.
  eexists; split; [reflexivity |].
  intros [| |]; simpl; rewrite axis_update_Ok by assumption; reflexivity.
Qed.

Lemma TemporalFilter_update_state (f f' : TemporalFilter) (target : list R)
  (dt : R) (s : VAD) :
  TemporalFilter_update f target dt = Ok (f', s) ->
  state f' = s /\ tau_v f' = tau_v f /\ tau_a f' = tau_a f
  /\ tau_d f' = tau_d f /\ max_step f' = max_step f.
Proof.
  unfold TemporalFilter_update. destruct (state f) as [[c0 c1] c2].
  intros H.
  apply bind_Ok in H as (out & _ & H). apply bind_Ok in H as (o0 & _ & H).
  apply bind_Ok in H as (o1 & _ & H). apply bind_Ok in H as (o2 & _ & H).
  injection H as <- <-. simpl. auto.
Qed.

Lemma filter_trace_monotone (k : Axis) (tv : VAD) (dts : list R) :
  Forall (fun dt => 0 < dt) dts ->
  forall f : TemporalFilter,
    0 < tau_v f -> 0 < tau_a f -> 0 < tau_d f -> 0 <= max_step f ->
    -1 <= component k (state f) <= 1 ->
    component k (state f) <= component k tv ->
    exists ss : list VAD,
      filter_trace f (vad_list tv) dts = Ok ss
      /\ length ss = length dts
      /\ forall (n : nat) (prev next : VAD),
           (state f :: ss) !! n = Some prev -> ss !! n = Some next ->
           component k prev <= component k next <= component k tv.
Proof.
  induction 1 as [| dt rest Hdt Hrest IH]; intros f Hv Ha Hd Hms Hin Hle.
  - exists []. simpl. split; [reflexivity |]. split; [reflexivity |].
    intros n prev next _ Hn. rewrite lookup_nil in Hn. discriminate.
  - destruct tv as [[t0 t1] t2] eqn:Htv.
    destruct (TemporalFilter_update_axes f t0 t1 t2 [] dt) as (s & Hu & Hax);
      try lra.
    assert (Hk : component k (state f) <= component k s <= component k tv
                 /\ -1 <= component k s <= 1).
    { subst tv.
      apply (axis_update_towards (max_step f) dt _ _ (axis_tau k f));
        try assumption; [destruct k; assumption | apply Hax]. }
    destruct Hk as [Hmove Hrange].
    set (f' := mkTemporalFilter (tau_v f) (tau_a f) (tau_d f) (max_step f) s)
      in *.
    destruct (IH f') as (ss & Htr & Hlen & Hchain); try assumption.
    { subst tv. apply Hmove. }
    exists (s :: ss). simpl vad_list in *. simpl filter_trace.
    rewrite Hu. simpl. rewrite Htr. simpl.
    split; [reflexivity |]. split; [simpl; congruence |].
    intros [| n] prev next Hprev Hnext; simpl in Hprev, Hnext.
    + injection Hprev as <-. injection Hnext as <-. subst tv. exact Hmove.
    + apply (Hchain n); assumption.
Qed.

(** C9.  Hold a target VAD fixed over repeated [TemporalFilter.update]
    calls, each with a time step [dt > 0], on a filter with positive time
    constants and a non-negative step limit.  If the smoothed value of an
    axis (a VAD component, so within [-1, 1]) starts strictly below the
    target of that axis, every call succeeds and every tick's smoothed
    value on that axis is at least the previous tick's and at most the
    target. *)
Theorem step_response_monotone (k : Axis) (f : TemporalFilter) (tv : VAD)
  (dts : list R) :
  0 < tau_v f -> 0 < tau_a f -> 0 < tau_d f -> 0 <= max_step f ->
  Forall (fun dt => 0 < dt) dts ->
  -1 <= component k (state f) <= 1 ->
  component k (state f) < component k tv ->
  exists ss : list VAD,
    filter_trace f (vad_list tv) dts = Ok ss
    /\ length ss = length dts
    /\ forall (n : nat) (prev next : VAD),
         (state f :: ss) !! n = Some prev -> ss !! n = Some next ->
         component k prev <= component k next <= component k tv.
Proof.
  intros Hv Ha Hd Hms Hdts Hin Hlt.
  apply filter_trace_monotone; try assumption. lra.
Qed.

Lemma step_response_monotone_witness :
  exists ss : list VAD,
    filter_trace TemporalFilter_default (vad_list (1, 1, 1))
                 [16 / 1000; 16 / 1000; 16 / 1000] = Ok ss
    /\ length ss = 3%nat
    /\ forall (n : nat) (prev next : VAD),
         (state TemporalFilter_default :: ss) !! n = Some prev ->
         ss !! n = Some next ->
         component Arousal prev <= component Arousal next
         <= component Arousal (1, 1, 1).
Proof.
  apply (step_response_monotone Arousal TemporalFilter_default (1, 1, 1)
           [16 / 1000; 16 / 1000; 16 / 1000]); simpl; try lra.
  repeat constructor; lra.
Defined.

(** ** Merge and split events *)

Lemma absorb_radius (a b : Blob) :
  radius (absorb a b) * radius (absorb a b)
  = radius a * radius a + radius b * radius b.
Proof. unfold absorb. simpl. apply sqrt_sqrt. nra. Qed.

Lemma merge_iter_fires (nd : R) (i j : nat) (bs : list Blob) (g : Rng)
  (a b : Blob) :
  bs !! i = Some a -> bs !! j = Some b ->
  dist2 a b < merge_threshold nd a b * merge_threshold nd a b ->
  (random g).1 < nd ->
  merge_iter nd i j bs g
  = Ok (j, delete j (<[i := absorb a b]> bs), (random g).2).
Proof.
  intros Ha Hb Hclose Hdraw. unfold merge_iter. rewrite Ha, Hb.
  destruct (Rlt_dec _ _) as [_ | Hn]; [| contradiction].
  simpl in *. destruct (Rlt_dec _ _) as [_ | Hn]; [reflexivity | contradiction].
Qed.

(** When no merge fires the turn only advances [j]. *)
Lemma merge_iter_skips (nd : R) (i j : nat) (bs : list Blob) (g : Rng)
  (a b : Blob) :
  bs !! i = Some a -> bs !! j = Some b ->
  ~ (dist2 a b < merge_threshold nd a b * merge_threshold nd a b
     /\ (random g).1 < nd) ->
  exists g', merge_iter nd i j bs g = Ok (S j, bs, g').
Proof.
  intros Ha Hb Hno. unfold merge_iter. rewrite Ha, Hb.
  destruct (Rlt_dec _ _) as [Hc | _]; [| eauto].
  simpl in *. destruct (Rlt_dec _ _) as [Hd | _]; [| eauto].
  exfalso. apply Hno. split; assumption.
Qed.

(** C7.  When a merge fires in [_merge_and_split] (the pair at [i < j] is
    closer than the threshold and the draw is below [nd]), the survivor at
    index [i] has a radius whose square is the sum of the squares of the two
    radii and a velocity that is the componentwise average of the two
    velocities, and the absorbed blob is gone: the list is one shorter, the
    entries before [j] other than [i] are untouched and those after [j]
    have moved down by one, with the scan staying at [j]. *)
Theorem merge_event (nd : R) (i j : nat) (bs : list Blob) (g : Rng)
  (a b : Blob) :
  (i < j)%nat -> bs !! i = Some a -> bs !! j = Some b ->
  dist2 a b < merge_threshold nd a b * merge_threshold nd a b ->
  (random g).1 < nd ->
  exists (a' : Blob) (bs' : list Blob),
    merge_iter nd i j bs g = Ok (j, bs', (random g).2)
    /\ bs' !! i = Some a'
    /\ radius a' * radius a' = radius a * radius a + radius b * radius b
    /\ velocity a' = (((velocity a).1 + (velocity b).1) / 2,
                      ((velocity a).2 + (velocity b).2) / 2)
    /\ length bs' = (length bs - 1)%nat
    /\ (forall k, (k < j)%nat -> k <> i -> bs' !! k = bs !! k)
    /\ (forall k, (j <= k)%nat -> bs' !! k = bs !! S k).
Proof.
  intros Hij Ha Hb Hclose Hdraw.
  pose proof (lookup_lt_Some _ _ _ Ha) as Hi.
  pose proof (lookup_lt_Some _ _ _ Hb) as Hj.
  exists (absorb a b), (delete j (<[i := absorb a b]> bs)).
  split; [apply merge_iter_fires; assumption |].
  split.
  { rewrite list_lookup_delete_lt by lia.
    apply list_lookup_insert_eq. exact Hi. }
  split; [apply absorb_radius |].
  split.
  { unfold absorb. simpl. f_equal; lra. }
  split.
  { rewrite length_delete; [rewrite length_insert; reflexivity |].
    apply lookup_lt_is_Some. rewrite length_insert. exact Hj. }
  split.
  - intros k Hk Hki. rewrite list_lookup_delete_lt by lia.
    apply list_lookup_insert_ne. congruence.
  - intros k Hk. rewrite list_lookup_delete_ge by lia.
    apply list_lookup_insert_ne. lia.
Qed.

Lemma merge_event_witness :
  let a := blob_at (1 / 2) (1 / 2) 1 0 (1 / 10) in
  let b := blob_at (1 / 2) (1 / 2) 0 1 (1 / 10) in
  exists (a' : Blob) (bs' : list Blob),
    merge_iter 1 0 1 [a; b] (rng_const 0) = Ok (1%nat, bs', (random (rng_const 0)).2)
    /\ bs' !! 0%nat = Some a'
    /\ radius a' * radius a' = radius a * radius a + radius b * radius b
    /\ velocity a' = (((velocity a).1 + (velocity b).1) / 2,
                      ((velocity a).2 + (velocity b).2) / 2)
    /\ length bs' = (length [a; b] - 1)%nat
    /\ (forall k, (k < 1)%nat -> k <> 0%nat -> bs' !! k = [a; b] !! k)
    /\ (forall k, (1 <= k)%nat -> bs' !! k = [a; b] !! S k).
Proof.
  intros a b.
  apply (merge_event 1 0 1 [a; b] (rng_const 0) a b);
    [lia | reflexivity | reflexivity | | ].
  - unfold dist2, merge_threshold, a, b, blob_at. simpl. lra.
  - simpl. lra.
Defined.

Lemma sqrt2_neq_0 : sqrt 2 <> 0.
Proof. pose proof (sqrt_lt_R0 2). lra. Qed.

Lemma split_iter_fires (sim : FluidSimulation) (na : R)
  (params : VisualParams) (idx : nat) (bs : list Blob) (g : Rng) (b : Blob) :
  width sim <> 0 -> bs !! idx = Some b ->
  radius b > blob_size_mean params * (18 / 10) ->
  (random g).1 < na ->
  exists child : Blob,
    spawn sim (shrink b) = Ok child
    /\ split_iter sim na params idx bs g
       = Ok (<[idx := shrink b]> bs ++ [child], (random g).2).
Proof.
  intros Hw Hb Hbig Hdraw. unfold split_iter. rewrite Hb.
  destruct (Rgt_dec _ _) as [_ | Hn]; [| contradiction].
  simpl in *. destruct (Rlt_dec _ _) as [_ | Hn]; [| contradiction].
  unfold spawn, py_mod. destruct (Req_dec_T (width sim) 0) as [E | _];
    [contradiction |].
  simpl. eexists. split; reflexivity.
Qed.

(** C8.  When a split fires in [_merge_and_split] (the blob at [idx] is
    larger than 1.8 times the mean size and the draw is below [na], in a
    domain of non-zero width), the parent stays at [idx] and the child is
    appended; both have the pre-split radius divided by the square root of
    two, and the child has the parent's colour and the parent's velocity
    with the horizontal component negated.  No other blob changes. *)
Theorem split_event (sim : FluidSimulation) (na : R) (params : VisualParams)
  (idx : nat) (bs : list Blob) (g : Rng) (b : Blob) :
  width sim <> 0 -> bs !! idx = Some b ->
  radius b > blob_size_mean params * (18 / 10) ->
  (random g).1 < na ->
  exists (parent child : Blob) (bs' : list Blob),
    split_iter sim na params idx bs g = Ok (bs', (random g).2)
    /\ length bs' = S (length bs)
    /\ bs' !! idx = Some parent
    /\ bs' !! length bs = Some child
    /\ radius parent = radius b / sqrt 2
    /\ radius child = radius b / sqrt 2
    /\ color child = color b
    /\ velocity child = (- (velocity b).1, (velocity b).2)
    /\ (forall k, (k < length bs)%nat -> k <> idx -> bs' !! k = bs !! k).
Proof.
  intros Hw Hb Hbig Hdraw.
  pose proof (lookup_lt_Some _ _ _ Hb) as Hidx.
  destruct (split_iter_fires sim na params idx bs g b Hw Hb Hbig Hdraw)
    as (child & Hchild & Hiter).
  exists (shrink b), child, (<[idx := shrink b]> bs ++ [child]).
  split; [exact Hiter |].
  split; [rewrite length_app, length_insert; simpl; lia |].
  split.
  { rewrite lookup_app_l by (rewrite length_insert; exact Hidx).
    apply list_lookup_insert_eq. exact Hidx. }
  split.
  { rewrite lookup_app_r by (rewrite length_insert; lia).
    rewrite length_insert, Nat.sub_diag. reflexivity. }
  unfold spawn in Hchild. apply bind_Ok in Hchild as (x & _ & Hchild).
  injection Hchild as <-. simpl.
  repeat (split; [reflexivity |]).
  intros k Hk Hki. rewrite lookup_app_l by (rewrite length_insert; exact Hk).
  apply list_lookup_insert_ne. congruence.
Qed.

Lemma split_event_witness :
  let b := blob_at (1 / 2) (1 / 2) 1 2 1 in
  let params := mkVisualParams (0, 0, 0) (0, 0, 0) (0, 0, 0) 1 (1 / 10)
                  0 0 0 0 0 0 in
  exists (parent child : Blob) (bs' : list Blob),
    split_iter FluidSimulation_default 1 params 0 [b] (rng_const 0)
    = Ok (bs', (random (rng_const 0)).2)
    /\ length bs' = S (length [b])
    /\ bs' !! 0%nat = Some parent
    /\ bs' !! length [b] = Some child
    /\ radius parent = radius b / sqrt 2
    /\ radius child = radius b / sqrt 2
    /\ color child = color b
    /\ velocity child = (- (velocity b).1, (velocity b).2)
    /\ (forall k, (k < length [b])%nat -> k <> 0%nat -> bs' !! k = [b] !! k).
Proof.
  intros b params.
  apply (split_event FluidSimulation_default 1 params 0 [b] (rng_const 0) b);
    simpl; try lra; reflexivity.
Defined.

(** ** Fuel

    More fuel never changes a result that was reached. *)

Lemma merge_inner_fuel_mono (nd : R) (i : nat) :
  forall (n m j : nat) (bs : list Blob) (g : Rng) r,
    merge_inner n nd i j bs g = Ok r -> (n <= m)%nat ->
    merge_inner m nd i j bs g = Ok r.
Proof.
  induction n as [| n IH]; intros m j bs g r H Hle.
  - simpl in H. destruct (decide (j < length bs)%nat); [discriminate |].
    destruct m; simpl; destruct (decide (j < length bs)%nat);
      try contradiction; exact H.
  - destruct m as [| m]; [lia |]. simpl in *.
    destruct (decide (j < length bs)%nat); [| exact H].
    apply bind_Ok in H as ([[j' bs'] g'] & Hit & H). rewrite Hit. simpl.
    apply IH; [exact H | lia].
Qed.

Lemma merge_outer_fuel_mono (nd : R) :
  forall (n m i : nat) (bs : list Blob) (g : Rng) r,
    merge_outer n nd i bs g = Ok r -> (n <= m)%nat ->
    merge_outer m nd i bs g = Ok r.
Proof.
  induction n as [| n IH]; intros m i bs g r H Hle.
  - simpl in H. destruct (decide (i < length bs)%nat); [discriminate |].
    destruct m; simpl; destruct (decide (i < length bs)%nat);
      try contradiction; exact H.
  - destruct m as [| m]; [lia |].
    cbn [merge_outer] in *.
    destruct (decide (i < length bs)%nat); [| exact H].
    apply bind_Ok in H as ([bs' g'] & Hin & H).
    rewrite (merge_inner_fuel_mono nd i (S n) (S m) _ _ _ _ Hin) by lia.
    simpl. apply IH; [exact H | lia].
Qed.

Lemma split_loop_fuel_mono (sim : FluidSimulation) (na : R)
  (params : VisualParams) :
  forall (n m idx : nat) (bs : list Blob) (g : Rng) r,
    split_loop n sim na params idx bs g = Ok r -> (n <= m)%nat ->
    split_loop m sim na params idx bs g = Ok r.
Proof.
  induction n as [| n IH]; intros m idx bs g r H Hle.
  - simpl in H. destruct (decide (idx < length bs)%nat); [discriminate |].
    destruct m; simpl; destruct (decide (idx < length bs)%nat);
      try contradiction; exact H.
  - destruct m as [| m]; [lia |]. simpl in *.
    destruct (decide (idx < length bs)%nat); [| exact H].
    apply bind_Ok in H as ([bs' g'] & Hit & H). rewrite Hit. simpl.
    apply IH; [exact H | lia].
Qed.

Lemma merge_and_split_fuel_mono (sim : FluidSimulation) (nd na : R)
  (params : VisualParams) (g : Rng) (n m : nat) r :
  merge_and_split n sim nd na params g = Ok r -> (n <= m)%nat ->
  merge_and_split m sim nd na params g = Ok r.
Proof.
  unfold merge_and_split. intros H Hle.
  apply bind_Ok in H as ([bs1 g1] & Hm & H).
  apply bind_Ok in H as ([bs2 g2] & Hs & H).
  rewrite (merge_outer_fuel_mono _ _ _ _ _ _ _ Hm Hle). simpl.
  rewrite (split_loop_fuel_mono _ _ _ _ _ _ _ _ _ Hs Hle). simpl. exact H.
Qed.

Lemma step_fuel_mono (sim : FluidSimulation) (params : VisualParams)
  (nd na dt t : R) (w : World) (n m : nat) r :
  FluidSimulation_step n sim params nd na dt t w = Ok r -> (n <= m)%nat ->
  FluidSimulation_step m sim params nd na dt t w = Ok r.
Proof.
  unfold FluidSimulation_step. destruct (reconcile sim params w) as [sim1 w1].
  intros H Hle.
  apply bind_Ok in H as (bs & Hint & H). rewrite Hint. simpl.
  apply bind_Ok in H as ([sim2 g] & Hms & H).
  rewrite (merge_and_split_fuel_mono _ _ _ _ _ _ _ _ Hms Hle). simpl. exact H.
Qed.

Lemma tick_fuel_mono (eng : Engine) (sample : option (list pyval)) (dt : R)
  (w : World) (n m : nat) r :
  tick n eng sample dt w = Ok r -> (n <= m)%nat ->
  tick m eng sample dt w = Ok r.
Proof.
  unfold tick.
  destruct (store_sample eng sample) as [eng1 | |]; cbn [mbind result_bind];
    try discriminate.
  destruct (TemporalFilter_update _ _ _) as [[f' smoothed] | |];
    cbn [mbind result_bind]; try discriminate.
  destruct (EmotionEnergyModel_update _ _ _) as [m' e].
  destruct (VisualMapping_map _ _ _ _ _) as [params g].
  intros H Hle.
  apply bind_Ok in H as ([sim' w'] & Hstep & H).
  rewrite (step_fuel_mono _ _ _ _ _ _ _ _ _ _ Hstep Hle). simpl. exact H.
Qed.

Lemma run_fuel_mono (samples : list (option (list pyval))) (dt : R) :
  forall (eng : Engine) (w : World) (n m : nat) r,
    run n eng samples dt w = Ok r -> (n <= m)%nat ->
    run m eng samples dt w = Ok r.
Proof.
  induction samples as [| s rest IH]; intros eng w n m r H Hle; simpl in *.
  - exact H.
  - apply bind_Ok in H as ([[p eng'] w'] & Ht & H).
    rewrite (tick_fuel_mono _ _ _ _ _ _ _ Ht Hle). simpl.
    apply bind_Ok in H as ([frames w''] & Hr & H).
    rewrite (IH _ _ _ _ _ Hr Hle). simpl. exact H.
Qed.

(** ** The merge scan: what it preserves, and that it terminates *)

Section MergeScan.
Variable P : Blob -> Prop.
Hypothesis P_absorb : forall a b, P a -> P (absorb a b).

Lemma merge_iter_preserves (nd : R) (i j : nat) (bs : list Blob) (g : Rng)
  (j' : nat) (bs' : list Blob) (g' : Rng) :
  merge_iter nd i j bs g = Ok (j', bs', g') ->
  Forall P bs -> Forall P bs'.
Proof.
  unfold merge_iter. intros H Hall.
  destruct (bs !! i) as [a |] eqn:Ha; [| discriminate].
  destruct (bs !! j) as [b |] eqn:Hb; [| discriminate].
  destruct (Rlt_dec _ _); [| injection H as <- <- <-; exact Hall].
  simpl in H.
  destruct (Rlt_dec _ _); injection H as <- <- <-; [| exact Hall].
  apply Forall_delete. apply Forall_insert; [exact Hall |].
  apply P_absorb. exact (Forall_lookup_1 _ _ _ _ Hall Ha).
Qed.

Lemma merge_inner_preserves (nd : R) (i : nat) :
  forall (fuel j : nat) (bs : list Blob) (g : Rng) bs' g',
    merge_inner fuel nd i j bs g = Ok (bs', g') ->
    Forall P bs -> Forall P bs'.
Proof.
  induction fuel as [| fuel IH]; intros j bs g bs' g' H Hall; simpl in H;
    destruct (decide (j < length bs)%nat); try discriminate;
    try (injection H as <- <-; exact Hall).
  apply bind_Ok in H as ([[j1 bs1] g1] & Hit & H).
  eapply IH; [exact H |]. eapply merge_iter_preserves; eauto.
Qed.

Lemma merge_outer_preserves (nd : R) :
  forall (fuel i : nat) (bs : list Blob) (g : Rng) bs' g',
    merge_outer fuel nd i bs g = Ok (bs', g') ->
    Forall P bs -> Forall P bs'.
Proof.
  induction fuel as [| fuel IH]; intros i bs g bs' g' H Hall;
    cbn [merge_outer] in H;
    destruct (decide (i < length bs)%nat); try discriminate;
    try (injection H as <- <-; exact Hall).
  apply bind_Ok in H as ([bs1 g1] & Hin & H).
  eapply IH; [exact H |]. eapply merge_inner_preserves; eauto.
Qed.
End MergeScan.

(** One turn of the inner loop at [i < j < len] succeeds, keeps [i] below
    [j] and brings [j] and the length strictly closer. *)
Lemma merge_iter_progress (nd : R) (i j : nat) (bs : list Blob) (g : Rng) :
  (i < j)%nat -> (j < length bs)%nat ->
  exists j' bs' g',
    merge_iter nd i j bs g = Ok (j', bs', g')
    /\ (i < j')%nat
    /\ (length bs' + j < length bs + j')%nat
    /\ (length bs' <= length bs)%nat.
Proof.
  intros Hij Hj. unfold merge_iter.
  destruct (lookup_lt_is_Some_2 bs i) as [a Ha]; [lia |].
  destruct (lookup_lt_is_Some_2 bs j Hj) as [b Hb].
  rewrite Ha, Hb.
  destruct (Rlt_dec _ _).
  - simpl. destruct (Rlt_dec _ _).
    + do 3 eexists. split; [reflexivity |].
      rewrite length_delete
        by (apply lookup_lt_is_Some; rewrite length_insert; exact Hj).
      rewrite length_insert. lia.
    + do 3 eexists. split; [reflexivity |]. lia.
  - do 3 eexists. split; [reflexivity |]. lia.
Qed.

Lemma merge_inner_total (nd : R) (i : nat) :
  forall (fuel j : nat) (bs : list Blob) (g : Rng),
    (i < j)%nat -> (length bs - j <= fuel)%nat ->
    exists bs' g',
      merge_inner fuel nd i j bs g = Ok (bs', g')
      /\ (length bs' <= length bs)%nat.
Proof.
  induction fuel as [| fuel IH]; intros j bs g Hij Hfuel; simpl;
    destruct (decide (j < length bs)%nat) as [Hj | Hj];
    try (do 2 eexists; split; [reflexivity | lia]).
  - lia.
  - destruct (merge_iter_progress nd i j bs g Hij Hj)
      as (j' & bs1 & g1 & -> & Hij' & Hmeasure & Hlen).
    simpl. destruct (IH j' bs1 g1) as (bs' & g' & -> & Hlen'); [lia | lia |].
    do 2 eexists. split; [reflexivity | lia].
Qed.

Lemma merge_outer_total (nd : R) :
  forall (fuel i : nat) (bs : list Blob) (g : Rng),
    (length bs <= fuel + i)%nat ->
    exists bs' g',
      merge_outer fuel nd i bs g = Ok (bs', g')
      /\ (length bs' <= length bs)%nat.
Proof.
  induction fuel as [| fuel IH]; intros i bs g Hfuel; cbn [merge_outer];
    destruct (decide (i < length bs)%nat) as [Hi | Hi];
    try (do 2 eexists; split; [reflexivity | lia]).
  - lia.
  - destruct (merge_inner_total nd i (S fuel) (S i) bs g)
      as (bs1 & g1 & -> & Hlen1); [lia | lia |].
    simpl. destruct (IH (S i) bs1 g1) as (bs' & g' & -> & Hlen'); [lia |].
    do 2 eexists. split; [reflexivity | lia].
Qed.

(** With [nd <= 0] no draw in [0, 1) is below [nd]: nothing merges. *)
Lemma merge_iter_inert (nd : R) (i j : nat) (bs : list Blob) (g : Rng)
  (j' : nat) (bs' : list Blob) (g' : Rng) :
  nd <= 0 -> rng_ok g ->
  merge_iter nd i j bs g = Ok (j', bs', g') ->
  bs' = bs /\ rng_ok g'.
Proof.
  intros Hnd Hg. unfold merge_iter.
  destruct (bs !! i); [| discriminate]. destruct (bs !! j); [| discriminate].
  destruct (Rlt_dec _ _); [| intros H; injection H as <- <- <-; auto].
  simpl. pose proof (Hg (ucursor g)) as Hu.
  destruct (Rlt_dec _ _); [lra |].
  intros H; injection H as <- <- <-. split; [reflexivity | exact Hg].
Qed.

Lemma merge_inner_inert (nd : R) (i : nat) :
  nd <= 0 ->
  forall (fuel j : nat) (bs : list Blob) (g : Rng) bs' g',
    rng_ok g -> merge_inner fuel nd i j bs g = Ok (bs', g') ->
    bs' = bs /\ rng_ok g'.
Proof.
  intros Hnd.
  induction fuel as [| fuel IH]; intros j bs g bs' g' Hg H; simpl in H;
    destruct (decide (j < length bs)%nat); try discriminate;
    try (injection H as <- <-; auto).
  apply bind_Ok in H as ([[j1 bs1] g1] & Hit & H).
  destruct (merge_iter_inert _ _ _ _ _ _ _ _ Hnd Hg Hit) as [-> Hg1].
  eapply IH; eauto.
Qed.

Lemma merge_outer_inert (nd : R) :
  nd <= 0 ->
  forall (fuel i : nat) (bs : list Blob) (g : Rng) bs' g',
    rng_ok g -> merge_outer fuel nd i bs g = Ok (bs', g') ->
    bs' = bs /\ rng_ok g'.
Proof.
  intros Hnd.
  induction fuel as [| fuel IH]; intros i bs g bs' g' Hg H;
    cbn [merge_outer] in H;
    destruct (decide (i < length bs)%nat); try discriminate;
    try (injection H as <- <-; auto).
  apply bind_Ok in H as ([bs1 g1] & Hin & H).
  destruct (merge_inner_inert _ _ Hnd _ _ _ _ _ _ Hg Hin) as [-> Hg1].
  eapply IH; eauto.
Qed.

(** ** The split scan: what it preserves, and that it terminates *)

Section SplitScan.
Variable sim : FluidSimulation.
Variable P : Blob -> Prop.
Hypothesis P_shrink : forall b, P b -> P (shrink b).
Hypothesis P_spawn : forall b c, spawn sim b = Ok c -> P c.


End SplitScan.

(** With [na <= 0] no draw in [0, 1) is below [na]: nothing splits. *)
Lemma split_iter_inert (sim : FluidSimulation) (na : R)
  (params : VisualParams) (idx : nat) (bs : list Blob) (g : Rng) :
  na <= 0 -> rng_ok g -> (idx < length bs)%nat ->
  exists g', split_iter sim na params idx bs g = Ok (bs, g') /\ rng_ok g'.
Proof.
  intros Hna Hg Hidx. unfold split_iter.
  destruct (lookup_lt_is_Some_2 bs idx Hidx) as [b ->].
  destruct (Rgt_dec _ _); [| eauto].
  simpl. pose proof (Hg (ucursor g)) as Hu.
  destruct (Rlt_dec _ _); [lra |].
  eexists. split; [reflexivity | exact Hg].
Qed.

Lemma split_loop_inert (sim : FluidSimulation) (na : R)
  (params : VisualParams) :
  na <= 0 ->
  forall (fuel idx : nat) (bs : list Blob) (g : Rng),
    rng_ok g -> (length bs <= fuel + idx)%nat ->
    exists g', split_loop fuel sim na params idx bs g = Ok (bs, g')
               /\ rng_ok g'.
Proof.
  intros Hna.
  induction fuel as [| fuel IH]; intros idx bs g Hg Hfuel; simpl;
    destruct (decide (idx < length bs)%nat) as [Hidx | Hidx]; eauto.
  - lia.
  - destruct (split_iter_inert sim na params idx bs g Hna Hg Hidx)
      as (g1 & -> & Hg1).
    simpl. apply IH; [exact Hg1 | lia].
Qed.

(** *** The measure *)

Lemma sqrt2_gt_1 : 1 < sqrt 2.
Proof.
  rewrite <- sqrt_1 at 1. apply sqrt_lt_1; lra.
Qed.

Lemma pow_sqrt2_pos (n : nat) : 0 < sqrt 2 ^ n.
Proof. apply pow_lt. pose proof sqrt2_gt_1. lra. Qed.

(** Every radius is covered by some number of halvings of the area. *)
Lemma halvings_exist (T r : R) : 0 < T -> exists n : nat, r <= T * sqrt 2 ^ n.
Proof.
  intros HT.
  assert (Habs : Rabs (sqrt 2) > 1).
  { rewrite Rabs_pos_eq; pose proof sqrt2_gt_1; lra. }
  destruct (Pow_x_infinity (sqrt 2) Habs (r / T)) as [N HN].
  exists N. specialize (HN N (Nat.le_refl N)).
  rewrite Rabs_pos_eq in HN by (pose proof (pow_sqrt2_pos N); lra).
  apply Rge_le in HN.
  apply (Rmult_le_compat_l T) in HN; [| lra].
  replace (T * (r / T)) with r in HN by (field; lra). exact HN.
Qed.

Lemma budget_exists (T : R) (l : list Blob) :
  0 < T -> exists N : nat, budget T l N.
Proof.
  intros HT. induction l as [| b l [N IH]].
  - exists 0%nat. constructor.
  - destruct (halvings_exist T (radius b) HT) as [n Hn].
    exists (S n + N)%nat. constructor; assumption.
Qed.

Lemma budget_app (T : R) (l1 l2 : list Blob) (N1 N2 : nat) :
  budget T l1 N1 -> budget T l2 N2 -> budget T (l1 ++ l2) (N1 + N2).
Proof.
  induction 1 as [| b l n N Hb Hl IH]; intros H2; simpl.
  - exact H2.
  - replace (S (n + N + N2)) with (S n + (N + N2))%nat by lia.
    constructor; auto.
Qed.

(** A blob above the threshold that is covered by [n] halvings is covered
    by one halving less once it has shrunk. *)
Lemma shrink_covered (T : R) (b : Blob) (n : nat) :
  0 < T -> radius b > T -> radius b <= T * sqrt 2 ^ n ->
  exists n', n = S n' /\ radius (shrink b) <= T * sqrt 2 ^ n'.
Proof.
  intros HT Hbig Hn. destruct n as [| n'].
  - simpl in Hn. lra.
  - exists n'. split; [reflexivity |]. unfold shrink. simpl radius.
    simpl pow in Hn. pose proof sqrt2_gt_1 as H2.
    apply (Rmult_le_reg_r (sqrt 2)); [lra |].
    replace (radius b / sqrt 2 * sqrt 2) with (radius b) by (field; lra).
    lra.
Qed.

Lemma spawn_Ok (sim : FluidSimulation) (b : Blob) :
  width sim <> 0 ->
  exists child, spawn sim b = Ok child /\ radius child = radius b.
Proof.
  intros Hw. unfold spawn, py_mod.
  destruct (Req_dec_T (width sim) 0) as [E | _]; [contradiction |].
  simpl. eexists. split; reflexivity.
Qed.

(** One turn of the split scan either leaves the list alone or, for a blob
    above the threshold, shrinks it and appends its child. *)
Lemma split_iter_cases (sim : FluidSimulation) (na : R)
  (params : VisualParams) (idx : nat) (bs : list Blob) (g : Rng) (b : Blob) :
  width sim <> 0 -> bs !! idx = Some b ->
  (exists g', split_iter sim na params idx bs g = Ok (bs, g'))
  \/ (exists child g',
        radius b > blob_size_mean params * (18 / 10)
        /\ radius child = radius (shrink b)
        /\ split_iter sim na params idx bs g
           = Ok (<[idx := shrink b]> bs ++ [child], g')).
Proof.
  intros Hw Hb. unfold split_iter. rewrite Hb.
  destruct (Rgt_dec _ _) as [Hbig | _]; [| left; eauto].
  simpl. destruct (Rlt_dec _ _); [| left; eauto].
  destruct (spawn_Ok sim (shrink b) Hw) as (child & -> & Hr).
  right. exists child. eexists. repeat split; assumption.
Qed.

Lemma split_loop_total (sim : FluidSimulation) (na : R)
  (params : VisualParams) :
  width sim <> 0 -> 0 < blob_size_mean params * (18 / 10) ->
  forall (fuel N idx : nat) (bs : list Blob) (g : Rng),
    budget (blob_size_mean params * (18 / 10)) (drop idx bs) N ->
    (N <= fuel)%nat ->
    exists bs' g', split_loop fuel sim na params idx bs g = Ok (bs', g').
Proof.
  intros Hw HT. set (T := blob_size_mean params * (18 / 10)) in *.
  induction fuel as [| fuel IH]; intros N idx bs g Hbud Hfuel; simpl;
    destruct (decide (idx < length bs)%nat) as [Hidx | Hidx]; eauto;
    destruct (lookup_lt_is_Some_2 bs idx Hidx) as [b Hb];
    rewrite (drop_S _ _ _ Hb) in Hbud;
    inversion Hbud as [| b0 l0 n N' Hcov Hrest]; subst.
  - lia.
  - destruct (split_iter_cases sim na params idx bs g b Hw Hb)
      as [(g1 & ->) | (child & g1 & Hbig & Hr & ->)]; simpl.
    + apply (IH N'); [exact Hrest | lia].
    + destruct (shrink_covered T b n HT Hbig Hcov) as (n' & -> & Hcov').
      apply (IH (N' + (S n' + 0))%nat); [| lia].
      rewrite drop_app_le by (rewrite length_insert; lia).
      rewrite drop_insert_lt by lia.
      apply budget_app; [exact Hrest |].
      constructor; [rewrite Hr; exact Hcov' | constructor].
Qed.

(** ** FluidSimulation.step: count reconciliation *)

Lemma random_ok (g : Rng) : rng_ok g -> rng_ok (random g).2.
Proof. intros H. exact H. Qed.

Lemma append_blobs_length (make : Rng -> Blob * Rng) :
  forall (n : nat) (bs : list Blob) (g : Rng),
    length (append_blobs make n bs g).1 = (length bs + n)%nat.
Proof.
  induction n as [| n IH]; intros bs g; simpl.
  - lia.
  - destruct (make g) as [b g']. rewrite IH, length_app. simpl. lia.
Qed.

Lemma append_blobs_rng_ok (make : Rng -> Blob * Rng) :
  (forall g, rng_ok g -> rng_ok (make g).2) ->
  forall (n : nat) (bs : list Blob) (g : Rng),
    rng_ok g -> rng_ok (append_blobs make n bs g).2.
Proof.
  intros Hmake. induction n as [| n IH]; intros bs g Hg; simpl.
  - exact Hg.
  - specialize (Hmake g Hg). destruct (make g) as [b g']. apply IH.
    exact Hmake.
Qed.

Lemma reset_blob_rng_ok (sim : FluidSimulation) (params : VisualParams)
  (g : Rng) : rng_ok g -> rng_ok (reset_blob sim params g).2.
Proof. intros H. exact H. Qed.

Lemma grow_blob_rng_ok (sim : FluidSimulation) (params : VisualParams)
  (g : Rng) : rng_ok g -> rng_ok (grow_blob sim params g).2.
Proof. intros H. exact H. Qed.

Lemma py_slice_to_length {A : Type} (xs : list A) (n : Z) :
  (0 <= n <= Z.of_nat (length xs))%Z ->
  length (py_slice_to xs n) = Z.to_nat n.
Proof.
  intros Hn. unfold py_slice_to.
  destruct (Z.ltb_spec n 0); [lia |].
  rewrite length_take. lia.
Qed.

(** Reconciliation keeps the constants of the simulation. *)
Lemma reconcile_dims (sim : FluidSimulation) (params : VisualParams)
  (w : World) :
  let sim1 := (reconcile sim params w).1 in
  width sim1 = width sim /\ height sim1 = height sim
  /\ damping_base sim1 = damping_base sim.
Proof.
  unfold reconcile, FluidSimulation_reset.
  destruct (blobs sim) as [| b0 bs0].
  - destruct (append_blobs (reset_blob sim params) _ [] _) as [bs g].
    destruct (append_blobs _ _ _ _) as [bs1 g1]. simpl. auto.
  - destruct (append_blobs _ _ _ _) as [bs1 g1]. simpl. auto.
Qed.

Lemma reconcile_world_ok (sim : FluidSimulation) (params : VisualParams)
  (w : World) : world_ok w -> world_ok (reconcile sim params w).2.
Proof.
  intros [Hg Hs]. unfold reconcile, FluidSimulation_reset.
  destruct (blobs sim) as [| b0 bs0].
  - pose proof (append_blobs_rng_ok (reset_blob sim params)
                  (reset_blob_rng_ok sim params)
                  (Z.to_nat (blob_count params)) [] _ Hs) as H1.
    destruct (append_blobs (reset_blob sim params) _ [] _) as [bs g].
    pose proof (append_blobs_rng_ok (grow_blob (with_blobs sim bs) params)
                  (grow_blob_rng_ok _ params)
                  (Z.to_nat (blob_count params
                             - Z.of_nat (length (blobs (with_blobs sim bs)))))
                  (blobs (with_blobs sim bs)) _ Hg) as H2.
    cbn [fst snd global_rng seeded_rng] in *.
    destruct (append_blobs _ _ _ _) as [bs1 g1]. split; assumption.
  - pose proof (append_blobs_rng_ok (grow_blob sim params)
                  (grow_blob_rng_ok _ params)
                  (Z.to_nat (blob_count params
                             - Z.of_nat (length (blobs sim))))
                  (blobs sim) _ Hg) as H2.
    cbn [fst snd global_rng seeded_rng] in *.
    destruct (blobs sim) as [| b1 bs1] eqn:Hbs; cbn [fst snd] in *;
      destruct (append_blobs _ _ _ _) as [bs2 g2]; split; assumption.
Qed.

(** After reconciliation with a non-negative count the simulation holds
    exactly that many blobs. *)
Lemma reconcile_count (sim : FluidSimulation) (params : VisualParams)
  (w : World) :
  (0 <= blob_count params)%Z ->
  Z.of_nat (length (blobs (reconcile sim params w).1)) = blob_count params.
Proof.
  intros Hc. unfold reconcile, FluidSimulation_reset.
  destruct (blobs sim) as [| b0 bs0] eqn:Hbs.
  - pose proof (append_blobs_length (reset_blob sim params)
                  (Z.to_nat (blob_count params)) [] (seeded_rng w)) as H1.
    destruct (append_blobs (reset_blob sim params) _ [] _) as [bs g].
    cbn [fst snd blobs with_blobs global_rng] in *.
    pose proof (append_blobs_length (grow_blob (with_blobs sim bs) params)
                  (Z.to_nat (blob_count params - Z.of_nat (length bs)))
                  bs (global_rng w)) as H2.
    destruct (append_blobs _ _ bs _) as [bs1 g1].
    cbn [fst snd blobs with_blobs] in *.
    destruct (Z.ltb_spec (blob_count params) (Z.of_nat (length bs1)));
      cbn [fst blobs with_blobs]; simpl in H1; lia.
  - rewrite !Hbs.
    pose proof (append_blobs_length (grow_blob sim params)
                  (Z.to_nat (blob_count params
                             - Z.of_nat (length (b0 :: bs0))))
                  (b0 :: bs0) (global_rng w)) as H2.
    destruct (append_blobs _ _ (b0 :: bs0) _) as [bs1 g1].
    cbn [fst snd blobs with_blobs] in *.
    destruct (Z.ltb_spec (blob_count params) (Z.of_nat (length bs1)));
      cbn [fst blobs with_blobs].
    + rewrite py_slice_to_length by lia. lia.
    + lia.
Qed.

(** With a negative count a non-empty simulation is not emptied: the slice
    [blobs[:count]] drops only the last [-count] blobs. *)
Lemma reconcile_negative (sim : FluidSimulation) (params : VisualParams)
  (w : World) :
  (blob_count params < 0)%Z -> blobs sim <> [] ->
  blobs (reconcile sim params w).1
  = take (Z.to_nat (Z.of_nat (length (blobs sim)) + blob_count params))
         (blobs sim).
Proof.
  intros Hc Hne. unfold reconcile.
  destruct (blobs sim) as [| b0 bs0] eqn:Hbs; [contradiction |].
  rewrite !Hbs.
  replace (Z.to_nat (blob_count params - Z.of_nat (length (b0 :: bs0))))
    with 0%nat by lia.
  cbn [append_blobs fst snd blobs with_blobs].
  destruct (Z.ltb_spec (blob_count params) (Z.of_nat (length (b0 :: bs0))));
    [| lia].
  unfold py_slice_to. destruct (Z.ltb_spec (blob_count params) 0); [| lia].
  reflexivity.
Qed.

(** ** FluidSimulation.step: integration *)

Lemma integrate_blob_Ok (sim : FluidSimulation) (params : VisualParams)
  (dt t : R) (b : Blob) :
  width sim <> 0 -> exists b', integrate_blob sim params dt t b = Ok b'.
Proof.
  intros Hw. unfold integrate_blob, py_mod.
  destruct (position b) as [px py], (velocity b) as [vx vy].
  destruct (curl_noise px py t) as [cx cy].
  destruct (Req_dec_T (width sim) 0) as [E | _]; [contradiction |].
  simpl. eauto.
Qed.





(** ** FluidSimulation.step as a whole *)

(** The three phases of [step], with the reconciled simulation named. *)
Lemma step_phases (fuel : nat) (sim : FluidSimulation)
  (params : VisualParams) (nd na dt t : R) (w : World) :
  let sim1 := (reconcile sim params w).1 in
  let w1 := (reconcile sim params w).2 in
  FluidSimulation_step fuel sim params nd na dt t w
  = (bs ← for_each (integrate_blob sim1 params dt t) (blobs sim1);
     '(bs1, g1) ← merge_outer fuel nd 0 bs (global_rng w1);
     '(bs2, g2) ← split_loop fuel (with_blobs sim1 bs) na params 0 bs1 g1;
     Ok (with_blobs sim1 bs2, mkWorld g2 (seeded_rng w1))).
Proof.
  unfold FluidSimulation_step, merge_and_split.
  destruct (reconcile sim params w) as [sim1 w1]. simpl.
  destruct (for_each _ _) as [bs | |]; simpl; try reflexivity.
  destruct (merge_outer _ _ _ _ _) as [[bs1 g1] | |]; simpl; try reflexivity.
  destruct (split_loop _ _ _ _ _ _ _) as [[bs2 g2] | |]; reflexivity.
Qed.


(** [step] returns, given enough fuel, whenever the domain has a non-zero
    width and the mean blob size is positive. *)
Lemma step_total (sim : FluidSimulation) (params : VisualParams)
  (nd na dt t : R) (w : World) :
  width sim <> 0 -> 0 < blob_size_mean params ->
  exists fuel r, FluidSimulation_step fuel sim params nd na dt t w = Ok r.
Proof.
  intros Hw Hmean.
  destruct (reconcile_dims sim params w) as (Hw1 & _ & _).
  set (sim1 := (reconcile sim params w).1) in *.
  set (w1 := (reconcile sim params w).2).
  destruct (for_each_total (integrate_blob sim1 params dt t) (blobs sim1))
    as [bs Hint].
  { intros b. apply integrate_blob_Ok. rewrite Hw1. exact Hw. }
  destruct (merge_outer_total nd (length bs) 0 bs (global_rng w1))
    as (bs1 & g1 & Hm & _); [lia |].
  assert (HT : 0 < blob_size_mean params * (18 / 10)) by lra.
  destruct (budget_exists _ (drop 0 bs1) HT) as [N HN].
  destruct (split_loop_total (with_blobs sim1 bs) na params
              (ltac:(simpl; rewrite Hw1; exact Hw)) HT
              N N 0 bs1 g1 HN (Nat.le_refl N)) as (bs2 & g2 & Hs).
  exists (max (length bs) N). eexists.
  rewrite step_phases. fold sim1 w1. rewrite Hint. simpl.
  rewrite (merge_outer_fuel_mono _ _ _ _ _ _ _ Hm) by lia. simpl.
  rewrite (split_loop_fuel_mono _ _ _ _ _ _ _ _ _ Hs) by lia. simpl.
  reflexivity.
Qed.

(** When neither a merge nor a split can fire ([nd <= 0], [na <= 0], draws
    in [0, 1)), [step] returns with as many blobs as reconciliation left. *)
Lemma step_inert (fuel : nat) (sim : FluidSimulation)
  (params : VisualParams) (nd na dt t : R) (w : World) :
  width sim <> 0 -> world_ok w -> nd <= 0 -> na <= 0 ->
  (length (blobs (reconcile sim params w).1) <= fuel)%nat ->
  exists sim' w',
    FluidSimulation_step fuel sim params nd na dt t w = Ok (sim', w')
    /\ length (blobs sim') = length (blobs (reconcile sim params w).1).
Proof.
  intros Hw Hok Hnd Hna Hfuel.
  destruct (reconcile_dims sim params w) as (Hw1 & _ & _).
  destruct (reconcile_world_ok sim params w Hok) as [Hg1 _].
  rewrite step_phases.
  set (sim1 := (reconcile sim params w).1) in *.
  set (w1 := (reconcile sim params w).2) in *.
  destruct (for_each_total (integrate_blob sim1 params dt t) (blobs sim1))
    as [bs Hint].
  { intros b. apply integrate_blob_Ok. rewrite Hw1. exact Hw. }
  pose proof (for_each_length _ _ _ Hint) as Hlen.
  rewrite Hint. simpl.
  destruct (merge_outer_total nd fuel 0 bs (global_rng w1))
    as (bs1 & g1 & Hm & _); [lia |].
  destruct (merge_outer_inert nd Hnd _ _ _ _ _ _ Hg1 Hm) as [-> Hg2].
  rewrite Hm. simpl.
  destruct (split_loop_inert (with_blobs sim1 bs) na params Hna fuel 0 bs g1
              Hg2) as (g2 & -> & _); [lia |].
  simpl. do 2 eexists. split; [reflexivity | exact Hlen].
Qed.

(** A resting blob inside the domain is left in place by the integration
    when nothing pushes it. *)
Lemma integrate_blob_still (sim : FluidSimulation) (params : VisualParams)
  (dt t px py r : R) (col : R * R * R) :
  turbulence params = 0 -> gravity_x params = 0 -> buoyancy params = 0 ->
  0 <= px < width sim -> 0 <= py <= height sim ->
  integrate_blob sim params dt t (mkBlob (px, py) (0, 0) r col)
  = Ok (mkBlob (px, py) (0, 0) r (rgb_primary params)).
Proof.
  intros Ht Hg Hb Hpx Hpy. unfold integrate_blob, curl_noise.
  cbn [position velocity radius].
  rewrite py_mod_Ok by lra.
  rewrite Ht, Hg, Hb. cbn [mbind result_bind].
  match goal with
  | |- Ok (mkBlob (float_rem ?x _, clamp ?y _ _) (?vx, ?vy) _ _) = _ =>
      replace x with px by ring; replace y with py by ring;
      replace vx with 0 by ring; replace vy with 0 by ring
  end.
  rewrite float_rem_small by exact Hpx. rewrite clamp_inside by exact Hpy.
  reflexivity.
Qed.

Lemma rng_const_ok (u : R) : 0 <= u < 1 -> rng_ok (rng_const u).
Proof. intros H n. exact H. Qed.




(** C1, as the code has it.  For a non-negative [params.blob_count] the
    simulation holds exactly that many blobs once the count reconciliation
    of [step] is done, whatever the starting list and the draws; and when
    no merge or split can fire in the call ([nd <= 0] and [na <= 0], the
    draws lying in [0, 1)) it still holds that many when the call returns.
    Merges and splits change the count otherwise. *)
Theorem step_count_reconciled (sim : FluidSimulation) (params : VisualParams)
  (nd na dt t : R) (w : World) :
  (0 <= blob_count params)%Z ->
  Z.of_nat (length (blobs (reconcile sim params w).1)) = blob_count params
  /\ (width sim <> 0 -> world_ok w -> nd <= 0 -> na <= 0 ->
      forall fuel : nat,
        (Z.to_nat (blob_count params) <= fuel)%nat ->
        exists sim' w',
          FluidSimulation_step fuel sim params nd na dt t w = Ok (sim', w')
          /\ Z.of_nat (length (blobs sim')) = blob_count params).
Proof.
  intros Hc. pose proof (reconcile_count sim params w Hc) as Hrec.
  split; [exact Hrec |].
  intros Hw Hok Hnd Hna fuel Hfuel.
  destruct (step_inert fuel sim params nd na dt t w Hw Hok Hnd Hna)
    as (sim' & w' & Hstep & Hlen); [lia |].
  exists sim', w'. split; [exact Hstep | lia].
Qed.


Lemma step_count_reconciled_witness :
  Z.of_nat (length (blobs (reconcile two_blobs (params_still 5)
                             (world_const 0)).1))
  = blob_count (params_still 5)
  /\ exists sim' w',
       FluidSimulation_step 5 two_blobs (params_still 5) 0 0 (16 / 1000) 0
         (world_const 0) = Ok (sim', w')
       /\ Z.of_nat (length (blobs sim')) = blob_count (params_still 5).
Proof.
  destruct (step_count_reconciled two_blobs (params_still 5) 0 0 (16 / 1000)
              0 (world_const 0)) as [Hrec Hstep]; [simpl; lia |].
  split; [exact Hrec |].
  apply Hstep; [simpl; lra | | lra | lra | simpl; lia].
  split; apply rng_const_ok; lra.
Defined.

(** *** A merge changes the count *)

(** Two blobs that merge leave one blob behind. *)
Lemma merge_outer_pair (nd : R) (a b : Blob) (g : Rng) :
  dist2 a b < merge_threshold nd a b * merge_threshold nd a b ->
  (random g).1 < nd ->
  merge_outer 2 nd 0 [a; b] g = Ok ([absorb a b], (random g).2).
Proof.
  intros Hclose Hdraw. cbn [merge_outer merge_inner length].
  destruct (decide (0 < 2)%nat) as [_ | H]; [| lia].
  destruct (decide (1 < 2)%nat) as [_ | H]; [| lia].
  rewrite (merge_iter_fires nd 0 1 [a; b] g a b) by (assumption || reflexivity).
  cbn [mbind result_bind]. cbn [delete list_delete insert list_insert length].
  destruct (decide (1 < 1)%nat) as [H | _]; [lia |].
  cbn [mbind result_bind].
  destruct (decide (1 < 1)%nat) as [H | _]; [lia | reflexivity].
Qed.

Lemma reconcile_two_blobs :
  reconcile two_blobs (params_still 2) (world_const 0)
  = (two_blobs, world_const 0).
Proof. reflexivity. Qed.

(** C1 fails as stated: two resting blobs on the same spot, a target
    count of 2, [nd = 1]; the pair merges and [step] returns with one blob. *)
Lemma step_count_counterexample :
  exists sim' w',
    FluidSimulation_step 2 two_blobs (params_still 2) 1 0 (16 / 1000) 0
      (world_const 0) = Ok (sim', w')
    /\ Z.of_nat (length (blobs sim')) = 1%Z
    /\ blob_count (params_still 2) = 2%Z.
Proof.
  rewrite step_phases, reconcile_two_blobs. cbn [fst snd].
  set (a := blob_at (1 / 2) (1 / 2) 0 0 (1 / 10)).
  assert (Hint : for_each (integrate_blob two_blobs (params_still 2)
                             (16 / 1000) 0) (blobs two_blobs) = Ok [a; a]).
  { unfold two_blobs, blob_at. cbn [blobs for_each].
    rewrite integrate_blob_still by (simpl; lra || reflexivity).
    reflexivity. }
  rewrite Hint. cbn [mbind result_bind].
  rewrite merge_outer_pair.
  2: { unfold dist2, merge_threshold, a, blob_at. simpl. lra. }
  2: { simpl. lra. }
  cbn [mbind result_bind].
  destruct (split_loop_inert (with_blobs two_blobs [a; a]) 0
              (params_still 2) (Rle_refl 0) 2 0 [absorb a a]
              (random (global_rng (world_const 0))).2)
    as (g2 & -> & _); [apply rng_const_ok; lra | simpl; lia |].
  cbn [mbind result_bind]. do 2 eexists. split; [reflexivity |].
  split; reflexivity.
Qed.

(** *** Degenerate counts *)

(** When reconciliation leaves no blob, [step] returns at once with an
    empty simulation, whatever the width and the fuel. *)
Lemma step_on_empty (fuel : nat) (sim : FluidSimulation)
  (params : VisualParams) (nd na dt t : R) (w : World) :
  blobs (reconcile sim params w).1 = [] ->
  exists sim' w',
    FluidSimulation_step fuel sim params nd na dt t w = Ok (sim', w')
    /\ blobs sim' = [].
Proof.
  intros Hempty. rewrite step_phases. rewrite Hempty. cbn [for_each].
  cbn [mbind result_bind].
  assert (Hm : forall g, merge_outer fuel nd 0 [] g = Ok ([], g)).
  { intros g. destruct fuel; reflexivity. }
  rewrite Hm. cbn [mbind result_bind].
  assert (Hs : forall s g, split_loop fuel s na params 0 [] g = Ok ([], g)).
  { intros s g. destruct fuel; reflexivity. }
  rewrite Hs. cbn [mbind result_bind]. do 2 eexists.
  split; reflexivity.
Qed.

(** A zero count empties the simulation and raises nothing, whatever the
    starting list. *)
Lemma step_zero_count (fuel : nat) (sim : FluidSimulation)
  (params : VisualParams) (nd na dt t : R) (w : World) :
  blob_count params = 0%Z ->
  exists sim' w',
    FluidSimulation_step fuel sim params nd na dt t w = Ok (sim', w')
    /\ blobs sim' = [].
Proof.
  intros Hz. apply step_on_empty.
  pose proof (reconcile_count sim params w) as Hc. rewrite Hz in Hc.
  specialize (Hc (Z.le_refl 0)).
  destruct (blobs (reconcile sim params w).1); [reflexivity | simpl in Hc; lia].
Qed.

(** A negative count on a simulation that is already empty stays empty:
    [reset] runs over an empty range. *)
Lemma step_negative_count_on_empty (fuel : nat) (sim : FluidSimulation)
  (params : VisualParams) (nd na dt t : R) (w : World) :
  (blob_count params < 0)%Z -> blobs sim = [] ->
  exists sim' w',
    FluidSimulation_step fuel sim params nd na dt t w = Ok (sim', w')
    /\ blobs sim' = [].
Proof.
  intros Hneg Hempty. apply step_on_empty.
  unfold reconcile, FluidSimulation_reset. rewrite Hempty.
  replace (Z.to_nat (blob_count params)) with 0%nat by lia.
  cbn [append_blobs blobs with_blobs length].
  replace (Z.to_nat (blob_count params - Z.of_nat 0)) with 0%nat by lia.
  cbn [append_blobs fst snd blobs with_blobs length].
  destruct (Z.ltb_spec (blob_count params) (Z.of_nat 0)); [| simpl in *; lia].
  unfold py_slice_to. destruct (Z.ltb_spec (blob_count params) 0); [| lia].
  cbn [fst blobs with_blobs]. apply take_nil.
Qed.

(** C4, at the input where the code departs from it.  A simulation that
    holds two blobs is stepped with [blob_count = -1]: the call raises
    nothing, but [self.blobs[:-1]] keeps the first blob, so the simulation
    is left with one blob instead of none. *)
Theorem step_negative_count_not_emptied :
  exists sim' w',
    FluidSimulation_step 1 two_blobs (params_still (-1)) 0 0 (16 / 1000) 0
      (world_const 0) = Ok (sim', w')
    /\ length (blobs sim') = 1%nat.
Proof.
  destruct (step_inert 1 two_blobs (params_still (-1)) 0 0 (16 / 1000) 0
              (world_const 0)) as (sim' & w' & Hstep & Hlen).
  - simpl. lra.
  - split; apply rng_const_ok; lra.
  - lra.
  - lra.
  - rewrite reconcile_negative by (simpl; (lia || discriminate)).
    simpl. lia.
  - exists sim', w'. split; [exact Hstep |].
    rewrite Hlen. rewrite reconcile_negative by (simpl; (lia || discriminate)).
    reflexivity.
Qed.

(** ** EmotionLavaLampEngine.tick *)

Lemma step_dims (fuel : nat) (sim : FluidSimulation) (params : VisualParams)
  (nd na dt t : R) (w : World) (sim' : FluidSimulation) (w' : World) :
  FluidSimulation_step fuel sim params nd na dt t w = Ok (sim', w') ->
  width sim' = width sim /\ height sim' = height sim
  /\ damping_base sim' = damping_base sim.
Proof.
  rewrite step_phases.
  destruct (reconcile_dims sim params w) as (Hw1 & Hh1 & Hd1).
  intros H.
  apply bind_Ok in H as (bs & _ & H).
  apply bind_Ok in H as ([bs1 g1] & _ & H).
  apply bind_Ok in H as ([bs2 g2] & _ & H).
  injection H as <- <-. simpl. auto.
Qed.

Lemma store_sample_None (eng : Engine) : store_sample eng None = Ok eng.
Proof. reflexivity. Qed.

(** Clamping the components one by one: numbers are clamped, NaN becomes
    1.0, and the first component that is not a number raises. *)
Lemma clamp_components_Ok (s : list pyval) :
  Forall (fun v => v <> PyNonNumeric) s ->
  for_each (fun v => py_clamp v (-1) 1) s = Ok (map stored_component s).
Proof.
  induction 1 as [| v s Hv Hs IH]; simpl.
  - reflexivity.
  - rewrite IH. destruct v; simpl.
    + reflexivity.
    + rewrite Rmax_right by lra. reflexivity.
    + contradiction.
Qed.

Lemma clamp_components_Raise (s : list pyval) :
  PyNonNumeric ∈ s ->
  for_each (fun v => py_clamp v (-1) 1) s = Raise TypeError.
Proof.
  induction s as [| v s IH]; intros Hin.
  - inversion Hin.
  - simpl. destruct v; simpl; try reflexivity;
      (rewrite IH; [reflexivity |]); inversion Hin; subst;
      (discriminate || assumption).
Qed.

Lemma store_sample_Ok (eng : Engine) (s : list pyval) :
  Forall (fun v => v <> PyNonNumeric) s ->
  store_sample eng (Some s)
  = Ok (mkEngine (filter eng) (energy_model eng) (mapper eng) (sim eng)
                 (map stored_component s) (time_s eng)).
Proof.
  intros Hs. unfold store_sample. rewrite clamp_components_Ok by exact Hs.
  reflexivity.
Qed.

(** A held target with fewer than three components makes the filter
    raise [IndexError] on [out[0]], [out[1]] or [out[2]]. *)
Lemma TemporalFilter_update_short (f : TemporalFilter) (target : list R)
  (dt : R) :
  0 <= dt -> 0 < tau_v f -> 0 < tau_a f -> 0 < tau_d f ->
  (length target < 3)%nat ->
  TemporalFilter_update f target dt = Raise IndexError.
Proof.
  intros Hdt Hv Ha Hd Hlen. unfold TemporalFilter_update.
  destruct (state f) as [[c0 c1] c2].
  destruct target as [| t0 [| t1 [| t2 rest]]]; simpl in *; try lia;
    rewrite ?axis_update_Ok by assumption; reflexivity.
Qed.

(** Components past the third never reach the filter. *)
Lemma TemporalFilter_update_extra (f : TemporalFilter) (t0 t1 t2 : R)
  (extra : list R) (dt : R) :
  TemporalFilter_update f (t0 :: t1 :: t2 :: extra) dt
  = TemporalFilter_update f [t0; t1; t2] dt.
Proof.
  unfold TemporalFilter_update. destruct (state f) as [[c0 c1] c2].
  reflexivity.
Qed.

(** The smoothed state the filter returns is a VAD: every axis in
    [-1, 1]. *)
Lemma TemporalFilter_update_range (f f' : TemporalFilter) (target : list R)
  (dt : R) (s : VAD) :
  TemporalFilter_update f target dt = Ok (f', s) ->
  forall k : Axis, -1 <= component k s <= 1.
Proof.
  unfold TemporalFilter_update. destruct (state f) as [[c0 c1] c2].
  intros H. apply bind_Ok in H as (out & Hout & H).
  assert (Hall : Forall (fun x => -1 <= x <= 1) out).
  { eapply for_each_Forall; [| exact Hout].
    intros [[cur t] tau] y Hy. unfold axis_update in Hy.
    apply bind_Ok in Hy as (q & _ & Hy). apply bind_Ok in Hy as (ex & _ & Hy).
    injection Hy as <-.
    split; [apply clamp_lower | apply clamp_upper; lra]. }
  apply bind_Ok in H as (o0 & H0 & H). apply bind_Ok in H as (o1 & H1 & H).
  apply bind_Ok in H as (o2 & H2 & H). injection H as _ <-.
  unfold py_index in *.
  destruct (out !! 0%nat) as [x0 |] eqn:E0; [| discriminate].
  destruct (out !! 1%nat) as [x1 |] eqn:E1; [| discriminate].
  destruct (out !! 2%nat) as [x2 |] eqn:E2; [| discriminate].
  injection H0 as <-. injection H1 as <-. injection H2 as <-.
  intros [| |]; simpl;
    [exact (Forall_lookup_1 _ _ _ _ Hall E0)
    | exact (Forall_lookup_1 _ _ _ _ Hall E1)
    | exact (Forall_lookup_1 _ _ _ _ Hall E2)].
Qed.

Lemma store_sample_fields (eng eng1 : Engine) (sample : option (list pyval)) :
  store_sample eng sample = Ok eng1 ->
  filter eng1 = filter eng /\ energy_model eng1 = energy_model eng
  /\ mapper eng1 = mapper eng /\ sim eng1 = sim eng
  /\ time_s eng1 = time_s eng
  /\ (sample = None -> target_vad eng1 = target_vad eng).
Proof.
  unfold store_sample. destruct sample as [s |].
  - intros H. apply bind_Ok in H as (tv & _ & H). injection H as <-.
    simpl. repeat (split; [reflexivity |]). discriminate.
  - intros H. injection H as <-. repeat (split; [reflexivity |]). reflexivity.
Qed.

(** The mean blob size the mapper derives from a smoothed VAD is
    positive. *)
Lemma map_blob_size_mean_pos (vm : VisualMapping) (s : VAD) (e t : R)
  (g : Rng) :
  -1 <= component Arousal s <= 1 ->
  0 < blob_size_mean (VisualMapping_map vm s e t g).1.
Proof.
  destruct s as [[v a] d]. intros Ha. simpl in Ha.
  rewrite map_blob_size_mean. unfold lerp. lra.
Qed.

(** What a successful [tick] did. *)
Lemma tick_inv (fuel : nat) (eng : Engine) (sample : option (list pyval))
  (dt : R) (w : World) (p : VisualParams) (eng' : Engine) (w' : World) :
  tick fuel eng sample dt w = Ok (p, eng', w') ->
  exists (eng1 : Engine) (smoothed : VAD),
    store_sample eng sample = Ok eng1
    /\ TemporalFilter_update (filter eng1) (target_vad eng1) dt
       = Ok (filter eng', smoothed)
    /\ target_vad eng' = target_vad eng1
    /\ mapper eng' = mapper eng1
    /\ time_s eng' = time_s eng1 + dt
    /\ width (sim eng') = width (sim eng1)
    /\ energy_model eng'
       = (EmotionEnergyModel_update (energy_model eng1) (target_vad eng1)
            smoothed).1
    /\ p = (VisualMapping_map (mapper eng1) smoothed
              (EmotionEnergyModel_update (energy_model eng1)
                 (target_vad eng1) smoothed).2
              (time_s eng1 + dt) (global_rng w)).1.
Proof.
  unfold tick.
  destruct (store_sample eng sample) as [eng1 | |]; cbn [mbind result_bind];
    try discriminate.
  destruct (TemporalFilter_update _ _ _) as [[f' smoothed] | |] eqn:Hf;
    cbn [mbind result_bind]; try discriminate.
  destruct (EmotionEnergyModel_update _ _ _) as [m' e] eqn:He.
  destruct (VisualMapping_map _ _ _ _ _) as [params g] eqn:Hp.
  intros H. apply bind_Ok in H as ([sim' w1] & Hstep & H).
  injection H as <- <- <-.
  destruct (step_dims _ _ _ _ _ _ _ _ _ _ Hstep) as (Hw & _ & _).
  exists eng1, smoothed.
  cbn [filter target_vad mapper time_s sim energy_model].
  rewrite He. cbn [fst snd]. rewrite Hp. cbn [fst snd].
  repeat (split; [reflexivity || assumption |]). reflexivity.
Qed.

(** [tick] returns, given enough fuel, once the sample has been stored in
    an engine that is fit to run. *)
Lemma tick_total (eng eng1 : Engine) (sample : option (list pyval))
  (dt : R) (w : World) :
  0 <= dt -> store_sample eng sample = Ok eng1 -> engine_ok eng1 ->
  exists fuel r, tick fuel eng sample dt w = Ok r.
Proof.
  intros Hdt Hstore (Hv & Ha & Hd & Hw & Hlen).
  destruct (target_vad eng1) as [| t0 [| t1 [| t2 extra]]] eqn:Htv;
    simpl in Hlen; try lia.
  destruct (TemporalFilter_update_axes (filter eng1) t0 t1 t2 extra dt
              Hdt Hv Ha Hd) as (s & Hu & _).
  pose proof (TemporalFilter_update_range _ _ _ _ _ Hu Arousal) as Hrange.
  destruct (EmotionEnergyModel_update (energy_model eng1)
              (t0 :: t1 :: t2 :: extra) s) as [m' e] eqn:Heu.
  destruct (VisualMapping_map (mapper eng1) s e (time_s eng1 + dt)
              (global_rng w)) as [params g] eqn:Hpm.
  assert (Hmean : 0 < blob_size_mean params).
  { replace params
      with (VisualMapping_map (mapper eng1) s e (time_s eng1 + dt)
              (global_rng w)).1 by (rewrite Hpm; reflexivity).
    apply map_blob_size_mean_pos. exact Hrange. }
  destruct (step_total (sim eng1) params ((s.2 + 1) / 2) ((s.1.2 + 1) / 2) dt
              (time_s eng1 + dt) (mkWorld g (seeded_rng w)) Hw Hmean)
    as (fuel & [sim' w'] & Hstep).
  exists fuel. eexists. unfold tick. rewrite Hstore. cbn [mbind result_bind].
  rewrite Htv, Hu. cbn [mbind result_bind]. rewrite Heu, Hpm, Hstep.
  cbn [mbind result_bind]. reflexivity.
Qed.

Lemma tick_keeps_engine_ok (fuel : nat) (eng eng1 : Engine)
  (sample : option (list pyval)) (dt : R) (w : World) (p : VisualParams)
  (eng' : Engine) (w' : World) :
  store_sample eng sample = Ok eng1 -> engine_ok eng1 ->
  tick fuel eng sample dt w = Ok (p, eng', w') ->
  engine_ok eng' /\ target_vad eng' = target_vad eng1.
Proof.
  intros Hstore (Hv & Ha & Hd & Hw & Hlen) Htick.
  apply tick_inv in Htick
    as (eng2 & s & Hstore' & Hu & Htv & _ & _ & Hw' & _).
  rewrite Hstore in Hstore'. injection Hstore' as <-.
  apply TemporalFilter_update_state in Hu as (_ & Hv' & Ha' & Hd' & _).
  unfold engine_ok. rewrite Hv', Ha', Hd', Hw', Htv.
  repeat split; assumption.
Qed.

(** Ticks on which the source yields nothing, with a time step that is
    not negative: they all return, and none of them touches the held
    target. *)
Lemma run_hold (dt : R) :
  0 <= dt ->
  forall (N : nat) (eng : Engine) (w : World),
    engine_ok eng ->
    exists fuel frames w',
      run fuel eng (replicate N None) dt w = Ok (frames, w')
      /\ length frames = N
      /\ forall n p e, frames !! n = Some (p, e) ->
                       target_vad e = target_vad eng.
Proof.
  intros Hdt. induction N as [| N IH]; intros eng w Hok.
  - exists 0%nat, [], w. simpl. split; [reflexivity |].
    split; [reflexivity |]. intros n p e H. rewrite lookup_nil in H.
    discriminate.
  - destruct (tick_total eng eng None dt w Hdt (store_sample_None eng) Hok)
      as (fuel1 & [[p eng'] w1] & Htick).
    destruct (tick_keeps_engine_ok _ _ _ _ _ _ _ _ _ (store_sample_None eng)
                Hok Htick) as [Hok' Htv].
    destruct (IH eng' w1 Hok') as (fuel2 & frames & w2 & Hrun & Hlen & Hall).
    exists (max fuel1 fuel2), ((p, eng') :: frames), w2.
    cbn [replicate run].
    rewrite (tick_fuel_mono _ _ _ _ _ _ _ Htick) by lia.
    cbn [mbind result_bind].
    rewrite (run_fuel_mono _ _ _ _ _ _ _ Hrun) by lia.
    cbn [mbind result_bind].
    split; [reflexivity |]. split; [simpl; congruence |].
    intros [| n] q e Hn; simpl in Hn.
    + injection Hn as _ <-. exact Htv.
    + rewrite (Hall n q e Hn). exact Htv.
Qed.

Lemma run_cons_inv (fuel : nat) (eng : Engine) (s : option (list pyval))
  (rest : list (option (list pyval))) (dt : R) (w : World)
  (frames : list (VisualParams * Engine)) (w' : World) :
  run fuel eng (s :: rest) dt w = Ok (frames, w') ->
  exists p eng' w1 frames',
    tick fuel eng s dt w = Ok (p, eng', w1)
    /\ run fuel eng' rest dt w1 = Ok (frames', w')
    /\ frames = (p, eng') :: frames'.
Proof.
  cbn [run]. intros H.
  apply bind_Ok in H as ([[p eng'] w1] & Ht & H).
  apply bind_Ok in H as ([frames' w2] & Hr & H).
  injection H as <- <-. exists p, eng', w1, frames'. auto.
Qed.

(** One sample of at least three numbers (NaN allowed), then [N] ticks
    without a sample: every tick returns and the engine holds the clamped
    sample throughout. *)
Lemma run_sample_then_hold (eng : Engine) (s : list pyval) (N : nat) (dt : R)
  (w : World) :
  0 <= dt ->
  0 < tau_v (filter eng) -> 0 < tau_a (filter eng) ->
  0 < tau_d (filter eng) -> width (sim eng) <> 0 ->
  Forall (fun v => v <> PyNonNumeric) s -> (3 <= length s)%nat ->
  exists fuel0 frames w',
    (forall fuel, (fuel0 <= fuel)%nat ->
       run fuel eng (Some s :: replicate N None) dt w = Ok (frames, w'))
    /\ length frames = S N
    /\ forall n p e, frames !! n = Some (p, e) ->
                     target_vad e = map stored_component s.
Proof.
  intros Hdt Hv Ha Hd Hw Hs Hlen.
  pose proof (store_sample_Ok eng s Hs) as Hstore.
  set (eng1 := mkEngine (filter eng) (energy_model eng) (mapper eng) (sim eng)
                 (map stored_component s) (time_s eng)) in *.
  assert (Hok1 : engine_ok eng1).
  { unfold engine_ok, eng1. cbn [filter sim target_vad].
    rewrite length_map. auto. }
  destruct (tick_total eng eng1 (Some s) dt w Hdt Hstore Hok1)
    as (fuel1 & [[p eng'] w1] & Htick).
  destruct (tick_keeps_engine_ok _ _ _ _ _ _ _ _ _ Hstore Hok1 Htick)
    as [Hok' Htv].
  destruct (run_hold dt Hdt N eng' w1 Hok')
    as (fuel2 & frames & w2 & Hrun & Hlenf & Hall).
  exists (max fuel1 fuel2), ((p, eng') :: frames), w2.
  split; [| split].
  - intros fuel Hfuel. cbn [run].
    rewrite (tick_fuel_mono _ _ _ _ _ _ _ Htick) by lia.
    cbn [mbind result_bind].
    rewrite (run_fuel_mono _ _ _ _ _ _ _ Hrun) by lia.
    reflexivity.
  - simpl. congruence.
  - intros [| n] q e Hn; simpl in Hn.
    + injection Hn as _ <-. exact Htv.
    + rewrite (Hall n q e Hn). exact Htv.
Qed.

(** C2, as the code has it.  On an engine with positive time constants
    and a non-zero domain width, ticked with a time step [dt >= 0], the
    source yields one valid sample and then nothing for [N] ticks: every
    tick returns and [engine.target_vad] is the same on all of them, the
    clamped sample.  (The returned [VisualParams] follow the smoothed
    state, which keeps moving towards the held target; they are not held.
    A negative time step can make [math.exp] overflow in the filter, and a
    tick then raises [OverflowError].) *)
Theorem sample_hold (eng : Engine) (v a d : R) (N : nat) (dt : R)
  (w : World) :
  0 <= dt ->
  0 < tau_v (filter eng) -> 0 < tau_a (filter eng) ->
  0 < tau_d (filter eng) -> width (sim eng) <> 0 ->
  exists fuel0 frames w',
    (forall fuel, (fuel0 <= fuel)%nat ->
       run fuel eng
         (Some [PyFloat v; PyFloat a; PyFloat d] :: replicate N None) dt w
       = Ok (frames, w'))
    /\ length frames = S N
    /\ forall n p e,
         frames !! n = Some (p, e) ->
         target_vad e = [clamp v (-1) 1; clamp a (-1) 1; clamp d (-1) 1].
Proof.
  intros Hdt Hv Ha Hd Hw.
  apply (run_sample_then_hold eng [PyFloat v; PyFloat a; PyFloat d] N dt w);
    try assumption.
  - repeat constructor; discriminate.
  - simpl. lia.
Qed.

Lemma sample_hold_witness :
  exists fuel0 frames w',
    (forall fuel, (fuel0 <= fuel)%nat ->
       run fuel Engine_default
         (Some [PyFloat (8 / 10); PyFloat (- (6 / 10)); PyFloat (4 / 10)]
            :: replicate 2 None) (16 / 1000) (world_const 0)
       = Ok (frames, w'))
    /\ length frames = 3%nat
    /\ forall n p e,
         frames !! n = Some (p, e) ->
         target_vad e = [clamp (8 / 10) (-1) 1; clamp (- (6 / 10)) (-1) 1;
                         clamp (4 / 10) (-1) 1].
Proof.
  apply (sample_hold Engine_default (8 / 10) (- (6 / 10)) (4 / 10) 2
           (16 / 1000) (world_const 0)); simpl; lra.
Defined.

(** While the target is still ahead the filter moves strictly, by less
    than the step limit. *)
Lemma axis_update_strict (ms dt cur t tau x : R) :
  0 < dt -> 0 < tau -> 0 < ms -> -1 <= cur -> cur < 1 -> cur < t ->
  axis_update ms dt cur t tau = Ok x ->
  cur < x /\ x < cur + ms /\ x <= t.
Proof.
  intros Hdt Htau Hms Hlo Hhi Hlt Hx.
  rewrite axis_update_Ok in Hx by lra. injection Hx as <-.
  destruct (alpha_range dt tau Hdt Htau) as [Ha0 Ha1].
  set (alpha := 1 - exp (- dt / tau)) in *.
  assert (Hstep : 0 < clamp (t - cur) (- ms) ms <= t - cur
                  /\ clamp (t - cur) (- ms) ms <= ms).
  { destruct (Rle_dec (t - cur) ms) as [Hs | Hs].
    - rewrite clamp_inside by lra. lra.
    - rewrite clamp_above by lra. lra. }
  set (step := clamp (t - cur) (- ms) ms) in *.
  assert (Hn : cur < lerp cur (cur + step) alpha
               /\ lerp cur (cur + step) alpha < cur + ms
               /\ lerp cur (cur + step) alpha <= t).
  { unfold lerp. nra. }
  set (nxt := lerp cur (cur + step) alpha) in *.
  destruct (Rle_dec nxt 1) as [H1 | H1].
  - rewrite clamp_inside by lra. lra.
  - rewrite clamp_above by lra. lra.
Qed.

Lemma map_hue (vm : VisualMapping) (s : VAD) (e t : R) (g : Rng) :
  (hsv_primary (VisualMapping_map vm s e t g).1).1.1
  = lerp 220 20 ((component Valence s + 1) / 2).
Proof. destruct s as [[v a] d]. reflexivity. Qed.

(** The valence a default filter returns, read off a successful update
    towards a target whose first component is [t0]. *)
Lemma update_valence (f f' : TemporalFilter) (t0 t1 t2 dt : R) (s : VAD) :
  0 <= dt -> 0 < tau_v f -> 0 < tau_a f -> 0 < tau_d f ->
  TemporalFilter_update f [t0; t1; t2] dt = Ok (f', s) ->
  axis_update (max_step f) dt (component Valence (state f)) t0 (tau_v f)
  = Ok (component Valence s).
Proof.
  intros Hdt Hv Ha Hd Hu.
  destruct (TemporalFilter_update_axes f t0 t1 t2 [] dt Hdt Hv Ha Hd)
    as (s' & Hu' & Hax).
  rewrite Hu in Hu'. injection Hu' as _ ->. exact (Hax Valence).
Qed.

(** C2 fails as stated: on the default engine, after the sample
    (0.8, -0.6, 0.4), the two ticks without a sample hold the same target
    but return different [VisualParams]: the smoothed valence is still
    rising, and the primary hue with it. *)
Lemma sample_hold_params_counterexample :
  exists fuel frames w' p2 e2 p3 e3,
    run fuel Engine_default
      [Some [PyFloat (8 / 10); PyFloat (- (6 / 10)); PyFloat (4 / 10)];
       None; None] (16 / 1000) (world_const 0) = Ok (frames, w')
    /\ frames !! 1%nat = Some (p2, e2)
    /\ frames !! 2%nat = Some (p3, e3)
    /\ target_vad e2 = target_vad e3
    /\ p2 <> p3.
Proof.
  set (smp := [PyFloat (8 / 10); PyFloat (- (6 / 10)); PyFloat (4 / 10)]).
  destruct (run_sample_then_hold Engine_default smp 2 (16 / 1000)
              (world_const 0)) as (fuel & frames & w' & Hrun & Hlen & Htv);
    try (simpl; lra).
  { repeat constructor; discriminate. }
  { simpl. lia. }
  specialize (Hrun fuel (Nat.le_refl fuel)). cbn [replicate] in Hrun.
  apply run_cons_inv in Hrun as (p1 & e1 & w1 & fr1 & Ht1 & Hrun & ->).
  apply run_cons_inv in Hrun as (p2 & e2 & w2 & fr2 & Ht2 & Hrun & ->).
  apply run_cons_inv in Hrun as (p3 & e3 & w3 & fr3 & Ht3 & Hrun & ->).
  cbn [run] in Hrun. injection Hrun as <- <-.
  exists fuel, [(p1, e1); (p2, e2); (p3, e3)], w3, p2, e2, p3, e3.
  split.
  { cbn [run]. rewrite Ht1. cbn [mbind result_bind]. rewrite Ht2.
    cbn [mbind result_bind]. rewrite Ht3. reflexivity. }
  split; [reflexivity |]. split; [reflexivity |].
  split.
  { rewrite (Htv 1%nat p2 e2 eq_refl), (Htv 2%nat p3 e3 eq_refl).
    reflexivity. }
  (* the three filter updates *)
  apply tick_inv in Ht1
    as (g1 & s1 & Hst1 & Hu1 & Htv1 & _ & _ & _ & _ & _).
  apply tick_inv in Ht2
    as (g2 & s2 & Hst2 & Hu2 & Htv2 & _ & _ & _ & _ & Hp2).
  apply tick_inv in Ht3
    as (g3 & s3 & Hst3 & Hu3 & Htv3 & _ & _ & _ & _ & Hp3).
  rewrite store_sample_None in Hst2, Hst3.
  injection Hst2 as <-. injection Hst3 as <-.
  unfold smp in Hst1. rewrite store_sample_Ok in Hst1
    by (repeat constructor; discriminate).
  injection Hst1 as <-.
  cbn [filter target_vad map stored_component] in Hu1.
  rewrite Htv2, Htv1 in Hu3. rewrite Htv1 in Hu2.
  cbn [target_vad map stored_component] in Hu2, Hu3.
  rewrite !clamp_inside in Hu1, Hu2, Hu3 by lra.
  destruct (TemporalFilter_update_state _ _ _ _ _ Hu1)
    as (Hs1 & Hv1 & Ha1 & Hd1 & Hm1).
  destruct (TemporalFilter_update_state _ _ _ _ _ Hu2)
    as (Hs2 & Hv2 & Ha2 & Hd2 & Hm2).
  simpl in Hv1, Ha1, Hd1, Hm1.
  rewrite Hv1 in Hv2. rewrite Ha1 in Ha2. rewrite Hd1 in Hd2.
  rewrite Hm1 in Hm2.
  apply update_valence in Hu1; try (simpl; lra).
  apply update_valence in Hu2; try lra.
  apply update_valence in Hu3; try lra.
  simpl in Hu1. rewrite Hs1, Hv1, Hm1 in Hu2. rewrite Hs2, Hv2, Hm2 in Hu3.
  cbn [component] in Hu1, Hu2, Hu3.
  apply axis_update_strict in Hu1 as (Hlo1 & Hhi1 & _); try lra.
  apply axis_update_strict in Hu2 as (Hlo2 & Hhi2 & _); try lra.
  apply axis_update_strict in Hu3 as (Hlo3 & _ & _); try lra.
  intros Heq.
  assert (Hhue : (hsv_primary p2).1.1 = (hsv_primary p3).1.1)
    by (rewrite Heq; reflexivity).
  rewrite Hp2, Hp3, !map_hue in Hhue. unfold lerp in Hhue.
  cbn [component] in Hhue. lra.
Qed.

(** *** Samples that are not a triple of numbers *)

Lemma tick_raises_at_retrieval (fuel : nat) (eng : Engine)
  (sample : option (list pyval)) (dt : R) (w : World) (e : exn) :
  store_sample eng sample = Raise e -> tick fuel eng sample dt w = Raise e.
Proof. intros H. unfold tick. rewrite H. reflexivity. Qed.

Lemma tick_raises_in_filter (fuel : nat) (eng eng1 : Engine)
  (sample : option (list pyval)) (dt : R) (w : World) (e : exn) :
  store_sample eng sample = Ok eng1 ->
  TemporalFilter_update (filter eng1) (target_vad eng1) dt = Raise e ->
  tick fuel eng sample dt w = Raise e.
Proof.
  intros Hs Hu. unfold tick. rewrite Hs. cbn [mbind result_bind].
  rewrite Hu. reflexivity.
Qed.

(** C3, as the code has it.  [tick] does not validate the sample.  A
    component that is not a number makes [clamp] raise [TypeError] at
    sample retrieval, before [TemporalFilter.update] is called, whatever
    the engine and the time step.  Otherwise nothing is raised at
    retrieval: the clamped components are stored, a NaN as 1.0, and the
    filter looks at the first three only.  On an engine with positive time
    constants and a time step [dt >= 0] (so that no axis divides by zero or
    overflows [math.exp] first), a sample of fewer than three components
    then makes [TemporalFilter.update] raise [IndexError], and a sample of
    three or more components makes [tick] return when the domain width is
    not zero. *)
Theorem malformed_sample_handling (eng : Engine) (s : list pyval) (dt : R)
  (w : World) :
  (PyNonNumeric ∈ s ->
     store_sample eng (Some s) = Raise TypeError
     /\ forall fuel, tick fuel eng (Some s) dt w = Raise TypeError)
  /\ (Forall (fun v => v <> PyNonNumeric) s ->
      exists eng1,
        store_sample eng (Some s) = Ok eng1
        /\ filter eng1 = filter eng
        /\ target_vad eng1 = map stored_component s
        /\ ((3 <= length s)%nat ->
            TemporalFilter_update (filter eng1) (target_vad eng1) dt
            = TemporalFilter_update (filter eng1)
                (take 3 (target_vad eng1)) dt)
        /\ (0 <= dt -> 0 < tau_v (filter eng) -> 0 < tau_a (filter eng) ->
            0 < tau_d (filter eng) ->
            ((length s < 3)%nat ->
             TemporalFilter_update (filter eng1) (target_vad eng1) dt
             = Raise IndexError
             /\ forall fuel, tick fuel eng (Some s) dt w = Raise IndexError)
            /\ ((3 <= length s)%nat -> width (sim eng) <> 0 ->
                exists fuel r, tick fuel eng (Some s) dt w = Ok r))).
Proof.
  split.
  - intros Hin.
    assert (Hst : store_sample eng (Some s) = Raise TypeError).
    { unfold store_sample. rewrite clamp_components_Raise by exact Hin.
      reflexivity. }
    split; [exact Hst |]. intros fuel.
    apply tick_raises_at_retrieval. exact Hst.
  - intros Hs. pose proof (store_sample_Ok eng s Hs) as Hst.
    eexists. split; [exact Hst |]. cbn [filter target_vad].
    split; [reflexivity |]. split; [reflexivity |]. split.
    + intros Hlen.
      destruct s as [| v0 [| v1 [| v2 rest]]]; simpl in Hlen; try lia.
      cbn [map take]. rewrite take_0. apply TemporalFilter_update_extra.
    + intros Hdt Hv Ha Hd. split.
      * intros Hlen.
        assert (Hu : TemporalFilter_update (filter eng)
                       (map stored_component s) dt = Raise IndexError).
        { apply TemporalFilter_update_short; try assumption.
          rewrite length_map. exact Hlen. }
        split; [exact Hu |]. intros fuel.
        eapply tick_raises_in_filter; [exact Hst | exact Hu].
      * intros Hlen Hw.
        eapply tick_total; [exact Hdt | exact Hst |].
        unfold engine_ok. cbn [filter sim target_vad].
        rewrite length_map. auto.
Qed.

Lemma malformed_sample_handling_witness :
  (forall fuel,
     tick fuel Engine_default (Some [PyFloat 0; PyNonNumeric; PyFloat 0])
       (16 / 1000) (world_const 0) = Raise TypeError)
  /\ (forall fuel,
        tick fuel Engine_default (Some [PyFloat 0; PyFloat 0])
          (16 / 1000) (world_const 0) = Raise IndexError)
  /\ (exists fuel r,
        tick fuel Engine_default
          (Some [PyNaN; PyFloat 0; PyFloat 0; PyFloat 0])
          (16 / 1000) (world_const 0) = Ok r).
Proof.
  split; [| split].
  - destruct (malformed_sample_handling Engine_default
                [PyFloat 0; PyNonNumeric; PyFloat 0] (16 / 1000)
                (world_const 0)) as [Hraise _].
    apply Hraise. repeat constructor.
  - destruct (malformed_sample_handling Engine_default
                [PyFloat 0; PyFloat 0] (16 / 1000) (world_const 0))
      as [_ Hstored].
    destruct Hstored as (eng1 & _ & _ & _ & _ & Hrun).
    { repeat constructor; discriminate. }
    destruct Hrun as [Hshort _]; try (simpl; lra).
    apply Hshort. simpl. lia.
  - destruct (malformed_sample_handling Engine_default
                [PyNaN; PyFloat 0; PyFloat 0; PyFloat 0] (16 / 1000)
                (world_const 0)) as [_ Hstored].
    destruct Hstored as (eng1 & _ & _ & _ & _ & Hrun).
    { repeat constructor; discriminate. }
    destruct Hrun as [_ Hlong]; try (simpl; lra).
    apply Hlong; [simpl; lia | simpl; lra].
Defined.

(** C3 fails as stated: a sample of four numbers and a sample with a NaN
    component are malformed, yet sample retrieval raises nothing and
    [tick] returns. *)
Lemma malformed_sample_counterexample :
  let four := [PyFloat 0; PyFloat 0; PyFloat 0; PyFloat 0] in
  let with_nan := [PyNaN; PyFloat 0; PyFloat 0] in
  ~ well_formed_sample four /\ ~ well_formed_sample with_nan
  /\ (exists eng1, store_sample Engine_default (Some four) = Ok eng1)
  /\ (exists eng1, store_sample Engine_default (Some with_nan) = Ok eng1)
  /\ (exists fuel r,
        tick fuel Engine_default (Some four) (16 / 1000) (world_const 0)
        = Ok r)
  /\ (exists fuel r,
        tick fuel Engine_default (Some with_nan) (16 / 1000) (world_const 0)
        = Ok r).
Proof.
  intros four with_nan.
  assert (Hok : forall s,
             Forall (fun v => v <> PyNonNumeric) s -> (3 <= length s)%nat ->
             engine_ok (mkEngine TemporalFilter_default
                          EmotionEnergyModel_default VisualMapping_default
                          FluidSimulation_default (map stored_component s)
                          0)).
  { intros s _ Hlen. unfold engine_ok. cbn [filter sim target_vad].
    rewrite length_map. simpl. repeat split; (lra || lia). }
  assert (H4 : Forall (fun v => v <> PyNonNumeric) four)
    by (repeat constructor; discriminate).
  assert (Hn : Forall (fun v => v <> PyNonNumeric) with_nan)
    by (repeat constructor; discriminate).
  split; [| split; [| split; [| split; [| split]]]].
  - intros [Hlen _]. simpl in Hlen. lia.
  - intros [_ Hall]. inversion Hall as [| v l Hnum _]. exact Hnum.
  - eexists. apply store_sample_Ok. exact H4.
  - eexists. apply store_sample_Ok. exact Hn.
  - eapply tick_total; [lra | apply store_sample_Ok; exact H4 |].
    apply (Hok four H4). simpl. lia.
  - eapply tick_total; [lra | apply store_sample_Ok; exact Hn |].
    apply (Hok with_nan Hn). simpl. lia.
Qed.

(** * Further properties of the module *)

(** ** clamp *)

(** X1.  With ordered bounds [clamp] lands in [low, high], leaves a value
    that is already inside alone, is idempotent and is monotone in its
    first argument. *)
Theorem clamp_contract (x y low high : R) :
  low <= high ->
  low <= clamp x low high <= high
  /\ (low <= x <= high -> clamp x low high = x)
  /\ clamp (clamp x low high) low high = clamp x low high
  /\ (x <= y -> clamp x low high <= clamp y low high).
Proof.
  intros Hlh.
  assert (Hin : low <= clamp x low high <= high)
    by (split; [apply clamp_lower | apply clamp_upper; exact Hlh]).
  split; [exact Hin |]. split; [apply clamp_inside |].
  split; [apply clamp_inside; exact Hin | apply clamp_mono].
Qed.

Lemma clamp_contract_witness :
  -1 <= clamp 0 (-1) 1 <= 1
  /\ clamp 0 (-1) 1 = 0
  /\ clamp (clamp 0 (-1) 1) (-1) 1 = clamp 0 (-1) 1
  /\ clamp 0 (-1) 1 <= clamp 4 (-1) 1.
Proof.
  destruct (clamp_contract 0 4 (-1) 1) as (Hr & Hid & Hidem & Hmono);
    [lra |].
  split; [exact Hr |]. split; [apply Hid; lra |].
  split; [exact Hidem | apply Hmono; lra].
Defined.

(** ** hsv_to_rgb *)

Lemma fmod_add_period (x w : R) : w <> 0 -> fmod (x + w) w = fmod x w.
Proof.
  intros Hw. unfold fmod.
  assert (Hq : Int_part ((x + w) / w) = (Int_part (x / w) + 1)%Z).
  { apply Int_part_unique. rewrite plus_IZR.
    replace ((x + w) / w) with (x / w + 1) by (field; exact Hw).
    destruct (Int_part_bounds (x / w)). simpl. lra. }
  rewrite Hq, plus_IZR. simpl. lra.
Qed.

(** The intermediate [x] of [hsv_to_rgb] lies between 0 and the chroma. *)
Lemma hsv_x_range (c h : R) :
  0 <= c -> 0 <= c * (1 - Rabs (fmod (h / 60) 2 - 1)) <= c.
Proof.
  intros Hc.
  destruct (fmod_range (h / 60) 2) as [H0 H2]; [lra |].
  assert (Habs : 0 <= Rabs (fmod (h / 60) 2 - 1) <= 1).
  { split; [apply Rabs_pos |]. apply Rabs_le. lra. }
  nra.
Qed.

Lemma hsv_to_rgb_channels (h s v : R) :
  0 <= s -> 0 <= v ->
  exists c x : R,
    c = v * s /\ 0 <= x <= c
    /\ (hsv_to_rgb h s v = (c + (v - c), x + (v - c), 0 + (v - c))
        \/ hsv_to_rgb h s v = (x + (v - c), c + (v - c), 0 + (v - c))
        \/ hsv_to_rgb h s v = (0 + (v - c), c + (v - c), x + (v - c))
        \/ hsv_to_rgb h s v = (0 + (v - c), x + (v - c), c + (v - c))
        \/ hsv_to_rgb h s v = (x + (v - c), 0 + (v - c), c + (v - c))
        \/ hsv_to_rgb h s v = (c + (v - c), 0 + (v - c), x + (v - c))).
Proof.
  intros Hs Hv. unfold hsv_to_rgb.
  pose proof (hsv_x_range (v * s) (fmod h 360)) as Hx.
  set (x := v * s * (1 - Rabs (fmod (fmod h 360 / 60) 2 - 1))) in *.
  exists (v * s), x. split; [reflexivity |].
  split; [apply Hx; nra |].
  repeat (destruct (Rlt_dec _ _); [tauto |]). tauto.
Qed.

(** X2.  For a non-negative saturation and value, the largest channel
    [hsv_to_rgb] returns is the value [v] and the smallest is [v - v * s],
    whatever the hue; every channel lies between the two. *)
Theorem hsv_to_rgb_extremes (h s v : R) :
  0 <= s -> 0 <= v ->
  let '(r, g, b) := hsv_to_rgb h s v in
  Rmax r (Rmax g b) = v /\ Rmin r (Rmin g b) = v - v * s
  /\ v - v * s <= r <= v /\ v - v * s <= g <= v /\ v - v * s <= b <= v.
Proof.
  intros Hs Hv.
  destruct (hsv_to_rgb_channels h s v Hs Hv) as (c & x & Hc & Hx & Hcases).
  assert (Hc0 : 0 <= c) by (rewrite Hc; nra).
  rewrite <- Hc.
  destruct Hcases as [-> | [-> | [-> | [-> | [-> | ->]]]]];
    (split; [| split; [| split; [| split]]]);
    try (unfold Rmax; repeat destruct (Rle_dec _ _); lra);
    try (unfold Rmin; repeat destruct (Rle_dec _ _); lra);
    lra.
Qed.

Lemma hsv_to_rgb_extremes_witness :
  let '(r, g, b) := hsv_to_rgb 200 (1 / 2) (8 / 10) in
  Rmax r (Rmax g b) = 8 / 10 /\ Rmin r (Rmin g b) = 8 / 10 - 8 / 10 * (1 / 2)
  /\ 8 / 10 - 8 / 10 * (1 / 2) <= r <= 8 / 10
  /\ 8 / 10 - 8 / 10 * (1 / 2) <= g <= 8 / 10
  /\ 8 / 10 - 8 / 10 * (1 / 2) <= b <= 8 / 10.
Proof. apply (hsv_to_rgb_extremes 200 (1 / 2) (8 / 10)); lra. Defined.

(** X3.  [hsv_to_rgb] is periodic in the hue: a full turn of 360 degrees
    gives the same colour, so negative and large hues are accepted. *)
Theorem hsv_to_rgb_periodic (h s v : R) :
  hsv_to_rgb (h + 360) s v = hsv_to_rgb h s v
  /\ hsv_to_rgb (h - 360) s v = hsv_to_rgb h s v.
Proof.
  assert (Hp : forall k, hsv_to_rgb (k + 360) s v = hsv_to_rgb k s v).
  { intros k. unfold hsv_to_rgb. rewrite fmod_add_period by lra.
    reflexivity. }
  split; [apply Hp |].
  rewrite <- (Hp (h - 360)). f_equal. lra.
Qed.

(** ** VisualMapping.map *)

Lemma hsv_to_rgb_unit (h s v : R) :
  0 <= s <= 1 -> 0 <= v <= 1 ->
  let '(r, g, b) := hsv_to_rgb h s v in
  0 <= r <= 1 /\ 0 <= g <= 1 /\ 0 <= b <= 1.
Proof.
  intros [Hs0 Hs1] [Hv0 Hv1].
  destruct (hsv_to_rgb_channels h s v Hs0 Hv0) as (c & x & Hc & Hx & Hcases).
  assert (Hcv : 0 <= c <= v) by (rewrite Hc; nra).
  destruct Hcases as [-> | [-> | [-> | [-> | [-> | ->]]]]]; lra.
Qed.

(** X4.  For a VAD triple inside [-1, 1] the colours of the mapper are
    displayable: the primary hue lies in [20, 220], the secondary hue in
    the closed interval [0, 360] (the float [%] can return 360.0 itself),
    saturation in [0.3, 1], value in [0.4, 1], both colours share
    saturation and value, and every channel of [rgb_primary] lies in
    [0, 1].  This holds for every gain setting, energy, time and draw. *)
Theorem map_colours_displayable (vm : VisualMapping) (v a d e t : R)
  (g : Rng) :
  -1 <= v <= 1 -> -1 <= a <= 1 -> -1 <= d <= 1 ->
  let p := (VisualMapping_map vm (v, a, d) e t g).1 in
  let '(h, s, val) := hsv_primary p in
  let '(h2, s2, val2) := hsv_secondary p in
  let '(r, gr, b) := rgb_primary p in
  20 <= h <= 220 /\ 0 <= h2 <= 360
  /\ 3 / 10 <= s <= 1 /\ 4 / 10 <= val <= 1 /\ s2 = s /\ val2 = val
  /\ 0 <= r <= 1 /\ 0 <= gr <= 1 /\ 0 <= b <= 1.
Proof.
  intros Hv Ha Hd. cbn zeta.
  unfold VisualMapping_map.
  destruct (uniform (-24) 24 g) as [u g'].
  cbn [fst hsv_primary hsv_secondary rgb_primary].
  pose proof (hsv_to_rgb_unit (lerp 220 20 ((v + 1) / 2))
                (3 / 10 + 7 / 10 * ((a + 1) / 2))
                (4 / 10 + 6 / 10 * ((a + 1) / 2))) as Hrgb.
  destruct (hsv_to_rgb _ _ _) as [[r gr] b].
  split; [unfold lerp; lra |].
  split; [apply float_rem_range; [lra | exact is_double_360] |].
  split; [lra |]. split; [lra |]. split; [reflexivity |].
  split; [reflexivity |]. apply Hrgb; lra.
Qed.

Lemma map_colours_displayable_witness :
  let p := (VisualMapping_map VisualMapping_default (-1, 1, 0) 3 7
              (rng_const (1 / 2))).1 in
  let '(h, s, val) := hsv_primary p in
  let '(h2, s2, val2) := hsv_secondary p in
  let '(r, gr, b) := rgb_primary p in
  20 <= h <= 220 /\ 0 <= h2 <= 360
  /\ 3 / 10 <= s <= 1 /\ 4 / 10 <= val <= 1 /\ s2 = s /\ val2 = val
  /\ 0 <= r <= 1 /\ 0 <= gr <= 1 /\ 0 <= b <= 1.
Proof.
  apply (map_colours_displayable VisualMapping_default (-1) 1 0 3 7
           (rng_const (1 / 2))); lra.
Defined.

(** X5.  For a VAD triple inside [-1, 1] and a non-negative energy the
    physical coefficients of the mapper stay in fixed ranges: mean blob
    size in [0.05, 0.14], surface tension in [0.2, 1], viscosity in
    [0.2, 1], buoyancy in [-0.3, 0.3], threshold in [0.9, 1.2], and the
    horizontal gravity is bounded in magnitude by [0.02 + 0.05 * energy]. *)
Theorem map_coefficients_ranges (vm : VisualMapping) (v a d e t : R)
  (g : Rng) :
  -1 <= v <= 1 -> -1 <= a <= 1 -> -1 <= d <= 1 -> 0 <= e ->
  let p := (VisualMapping_map vm (v, a, d) e t g).1 in
  5 / 100 <= blob_size_mean p <= 14 / 100
  /\ 2 / 10 <= surface_tension p <= 1
  /\ 2 / 10 <= viscosity p <= 1
  /\ - (3 / 10) <= buoyancy p <= 3 / 10
  /\ 9 / 10 <= threshold p <= 12 / 10
  /\ Rabs (gravity_x p) <= 2 / 100 + 5 / 100 * e.
Proof.
  intros Hv Ha Hd He. cbn zeta. unfold VisualMapping_map.
  destruct (uniform (-24) 24 g) as [u g'].
  cbn [fst blob_size_mean surface_tension viscosity buoyancy threshold
       gravity_x].
  unfold lerp. repeat (split; [lra |]).
  rewrite Rabs_mult.
  set (angle := t * (1 / 10 + (a + 1) / 2 * (15 / 10)) * math_tau).
  assert (Hsin : Rabs (sin angle) <= 1).
  { apply Rabs_le. destruct (SIN_bound angle). lra. }
  rewrite (Rabs_pos_eq (2 / 100 + e * (5 / 100))) by lra.
  pose proof (Rabs_pos (sin angle)). nra.
Qed.

Lemma map_coefficients_ranges_witness :
  let p := (VisualMapping_map VisualMapping_default (-1, 1, 0) 3 7
              (rng_const (1 / 2))).1 in
  5 / 100 <= blob_size_mean p <= 14 / 100
  /\ 2 / 10 <= surface_tension p <= 1
  /\ 2 / 10 <= viscosity p <= 1
  /\ - (3 / 10) <= buoyancy p <= 3 / 10
  /\ 9 / 10 <= threshold p <= 12 / 10
  /\ Rabs (gravity_x p) <= 2 / 100 + 5 / 100 * 3.
Proof.
  apply (map_coefficients_ranges VisualMapping_default (-1) 1 0 3 7
           (rng_const (1 / 2))); lra.
Defined.


Lemma Int_part_nonneg (x : R) : 0 <= x -> (0 <= Int_part x)%Z.
Proof.
  intros Hx. rewrite <- (Int_part_unique 0 0) by (simpl; lra).
  apply Int_part_mono. exact Hx.
Qed.

(** [int()] is monotone on the whole real line. *)
Lemma py_int_mono (x y : R) : x <= y -> (py_int x <= py_int y)%Z.
Proof.
  intros Hxy. unfold py_int.
  destruct (Rle_dec 0 x) as [Hx | Hx], (Rle_dec 0 y) as [Hy | Hy].
  - apply Int_part_mono. exact Hxy.
  - lra.
  - pose proof (Int_part_nonneg (- x) ltac:(lra)).
    pose proof (Int_part_nonneg y Hy). lia.
  - pose proof (Int_part_mono (- y) (- x) ltac:(lra)). lia.
Qed.

(** X6.  Arousal drives the mapper monotonically: raising the arousal of
    the input, everything else equal, never lowers the blob count, the
    saturation or the value, never raises the mean blob size and, with a
    non-negative arousal gain, never lowers the turbulence.  (None of the
    inequalities is strict: the blob count is a floor, and two arousals
    that are close enough give equal floats.) *)
Theorem map_arousal_monotone (vm : VisualMapping) (v a a' d e t : R)
  (g : Rng) :
  0 <= arousal_gain vm -> a <= a' ->
  let p := (VisualMapping_map vm (v, a, d) e t g).1 in
  let p' := (VisualMapping_map vm (v, a', d) e t g).1 in
  (blob_count p <= blob_count p')%Z
  /\ turbulence p <= turbulence p'
  /\ blob_size_mean p' <= blob_size_mean p
  /\ (hsv_primary p).1.2 <= (hsv_primary p').1.2
  /\ (hsv_primary p).2 <= (hsv_primary p').2.
Proof.
  intros Hgain Haa. cbn zeta.
  rewrite !map_blob_count, !map_turbulence, !map_blob_size_mean.
  split; [| split; [| split]].
  - assert (H : (py_int ((a + 1) / 2 * 10) <= py_int ((a' + 1) / 2 * 10))%Z)
      by (apply py_int_mono; lra).
    lia.
  - nra.
  - unfold lerp. lra.
  - unfold VisualMapping_map. destruct (uniform (-24) 24 g) as [u g'].
    cbn [fst snd hsv_primary]. lra.
Qed.

Lemma map_arousal_monotone_witness :
  let p := (VisualMapping_map VisualMapping_default (0, -1, 0) 0 0
              (rng_const 0)).1 in
  let p' := (VisualMapping_map VisualMapping_default (0, 1, 0) 0 0
               (rng_const 0)).1 in
  (blob_count p <= blob_count p')%Z
  /\ turbulence p <= turbulence p'
  /\ blob_size_mean p' <= blob_size_mean p
  /\ (hsv_primary p).1.2 <= (hsv_primary p').1.2
  /\ (hsv_primary p).2 <= (hsv_primary p').2.
Proof.
  apply (map_arousal_monotone VisualMapping_default 0 (-1) 1 0 0 0
           (rng_const 0)); simpl; lra.
Defined.

(** X7.  The hue jitter of the mapper, for a VAD triple inside [-1, 1]
    and draws in [0, 1): the secondary colour has the saturation and value
    of the primary one and a hue that is the primary hue plus a noise of
    magnitude at most [24 * (1 - nd)] degrees, wrapped by [% 360.0] (and
    left as it is when the sum is not negative); at full dominance
    ([d = 1]) the two colours are equal.  The jitter takes
    exactly one uniform draw and no other field depends on the generator. *)
Theorem map_jitter_bounded (vm : VisualMapping) (v a d e t : R) (g : Rng) :
  -1 <= v <= 1 -> -1 <= d <= 1 -> rng_ok g ->
  let r := VisualMapping_map vm (v, a, d) e t g in
  let h := (hsv_primary r.1).1.1 in
  (exists noise : R,
      Rabs noise <= 24 * (1 - (d + 1) / 2)
      /\ hsv_secondary r.1
         = (float_rem (h + noise) 360,
            (hsv_primary r.1).1.2, (hsv_primary r.1).2)
      /\ (0 <= h + noise -> (hsv_secondary r.1).1.1 = h + noise))
  /\ (d = 1 -> hsv_secondary r.1 = hsv_primary r.1)
  /\ ucursor r.2 = S (ucursor g) /\ ncursor r.2 = ncursor g
  /\ forall g' : Rng,
       let r' := VisualMapping_map vm (v, a, d) e t g' in
       hsv_primary r'.1 = hsv_primary r.1
       /\ rgb_primary r'.1 = rgb_primary r.1
       /\ blob_count r'.1 = blob_count r.1
       /\ turbulence r'.1 = turbulence r.1
       /\ gravity_x r'.1 = gravity_x r.1.
Proof.
  intros Hv Hd Hg. cbn zeta. unfold VisualMapping_map, uniform, random.
  cbn [fst snd hsv_primary hsv_secondary rgb_primary blob_count turbulence
       gravity_x ucursor ncursor].
  pose proof (Hg (ucursor g)) as Hu.
  set (u := uniforms g (ucursor g)) in *.
  set (h := lerp 220 20 ((v + 1) / 2)).
  assert (Hh : 20 <= h <= 220) by (unfold h, lerp; lra).
  set (noise := (-24 + (24 - -24) * u) * (1 - (d + 1) / 2)).
  assert (Hnoise : Rabs noise <= 24 * (1 - (d + 1) / 2)).
  { unfold noise. apply Rabs_le. split; nra. }
  split; [| split; [| split; [reflexivity | split; [reflexivity |]]]].
  - exists noise. split; [exact Hnoise |]. split; [reflexivity |].
    intros Hpos. apply float_rem_small.
    assert (Rabs noise <= 24) by lra.
    assert (noise <= 24) by (eapply Rle_trans; [apply Rle_abs | assumption]).
    lra.
  - intros ->. f_equal. f_equal.
    assert (Hzero : noise = 0) by (unfold noise; lra).
    rewrite Hzero, Rplus_0_r. apply float_rem_small. lra.
  - intros g'. repeat split; reflexivity.
Qed.

Lemma map_jitter_bounded_witness :
  let r := VisualMapping_map VisualMapping_default (0, 0, 1) 0 0
             (rng_const (1 / 2)) in
  hsv_secondary r.1 = hsv_primary r.1 /\ ucursor r.2 = 1%nat.
Proof.
  destruct (map_jitter_bounded VisualMapping_default 0 0 1 0 0
              (rng_const (1 / 2))) as (_ & Hfull & Hcur & _);
    try lra; [apply rng_const_ok; lra |].
  split; [apply Hfull; reflexivity | exact Hcur].
Defined.

(** ** TemporalFilter.update *)

(** X8.  Whatever the previous state, the target and the time step, a
    call of [TemporalFilter.update] that returns hands back a triple with
    every axis in [-1, 1], stores that same triple as the new state and
    leaves the time constants and the step limit untouched. *)
Theorem filter_update_returns_vad (f f' : TemporalFilter) (target : list R)
  (dt : R) (s : VAD) :
  TemporalFilter_update f target dt = Ok (f', s) ->
  (forall k : Axis, -1 <= component k s <= 1)
  /\ state f' = s
  /\ tau_v f' = tau_v f /\ tau_a f' = tau_a f /\ tau_d f' = tau_d f
  /\ max_step f' = max_step f.
Proof.
  intros Hu. split.
  - exact (TemporalFilter_update_range f f' target dt s Hu).
  - exact (TemporalFilter_update_state f f' target dt s Hu).
Qed.

Lemma filter_update_returns_vad_witness :
  exists (f' : TemporalFilter) (s : VAD),
    TemporalFilter_update
      (mkTemporalFilter 2 (6 / 10) (12 / 10) (25 / 100) (5, -7, 0))
      [30; -40; 0; 9] 1 = Ok (f', s)
    /\ (forall k : Axis, -1 <= component k s <= 1)
    /\ state f' = s.
Proof.
  destruct (TemporalFilter_update_axes
              (mkTemporalFilter 2 (6 / 10) (12 / 10) (25 / 100) (5, -7, 0))
              30 (-40) 0 [9] 1) as (s & Hu & _); try (simpl; lra).
  eexists. exists s. split; [exact Hu |].
  destruct (filter_update_returns_vad _ _ _ _ _ Hu) as (Hr & Hs & _).
  split; [exact Hr | exact Hs].
Defined.

(** X9.  The exceptions of [TemporalFilter.update].  An empty target
    raises [IndexError] whatever the time constants and the time step.  On
    a target that is not empty the axes are updated in order and the first
    failure wins: [tau_v = 0] raises [ZeroDivisionError] whatever the time
    step, and a non-zero [tau_v] with [-dt / tau_v >= 1024] overflows
    [math.exp] and raises [OverflowError].  With a time step [dt >= 0] and
    a target of three or more components, a zero time constant on a later
    axis behind positive ones raises [ZeroDivisionError]. *)
Theorem filter_update_errors (f : TemporalFilter) (dt : R) :
  TemporalFilter_update f [] dt = Raise IndexError
  /\ (forall t0 rest,
        tau_v f = 0 ->
        TemporalFilter_update f (t0 :: rest) dt = Raise ZeroDivisionError)
  /\ (forall t0 rest,
        tau_v f <> 0 -> 1024 <= - dt / tau_v f ->
        TemporalFilter_update f (t0 :: rest) dt = Raise OverflowError)
  /\ (0 <= dt ->
      forall t0 t1 t2 extra,
        (0 < tau_v f /\ tau_a f = 0)
        \/ (0 < tau_v f /\ 0 < tau_a f /\ tau_d f = 0) ->
        TemporalFilter_update f (t0 :: t1 :: t2 :: extra) dt
        = Raise ZeroDivisionError).
Proof.
  unfold TemporalFilter_update. destruct (state f) as [[c0 c1] c2].
  split; [reflexivity |]. split; [| split].
  - intros t0 rest Hz. cbn [zip3 for_each]. rewrite Hz.
    rewrite axis_update_zero_tau. reflexivity.
  - intros t0 rest Hv Hq. cbn [zip3 for_each].
    rewrite axis_update_overflow by assumption. reflexivity.
  - intros Hdt t0 t1 t2 extra [[Hv Ha] | (Hv & Ha & Hd)]; cbn [zip3 for_each].
    + rewrite (axis_update_Ok _ _ _ _ (tau_v f)) by assumption.
      cbn [mbind result_bind]. rewrite Ha, axis_update_zero_tau. reflexivity.
    + rewrite (axis_update_Ok _ _ _ _ (tau_v f)) by assumption.
      cbn [mbind result_bind].
      rewrite (axis_update_Ok _ _ _ _ (tau_a f)) by assumption.
      cbn [mbind result_bind]. rewrite Hd, axis_update_zero_tau. reflexivity.
Qed.

Lemma filter_update_errors_witness :
  TemporalFilter_update
    (mkTemporalFilter 0 (6 / 10) (12 / 10) (25 / 100) (0, 0, 0))
    [1; 1; 1] (16 / 1000) = Raise ZeroDivisionError
  /\ TemporalFilter_update
       (mkTemporalFilter 1 (6 / 10) (12 / 10) (25 / 100) (0, 0, 0))
       [1; 1; 1] (-1024) = Raise OverflowError
  /\ TemporalFilter_update
       (mkTemporalFilter 2 (6 / 10) 0 (25 / 100) (0, 0, 0))
       [1; 1; 1] (16 / 1000) = Raise ZeroDivisionError.
Proof.
  split; [| split].
  - destruct (filter_update_errors
                (mkTemporalFilter 0 (6 / 10) (12 / 10) (25 / 100) (0, 0, 0))
                (16 / 1000)) as (_ & Hz & _).
    apply Hz. reflexivity.
  - destruct (filter_update_errors
                (mkTemporalFilter 1 (6 / 10) (12 / 10) (25 / 100) (0, 0, 0))
                (-1024)) as (_ & _ & Ho & _).
    apply Ho; simpl; lra.
  - destruct (filter_update_errors
                (mkTemporalFilter 2 (6 / 10) 0 (25 / 100) (0, 0, 0))
                (16 / 1000)) as (_ & _ & _ & Hl).
    apply Hl; [lra |]. right. simpl. split; [lra |]. split; [lra | reflexivity].
Defined.

(** The smoothing factor for a non-negative time step. *)
Lemma alpha_range_weak (dt tau : R) :
  0 <= dt -> 0 < tau -> 0 <= 1 - exp (- dt / tau) < 1.
Proof.
  intros Hdt Htau. destruct (Rle_lt_or_eq_dec 0 dt Hdt) as [Hpos | <-].
  - destruct (alpha_range dt tau Hpos Htau). lra.
  - replace (- 0 / tau) with 0 by (field; lra). rewrite exp_0. lra.
Qed.

(** X10.  One axis of the filter, from a value inside [-1, 1] with a
    positive time constant, a non-negative time step and step limit: the
    new value stays within [max_step * alpha] of the old one (so within
    [max_step]), lies between the old value and the target, and is no
    farther from the target than the old value was. *)
Theorem axis_update_rate_limited (ms dt cur t tau x : R) :
  0 <= dt -> 0 < tau -> 0 <= ms -> -1 <= cur <= 1 ->
  axis_update ms dt cur t tau = Ok x ->
  Rabs (x - cur) <= ms * (1 - exp (- dt / tau))
  /\ Rabs (x - cur) <= ms
  /\ Rmin cur t <= x <= Rmax cur t
  /\ Rabs (x - t) <= Rabs (cur - t).
Proof.
  intros Hdt Htau Hms Hcur Hx.
  rewrite axis_update_Ok in Hx by lra. injection Hx as <-.
  destruct (alpha_range_weak dt tau Hdt Htau) as [Ha0 Ha1].
  set (alpha := 1 - exp (- dt / tau)) in *.
  unfold lerp.
  set (step := clamp (t - cur) (- ms) ms).
  assert (Hstep : (0 <= step <= t - cur /\ step <= ms)
                  \/ (t - cur <= step <= 0 /\ - ms <= step)).
  { unfold step. destruct (Rle_dec 0 (t - cur)) as [Hpos | Hneg].
    - left. destruct (Rle_dec (t - cur) ms).
      + rewrite clamp_inside by lra. lra.
      + rewrite clamp_above by lra. lra.
    - right. destruct (Rle_dec (- ms) (t - cur)).
      + rewrite clamp_inside by lra. lra.
      + rewrite clamp_below by lra. lra. }
  replace (cur + (cur + step - cur) * alpha) with (cur + step * alpha) by ring.
  assert (Hin : -1 <= cur + step * alpha <= 1 \/ 1 < cur + step * alpha
                \/ cur + step * alpha < -1) by lra.
  assert (Hc : clamp (cur + step * alpha) (-1) 1 = cur + step * alpha
               \/ (clamp (cur + step * alpha) (-1) 1 = 1
                   /\ 1 < cur + step * alpha)
               \/ (clamp (cur + step * alpha) (-1) 1 = -1
                   /\ cur + step * alpha < -1)).
  { destruct Hin as [Hin | [Hin | Hin]].
    - left. apply clamp_inside. exact Hin.
    - right. left. split; [apply clamp_above; lra | exact Hin].
    - right. right. split; [apply clamp_below; lra | exact Hin]. }
  unfold Rmin, Rmax. destruct (Rle_dec cur t);
    destruct Hstep as [[[Hs0 Hs1] Hs2] | [[Hs0 Hs1] Hs2]];
    destruct Hc as [-> | [[-> Hc] | [-> Hc]]];
    (split; [apply Rabs_le | split; [apply Rabs_le | split;
       [| unfold Rabs; repeat destruct (Rcase_abs _)]]]); nra.
Qed.

Lemma axis_update_rate_limited_witness :
  exists x : R,
    axis_update (25 / 100) (16 / 1000) 0 1 (6 / 10) = Ok x
    /\ Rabs (x - 0) <= 25 / 100 * (1 - exp (- (16 / 1000) / (6 / 10)))
    /\ Rabs (x - 0) <= 25 / 100
    /\ Rmin 0 1 <= x <= Rmax 0 1
    /\ Rabs (x - 1) <= Rabs (0 - 1).
Proof.
  eexists. split; [apply axis_update_Ok; lra |].
  apply (axis_update_rate_limited (25 / 100) (16 / 1000) 0 1 (6 / 10));
    try lra.
  apply axis_update_Ok; lra.
Defined.

(** A filter whose target is its own state stays where it is. *)
Lemma filter_update_at_target (f : TemporalFilter) (dt : R) :
  0 <= dt -> 0 < tau_v f -> 0 < tau_a f -> 0 < tau_d f -> 0 <= max_step f ->
  (forall k : Axis, -1 <= component k (state f) <= 1) ->
  TemporalFilter_update f (vad_list (state f)) dt = Ok (f, state f).
Proof.
  intros Hdt Hv Ha Hd Hms Hin.
  pose proof (Hin Valence) as H0. pose proof (Hin Arousal) as H1.
  pose proof (Hin Dominance) as H2.
  destruct f as [tv ta td ms [[c0 c1] c2]]. simpl in *.
  unfold TemporalFilter_update.
  cbn [state tau_v tau_a tau_d max_step zip3 for_each vad_list].
  rewrite !axis_update_Ok by assumption. unfold lerp.
  cbn [mbind result_bind py_index lookup list_lookup].
  replace (c0 - c0) with 0 by ring. replace (c1 - c1) with 0 by ring.
  replace (c2 - c2) with 0 by ring.
  rewrite (clamp_inside 0 (- ms) ms) by lra.
  replace (c0 + (c0 + 0 - c0) * (1 - exp (- dt / tv))) with c0 by ring.
  replace (c1 + (c1 + 0 - c1) * (1 - exp (- dt / ta))) with c1 by ring.
  replace (c2 + (c2 + 0 - c2) * (1 - exp (- dt / td))) with c2 by ring.
  rewrite !clamp_inside by lra. reflexivity.
Qed.

(** X11.  [TemporalFilter.update] is a no-op in two cases, for a state
    inside [-1, 1]: when the time step is 0, for non-zero time constants
    and any target of three or more components; and when the target is the
    current state, for a time step [dt >= 0], positive time constants and a
    non-negative step limit. *)
Theorem filter_update_noop (f : TemporalFilter) (dt : R) :
  (forall k : Axis, -1 <= component k (state f) <= 1) ->
  (tau_v f <> 0 -> tau_a f <> 0 -> tau_d f <> 0 ->
   forall t0 t1 t2 extra,
     TemporalFilter_update f (t0 :: t1 :: t2 :: extra) 0
     = Ok (f, state f))
  /\ (0 <= dt -> 0 < tau_v f -> 0 < tau_a f -> 0 < tau_d f ->
      0 <= max_step f ->
      TemporalFilter_update f (vad_list (state f)) dt = Ok (f, state f)).
Proof.
  intros Hin. split.
  - intros Hv Ha Hd.
    pose proof (Hin Valence) as H0. pose proof (Hin Arousal) as H1.
    pose proof (Hin Dominance) as H2.
    destruct f as [tv ta td ms [[c0 c1] c2]]. simpl in *.
    assert (Hq : forall tau, tau <> 0 -> - 0 / tau = 0).
    { intros tau Htau. field. exact Htau. }
    assert (Hzero : forall tau, tau <> 0 -> 1 - exp (- 0 / tau) = 0).
    { intros tau Htau. rewrite Hq by exact Htau. rewrite exp_0. lra. }
    intros t0 t1 t2 extra. unfold TemporalFilter_update.
    cbn [state tau_v tau_a tau_d max_step zip3 for_each].
    rewrite !axis_update_Ok_gen by (try assumption; rewrite Hq by assumption; lra).
    rewrite !Hzero by assumption.
    unfold lerp. cbn [mbind result_bind py_index lookup list_lookup].
    rewrite !Rmult_0_r, !Rplus_0_r, !clamp_inside by lra. reflexivity.
  - intros Hdt Hv Ha Hd Hms. apply filter_update_at_target; assumption.
Qed.

Lemma filter_update_noop_witness :
  TemporalFilter_update TemporalFilter_default [1; 1; 1] 0
  = Ok (TemporalFilter_default, state TemporalFilter_default)
  /\ TemporalFilter_update TemporalFilter_default
       (vad_list (state TemporalFilter_default)) 5
     = Ok (TemporalFilter_default, state TemporalFilter_default).
Proof.
  destruct (filter_update_noop TemporalFilter_default 5) as [Hdt Hfix].
  { intros [| |]; simpl; lra. }
  split; [apply Hdt; simpl; lra | apply Hfix; simpl; lra].
Defined.

(** While the target, itself at most 1, is strictly ahead, one axis moves
    strictly up and stays strictly below the target. *)
Lemma axis_update_strictly_below (ms dt cur t tau x : R) :
  0 < dt -> 0 < tau -> 0 < ms -> -1 <= cur -> cur < t -> t <= 1 ->
  axis_update ms dt cur t tau = Ok x ->
  cur < x < t /\ -1 <= x.
Proof.
  intros Hdt Htau Hms Hlo Hlt Ht1 Hx.
  destruct (axis_update_strict ms dt cur t tau x) as (Hup & _ & _);
    try assumption; try lra.
  split; [split; [exact Hup |] | lra].
  rewrite axis_update_Ok in Hx by lra. injection Hx as <-.
  destruct (alpha_range dt tau Hdt Htau) as [Ha0 Ha1].
  set (alpha := 1 - exp (- dt / tau)) in *.
  assert (Hstep : 0 < clamp (t - cur) (- ms) ms <= t - cur).
  { destruct (Rle_dec (t - cur) ms) as [Hs | Hs].
    - rewrite clamp_inside by lra. lra.
    - rewrite clamp_above by lra. lra. }
  set (step := clamp (t - cur) (- ms) ms) in *.
  assert (Hn : cur < lerp cur (cur + step) alpha < t) by (unfold lerp; nra).
  rewrite clamp_inside by lra. lra.
Qed.

(** Held towards a target that is ahead, every later state of the axis
    lies strictly between the starting value and the target. *)
Lemma filter_trace_between (k : Axis) (tv : VAD) (dts : list R) :
  Forall (fun dt => 0 < dt) dts -> component k tv <= 1 ->
  forall f : TemporalFilter,
    0 < tau_v f -> 0 < tau_a f -> 0 < tau_d f -> 0 < max_step f ->
    -1 <= component k (state f) ->
    component k (state f) < component k tv ->
    exists ss : list VAD,
      filter_trace f (vad_list tv) dts = Ok ss
      /\ length ss = length dts
      /\ Forall (fun s => component k (state f) < component k s
                          < component k tv) ss.
Proof.
  intros Hdts Ht1. induction Hdts as [| dt rest Hdt Hrest IH];
    intros f Hv Ha Hd Hms Hlo Hlt.
  - exists []. simpl. split; [reflexivity |]. split; [reflexivity |].
    constructor.
  - destruct tv as [[t0 t1] t2] eqn:Htv.
    destruct (TemporalFilter_update_axes f t0 t1 t2 [] dt) as (s & Hu & Hax);
      try lra.
    assert (Hk : component k (state f) < component k s < component k tv
                 /\ -1 <= component k s).
    { subst tv.
      apply (axis_update_strictly_below (max_step f) dt _ _ (axis_tau k f));
        try assumption; [destruct k; assumption | apply Hax]. }
    destruct Hk as [Hmove Hrange].
    set (f' := mkTemporalFilter (tau_v f) (tau_a f) (tau_d f) (max_step f) s)
      in *.
    destruct (IH f') as (ss & Htr & Hlen & Hall); try assumption.
    { subst tv. apply Hmove. }
    exists (s :: ss). simpl vad_list in *. simpl filter_trace.
    rewrite Hu. simpl. rewrite Htr. simpl.
    split; [reflexivity |]. split; [simpl; congruence |].
    subst tv. constructor; [exact Hmove |].
    eapply Forall_impl; [exact Hall |].
    intros x Hx. cbn [f' state] in Hx. lra.
Qed.

(** X12.  The repository test [test_temporal_filter_smooths_step_change],
    for any number [n >= 1] of updates after the first: the default filter
    is driven towards (1, 1, 1) with a time step of 0.016; every update
    returns, and the arousal after the first update is strictly below the
    arousal after the last one, which is strictly below 1.  (The test has
    [n = 120].) *)
Theorem step_response_test (n : nat) :
  (1 <= n)%nat ->
  exists (ss : list VAD) (first last : VAD),
    filter_trace TemporalFilter_default [1; 1; 1]
                 (replicate (S n) (16 / 1000)) = Ok ss
    /\ length ss = S n
    /\ ss !! 0%nat = Some first /\ ss !! n = Some last
    /\ component Arousal first < component Arousal last < 1.
Proof.
  intros Hn.
  destruct (filter_trace_between Arousal (1, 1, 1) [16 / 1000])
    with (f := TemporalFilter_default)
    as (ss1 & Htr1 & Hlen1 & Hall1);
    try (simpl; lra); [repeat constructor; lra |].
  destruct ss1 as [| s1 [| ? ?]]; simpl in Hlen1; try discriminate.
  inversion Hall1 as [| ? ? Hs1 _]; subst. cbn [component] in Hs1.
  simpl in Hs1.
  cbn [filter_trace vad_list] in Htr1.
  destruct (TemporalFilter_update TemporalFilter_default [1; 1; 1]
              (16 / 1000)) as [[f1 s1'] | |] eqn:Hu;
    cbn [mbind result_bind] in Htr1; try discriminate.
  injection Htr1 as <-.
  destruct (TemporalFilter_update_state _ _ _ _ _ Hu)
    as (Hst & Hv & Ha & Hd & Hm).
  destruct (filter_trace_between Arousal (1, 1, 1) (replicate n (16 / 1000)))
    with (f := f1) as (ss & Htr & Hlen & Hall);
    try (rewrite ?Hv, ?Ha, ?Hd, ?Hm, ?Hst; simpl; lra).
  { apply Forall_replicate. lra. }
  rewrite length_replicate in Hlen.
  destruct (lookup_lt_is_Some_2 ss (n - 1)%nat) as [last Hlast]; [lia |].
  exists (s1' :: ss), s1', last.
  split.
  { cbn [replicate filter_trace]. rewrite Hu. cbn [mbind result_bind].
    cbn [vad_list] in Htr. rewrite Htr. reflexivity. }
  split; [simpl; congruence |]. split; [reflexivity |].
  split.
  { destruct n as [| m]; [lia |]. cbn [lookup list_lookup].
    replace (S m - 1)%nat with m in Hlast by lia. exact Hlast. }
  pose proof (Forall_lookup_1 _ _ _ _ Hall Hlast) as Hb.
  rewrite Hst in Hb. simpl in Hb. exact Hb.
Qed.

Lemma step_response_test_witness :
  exists (ss : list VAD) (first last : VAD),
    filter_trace TemporalFilter_default [1; 1; 1]
                 (replicate 121 (16 / 1000)) = Ok ss
    /\ length ss = 121%nat
    /\ ss !! 0%nat = Some first /\ ss !! 120%nat = Some last
    /\ component Arousal first < component Arousal last < 1.
Proof.
  apply (step_response_test 120). lia.
Defined.

(** ** EmotionEnergyModel.update *)

Lemma energy_update_calm (m : EmotionEnergyModel) (t : VAD) :
  0 <= energy m <= 10 -> 0 <= decay_per_frame m <= 1 ->
  EmotionEnergyModel_update m (vad_list t) t
  = (mkEnergyModel (decay_per_frame m) (energy m * decay_per_frame m),
     energy m * decay_per_frame m).
Proof.
  intros He Hd. unfold EmotionEnergyModel_update.
  rewrite delta_is_mean_abs_divergence.
  destruct t as [[t1 t2] t3]. unfold mean_abs_divergence.
  replace (t1 - t1) with 0 by ring. replace (t2 - t2) with 0 by ring.
  replace (t3 - t3) with 0 by ring. rewrite Rabs_R0.
  replace (energy m + (0 + 0 + 0) / 3) with (energy m) by lra.
  rewrite clamp_inside by nra. reflexivity.
Qed.

(** X13.  Absent divergence the energy decays geometrically: fed [n]
    pairs whose target equals the smoothed value, a model with energy [e]
    in [0, 10] and decay factor [d] in [0, 1] returns [e * d ^ (k + 1)] on
    the update of index [k]. *)
Theorem energy_calm_decay (t : VAD) (n : nat) :
  forall (m : EmotionEnergyModel),
    0 <= energy m <= 10 -> 0 <= decay_per_frame m <= 1 ->
    length (energy_trace m (replicate n (t, t))) = n
    /\ forall k : nat,
         (k < n)%nat ->
         energy_trace m (replicate n (t, t)) !! k
         = Some (energy m * decay_per_frame m ^ S k).
Proof.
  induction n as [| n IH]; intros m He Hd.
  - split; [reflexivity | intros k Hk; lia].
  - cbn [replicate energy_trace].
    rewrite (energy_update_calm m t He Hd).
    destruct (IH (mkEnergyModel (decay_per_frame m)
                    (energy m * decay_per_frame m))) as [Hlen Hk];
      [simpl; nra | exact Hd |].
    split; [simpl; congruence |].
    intros [| k] Hlt; cbn [lookup list_lookup].
    + f_equal. simpl. ring.
    + change ((energy_trace
                 (mkEnergyModel (decay_per_frame m)
                    (energy m * decay_per_frame m))
                 (replicate n (t, t))) !! k
              = Some (energy m * decay_per_frame m ^ S (S k))).
      rewrite Hk by lia. f_equal. simpl. ring.
Qed.

Lemma energy_calm_decay_witness :
  length (energy_trace (mkEnergyModel (995 / 1000) 4)
            (replicate 3 ((0, 0, 0), (0, 0, 0)))) = 3%nat
  /\ forall k : nat,
       (k < 3)%nat ->
       energy_trace (mkEnergyModel (995 / 1000) 4)
         (replicate 3 ((0, 0, 0), (0, 0, 0))) !! k
       = Some (4 * (995 / 1000) ^ S k).
Proof.
  apply (energy_calm_decay (0, 0, 0) 3 (mkEnergyModel (995 / 1000) 4));
    simpl; lra.
Defined.

(** X14.  One update on VAD triples inside [-1, 1], from an energy in
    [0, 10] with a decay factor in [0, 1]: the energy falls no faster than
    the decay alone would make it and rises by at most the mean
    divergence, which is at most 2. *)
Theorem energy_update_bounds (m : EmotionEnergyModel) (t s : VAD) :
  0 <= energy m <= 10 -> 0 <= decay_per_frame m <= 1 ->
  (forall k : Axis, -1 <= component k t <= 1) ->
  (forall k : Axis, -1 <= component k s <= 1) ->
  let e' := (EmotionEnergyModel_update m (vad_list t) s).2 in
  energy m * decay_per_frame m <= e'
  /\ e' <= energy m + mean_abs_divergence t s
  /\ 0 <= mean_abs_divergence t s <= 2.
Proof.
  intros He Hd Ht Hs. cbn zeta. unfold EmotionEnergyModel_update.
  cbn [snd]. rewrite delta_is_mean_abs_divergence.
  assert (Hdelta : 0 <= mean_abs_divergence t s <= 2).
  { pose proof (Ht Valence). pose proof (Ht Arousal).
    pose proof (Ht Dominance). pose proof (Hs Valence).
    pose proof (Hs Arousal). pose proof (Hs Dominance).
    destruct t as [[t1 t2] t3], s as [[s1 s2] s3]. simpl in *.
    unfold mean_abs_divergence.
    assert (Hab : forall x y, -1 <= x <= 1 -> -1 <= y <= 1 ->
                              0 <= Rabs (x - y) <= 2).
    { intros x y Hx Hy. split; [apply Rabs_pos | apply Rabs_le; lra]. }
    pose proof (Hab t1 s1). pose proof (Hab t2 s2). pose proof (Hab t3 s3).
    lra. }
  set (delta := mean_abs_divergence t s) in *.
  set (x := (energy m + delta) * decay_per_frame m).
  assert (Hx : energy m * decay_per_frame m <= x <= energy m + delta)
    by (unfold x; nra).
  assert (Hx0 : 0 <= x) by (unfold x; nra).
  split; [| split; [| exact Hdelta]].
  - destruct (Rle_dec x 10).
    + rewrite clamp_inside by lra. lra.
    + rewrite clamp_above by lra. nra.
  - destruct (Rle_dec x 10).
    + rewrite clamp_inside by lra. lra.
    + rewrite clamp_above by lra. lra.
Qed.

Lemma energy_update_bounds_witness :
  let e' := (EmotionEnergyModel_update EmotionEnergyModel_default
               (vad_list (1, -1, 0)) (0, 0, 0)).2 in
  energy EmotionEnergyModel_default
  * decay_per_frame EmotionEnergyModel_default <= e'
  /\ e' <= energy EmotionEnergyModel_default
           + mean_abs_divergence (1, -1, 0) (0, 0, 0)
  /\ 0 <= mean_abs_divergence (1, -1, 0) (0, 0, 0) <= 2.
Proof.
  apply (energy_update_bounds EmotionEnergyModel_default (1, -1, 0)
           (0, 0, 0)); try (simpl; lra); intros [| |]; simpl; lra.
Defined.

(** ** FluidSimulation.reset *)

Lemma append_blobs_Forall (make : Rng -> Blob * Rng) (P : Blob -> Prop) :
  (forall g, rng_ok g -> P (make g).1 /\ rng_ok (make g).2) ->
  forall (n : nat) (bs : list Blob) (g : Rng),
    rng_ok g -> Forall P bs -> Forall P (append_blobs make n bs g).1.
Proof.
  intros Hmake. induction n as [| n IH]; intros bs g Hg Hbs; simpl.
  - exact Hbs.
  - destruct (Hmake g Hg) as [HP Hg']. destruct (make g) as [b g'].
    apply IH; [exact Hg' |]. apply Forall_app. split; [exact Hbs |].
    constructor; [exact HP | constructor].
Qed.

Lemma reset_blob_fresh (sim : FluidSimulation) (params : VisualParams)
  (g : Rng) :
  0 < width sim -> 0 <= height sim -> rng_ok g ->
  fresh_blob sim params (reset_blob sim params g).1
  /\ rng_ok (reset_blob sim params g).2.
Proof.
  intros Hw Hh Hg. split; [| exact Hg].
  unfold reset_blob, uniform, gauss, random, fresh_blob, in_domain.
  cbn [fst snd position velocity radius color uniforms ucursor].
  pose proof (Hg (ucursor g)) as H0. pose proof (Hg (S (ucursor g))) as H1.
  pose proof (Hg (S (S (ucursor g)))) as H2.
  pose proof (Hg (S (S (S (ucursor g))))) as H3.
  repeat split; try nra; try reflexivity.
  apply Rmax_l.
Qed.

(** X15.  [FluidSimulation.reset] in a domain of positive width and
    non-negative height, with draws in [0, 1): the previous blobs are
    dropped and exactly [max(blob_count, 0)] blobs are created, each inside
    the domain, with both velocity components in [-0.05, 0.05), a radius of
    at least 0.01 and the colour [params.rgb_primary]; the module-level
    generator is not touched and the constants of the simulation are
    kept. *)
Theorem reset_contract (sim : FluidSimulation) (params : VisualParams)
  (w : World) :
  0 < width sim -> 0 <= height sim -> rng_ok (seeded_rng w) ->
  let r := FluidSimulation_reset sim params w in
  length (blobs r.1) = Z.to_nat (blob_count params)
  /\ Forall (fresh_blob sim params) (blobs r.1)
  /\ global_rng r.2 = global_rng w
  /\ width r.1 = width sim /\ height r.1 = height sim
  /\ damping_base r.1 = damping_base sim.
Proof.
  intros Hw Hh Hg. cbn zeta. unfold FluidSimulation_reset.
  pose proof (append_blobs_length (reset_blob sim params)
                (Z.to_nat (blob_count params)) [] (seeded_rng w)) as Hlen.
  pose proof (append_blobs_Forall (reset_blob sim params)
                (fresh_blob sim params)
                (fun g Hg => reset_blob_fresh sim params g Hw Hh Hg)
                (Z.to_nat (blob_count params)) [] (seeded_rng w) Hg
                (Forall_nil_2 _)) as Hall.
  destruct (append_blobs _ _ _ _) as [bs g]. simpl in *.
  repeat split; assumption || reflexivity.
Qed.

Lemma reset_contract_witness :
  let r := FluidSimulation_reset two_blobs (params_still 4) (world_const 0) in
  length (blobs r.1) = Z.to_nat (blob_count (params_still 4))
  /\ Forall (fresh_blob two_blobs (params_still 4)) (blobs r.1)
  /\ global_rng r.2 = global_rng (world_const 0)
  /\ width r.1 = width two_blobs /\ height r.1 = height two_blobs
  /\ damping_base r.1 = damping_base two_blobs.
Proof.
  apply (reset_contract two_blobs (params_still 4) (world_const 0));
    try (simpl; lra).
  apply rng_const_ok. lra.
Defined.

(** ** FluidSimulation._curl_noise and the integration *)

Lemma curl_noise_bounded (x y t : R) :
  Rabs (curl_noise x y t).1 <= 1 /\ Rabs (curl_noise x y t).2 <= 1.
Proof.
  unfold curl_noise. cbn [fst snd].
  pose proof (SIN_bound (3 * y + 17 / 10 * t)).
  pose proof (SIN_bound (7 * y - 6 / 10 * t)).
  pose proof (COS_bound (3 * x - 13 / 10 * t)).
  pose proof (COS_bound (5 * x + 8 / 10 * t)).
  split; apply Rabs_le; lra.
Qed.

(** X16.  The procedural field and one integration step.  Each component
    of [_curl_noise] is bounded by 1 in magnitude, the first depending only
    on [y] and [t], the second only on [x] and [t]; and the integration of
    a blob keeps its radius, sets its colour to [params.rgb_primary] and
    leaves each velocity component no larger in magnitude than
    [|damping| * (|v| + (|turbulence| + |bias|) * |dt|)], with
    [damping = damping_base - (1 - viscosity) * 0.02]. *)
Theorem integrate_blob_bounds (sim : FluidSimulation)
  (params : VisualParams) (dt t : R) (b b' : Blob) :
  integrate_blob sim params dt t b = Ok b' ->
  let damping := damping_base sim - (1 - viscosity params) * (2 / 100) in
  (forall x y x' y', (curl_noise x y t).1 = (curl_noise x' y t).1
                     /\ (curl_noise x y t).2 = (curl_noise x y' t).2
                     /\ Rabs (curl_noise x y t).1 <= 1
                     /\ Rabs (curl_noise x y t).2 <= 1)
  /\ radius b' = radius b /\ color b' = rgb_primary params
  /\ Rabs (velocity b').1
     <= Rabs damping * (Rabs (velocity b).1
                        + (Rabs (turbulence params)
                           + Rabs (gravity_x params)) * Rabs dt)
  /\ Rabs (velocity b').2
     <= Rabs damping * (Rabs (velocity b).2
                        + (Rabs (turbulence params)
                           + Rabs (buoyancy params)) * Rabs dt).
Proof.
  intros Hint. cbn zeta. split.
  { intros x y x' y'. destruct (curl_noise_bounded x y t).
    repeat split; try assumption; reflexivity. }
  unfold integrate_blob in Hint.
  destruct (position b) as [px py], (velocity b) as [vx vy].
  pose proof (curl_noise_bounded px py t) as [Hcx Hcy].
  destruct (curl_noise px py t) as [cx cy]. cbn [fst snd] in *.
  apply bind_Ok in Hint as (px' & _ & Hint). injection Hint as <-.
  cbn [radius color velocity fst snd].
  split; [reflexivity |]. split; [reflexivity |].
  assert (Hbound : forall v c turb bias,
             Rabs c <= 1 ->
             Rabs ((v + (c * turb + bias) * dt)
                   * (damping_base sim
                      - (1 - viscosity params) * (2 / 100)))
             <= Rabs (damping_base sim
                      - (1 - viscosity params) * (2 / 100))
                * (Rabs v + (Rabs turb + Rabs bias) * Rabs dt)).
  { intros v c turb bias Hc. rewrite Rabs_mult, Rmult_comm.
    apply Rmult_le_compat_l; [apply Rabs_pos |].
    eapply Rle_trans; [apply Rabs_triang |].
    apply Rplus_le_compat_l. rewrite Rabs_mult.
    apply Rmult_le_compat_r; [apply Rabs_pos |].
    eapply Rle_trans; [apply Rabs_triang |].
    apply Rplus_le_compat_r. rewrite Rabs_mult.
    pose proof (Rabs_pos turb). pose proof (Rabs_pos c). nra. }
  split; apply Hbound; assumption.
Qed.

Lemma integrate_blob_bounds_witness :
  exists b' : Blob,
    integrate_blob two_blobs (params_still 2) (16 / 1000) 0
      (blob_at (1 / 2) (1 / 2) 0 0 (1 / 10)) = Ok b'
    /\ radius b' = 1 / 10 /\ color b' = rgb_primary (params_still 2).
Proof.
  assert (Hint : integrate_blob two_blobs (params_still 2) (16 / 1000) 0
                   (blob_at (1 / 2) (1 / 2) 0 0 (1 / 10))
                 = Ok (mkBlob (1 / 2, 1 / 2) (0, 0) (1 / 10)
                         (rgb_primary (params_still 2)))).
  { apply integrate_blob_still; simpl; lra || reflexivity. }
  eexists. split; [exact Hint |].
  destruct (integrate_blob_bounds _ _ _ _ _ _ Hint) as (_ & Hr & Hc & _).
  split; [exact Hr | exact Hc].
Defined.

(** ** FluidSimulation._merge_and_split as a whole *)

Lemma total_area_app (l1 l2 : list Blob) :
  total_area (l1 ++ l2) = total_area l1 + total_area l2.
Proof. induction l1 as [| b l1 IH]; simpl; [lra | rewrite IH; lra]. Qed.

Lemma total_area_insert (l : list Blob) :
  forall (i : nat) (a x : Blob),
    l !! i = Some a ->
    total_area (<[i := x]> l)
    = total_area l - radius a * radius a + radius x * radius x.
Proof.
  induction l as [| b l IH]; intros [| i] a x Hi; simpl in *;
    try discriminate.
  - injection Hi as ->. lra.
  - rewrite (IH i a x Hi). lra.
Qed.

Lemma total_area_delete (l : list Blob) :
  forall (j : nat) (b : Blob),
    l !! j = Some b ->
    total_area (delete j l) = total_area l - radius b * radius b.
Proof.
  induction l as [| c l IH]; intros [| j] b Hj; simpl in *;
    try discriminate.
  - injection Hj as ->. lra.
  - rewrite (IH j b Hj). lra.
Qed.

Lemma merge_iter_area (nd : R) (i j : nat) (bs : list Blob) (g : Rng)
  (j' : nat) (bs' : list Blob) (g' : Rng) :
  (i < j)%nat -> merge_iter nd i j bs g = Ok (j', bs', g') ->
  total_area bs' = total_area bs /\ (i < j')%nat
  /\ (bs <> [] -> bs' <> []).
Proof.
  intros Hij. unfold merge_iter.
  destruct (bs !! i) as [a |] eqn:Ha; [| discriminate].
  destruct (bs !! j) as [b |] eqn:Hb; [| discriminate].
  assert (Hskip : forall g0, Ok (S j, bs, g0) = Ok (j', bs', g') ->
            total_area bs' = total_area bs /\ (i < j')%nat
            /\ (bs <> [] -> bs' <> [])).
  { intros g0 H. injection H as <- <- <-. split; [reflexivity |].
    split; [lia | auto]. }
  destruct (Rlt_dec _ _); [| apply Hskip].
  simpl. destruct (Rlt_dec _ _); [| apply Hskip].
  intros H. injection H as <- <- <-.
  assert (Hb' : <[i := absorb a b]> bs !! j = Some b).
  { rewrite list_lookup_insert_ne by lia. exact Hb. }
  split; [| split; [exact Hij |]].
  - rewrite (total_area_delete _ j b Hb').
    rewrite (total_area_insert _ i a _ Ha). rewrite absorb_radius. lra.
  - intros _ Hnil.
    assert (Hlen : length (delete j (<[i := absorb a b]> bs)) = 0%nat)
      by (rewrite Hnil; reflexivity).
    rewrite length_delete in Hlen by (rewrite Hb'; eauto).
    rewrite length_insert in Hlen.
    pose proof (lookup_lt_Some _ _ _ Hb). lia.
Qed.

Lemma merge_inner_area (nd : R) (i : nat) :
  forall (fuel j : nat) (bs : list Blob) (g : Rng) bs' g',
    (i < j)%nat -> merge_inner fuel nd i j bs g = Ok (bs', g') ->
    total_area bs' = total_area bs /\ (bs <> [] -> bs' <> []).
Proof.
  induction fuel as [| fuel IH]; intros j bs g bs' g' Hij H; simpl in H;
    destruct (decide (j < length bs)%nat); try discriminate;
    try (injection H as <- <-; auto).
  apply bind_Ok in H as ([[j1 bs1] g1] & Hit & H).
  destruct (merge_iter_area _ _ _ _ _ _ _ _ Hij Hit) as (Ha & Hij1 & Hne).
  destruct (IH _ _ _ _ _ Hij1 H) as [Ha' Hne'].
  split; [congruence | auto].
Qed.

Lemma merge_outer_area (nd : R) :
  forall (fuel i : nat) (bs : list Blob) (g : Rng) bs' g',
    merge_outer fuel nd i bs g = Ok (bs', g') ->
    total_area bs' = total_area bs /\ (bs <> [] -> bs' <> []).
Proof.
  induction fuel as [| fuel IH]; intros i bs g bs' g' H;
    cbn [merge_outer] in H;
    destruct (decide (i < length bs)%nat); try discriminate;
    try (injection H as <- <-; auto).
  apply bind_Ok in H as ([bs1 g1] & Hin & H).
  destruct (merge_inner_area nd i _ _ _ _ _ _ (Nat.lt_succ_diag_r i) Hin)
    as [Ha Hne].
  destruct (IH _ _ _ _ _ H) as [Ha' Hne'].
  split; [congruence | auto].
Qed.

Lemma shrink_area (b : Blob) :
  radius (shrink b) * radius (shrink b) = radius b * radius b / 2.
Proof.
  unfold shrink. simpl. pose proof sqrt2_gt_1 as H2.
  pose proof (sqrt_sqrt 2 ltac:(lra)) as Hsq.
  replace (radius b / sqrt 2 * (radius b / sqrt 2))
    with (radius b * radius b / (sqrt 2 * sqrt 2)) by (field; lra).
  rewrite Hsq. reflexivity.
Qed.

Lemma split_iter_area (sim : FluidSimulation) (na : R)
  (params : VisualParams) (idx : nat) (bs : list Blob) (g : Rng)
  (bs' : list Blob) (g' : Rng) :
  split_iter sim na params idx bs g = Ok (bs', g') ->
  total_area bs' = total_area bs /\ (length bs <= length bs')%nat.
Proof.
  unfold split_iter.
  destruct (bs !! idx) as [b |] eqn:Hb; [| discriminate].
  assert (Hskip : forall g0, Ok (bs, g0) = Ok (bs', g') ->
            total_area bs' = total_area bs /\ (length bs <= length bs')%nat).
  { intros g0 H. injection H as <- <-. split; [reflexivity | lia]. }
  destruct (Rgt_dec _ _); [| apply Hskip].
  simpl. destruct (Rlt_dec _ _); [| apply Hskip].
  intros H. apply bind_Ok in H as (child & Hchild & H).
  injection H as <- <-.
  unfold spawn in Hchild. apply bind_Ok in Hchild as (x & _ & Hchild).
  injection Hchild as <-.
  split.
  - rewrite total_area_app, (total_area_insert _ idx b _ Hb).
    cbn [total_area radius]. fold (shrink b). rewrite shrink_area.
    change (radius (shrink b)) with (radius b / sqrt 2).
    pose proof (shrink_area b) as Hs. unfold shrink in Hs. simpl in Hs.
    rewrite Hs. lra.
  - rewrite length_app, length_insert. lia.
Qed.

Lemma split_loop_area (sim : FluidSimulation) (na : R)
  (params : VisualParams) :
  forall (fuel idx : nat) (bs : list Blob) (g : Rng) bs' g',
    split_loop fuel sim na params idx bs g = Ok (bs', g') ->
    total_area bs' = total_area bs /\ (length bs <= length bs')%nat.
Proof.
  induction fuel as [| fuel IH]; intros idx bs g bs' g' H; simpl in H;
    destruct (decide (idx < length bs)%nat); try discriminate;
    try (injection H as <- <-; auto).
  apply bind_Ok in H as ([bs1 g1] & Hit & H).
  destruct (split_iter_area _ _ _ _ _ _ _ _ Hit) as [Ha Hl].
  destruct (IH _ _ _ _ _ H) as [Ha' Hl'].
  split; [congruence | lia].
Qed.

Section SplitScanInherit.
Variable sim : FluidSimulation.
Variable P : Blob -> Prop.
Hypothesis P_shrink : forall b, P b -> P (shrink b).
Hypothesis P_spawn : forall b c, P b -> spawn sim b = Ok c -> P c.

Lemma split_iter_inherits (na : R) (params : VisualParams) (idx : nat)
  (bs : list Blob) (g : Rng) (bs' : list Blob) (g' : Rng) :
  split_iter sim na params idx bs g = Ok (bs', g') ->
  Forall P bs -> Forall P bs'.
Proof.
  unfold split_iter. intros H Hall.
  destruct (bs !! idx) as [b |] eqn:Hb; [| discriminate].
  destruct (Rgt_dec _ _); [| injection H as <- <-; exact Hall].
  simpl in H.
  destruct (Rlt_dec _ _); [| injection H as <- <-; exact Hall].
  apply bind_Ok in H as (child & Hchild & H). injection H as <- <-.
  pose proof (P_shrink b (Forall_lookup_1 _ _ _ _ Hall Hb)) as Hsh.
  apply Forall_app. split.
  - apply Forall_insert; [exact Hall | exact Hsh].
  - constructor; [exact (P_spawn _ _ Hsh Hchild) | constructor].
Qed.

Lemma split_loop_inherits (na : R) (params : VisualParams) :
  forall (fuel idx : nat) (bs : list Blob) (g : Rng) bs' g',
    split_loop fuel sim na params idx bs g = Ok (bs', g') ->
    Forall P bs -> Forall P bs'.
Proof.
  induction fuel as [| fuel IH]; intros idx bs g bs' g' H Hall; simpl in H;
    destruct (decide (idx < length bs)%nat); try discriminate;
    try (injection H as <- <-; exact Hall).
  apply bind_Ok in H as ([bs1 g1] & Hit & H).
  eapply IH; [exact H |]. eapply split_iter_inherits; eauto.
Qed.
End SplitScanInherit.

Lemma absorb_radius_pos (a b : Blob) : 0 < radius a -> 0 < radius (absorb a b).
Proof.
  intros Ha. unfold absorb. simpl. apply sqrt_lt_R0. nra.
Qed.

Lemma shrink_radius_pos (b : Blob) : 0 < radius b -> 0 < radius (shrink b).
Proof.
  intros Hb. unfold shrink. simpl. pose proof sqrt2_gt_1.
  apply Rdiv_lt_0_compat; lra.
Qed.

Lemma spawn_radius (sim : FluidSimulation) (b c : Blob) :
  spawn sim b = Ok c -> radius c = radius b /\ color c = color b.
Proof.
  unfold spawn. intros H. apply bind_Ok in H as (x & _ & H).
  injection H as <-. split; reflexivity.
Qed.

(** A unary property of blobs that merging, shrinking and spawning hand
    on is kept by the whole pass. *)
Lemma merge_and_split_inherits (P : Blob -> Prop) (fuel : nat)
  (sim : FluidSimulation) (nd na : R) (params : VisualParams) (g : Rng)
  (sim' : FluidSimulation) (g' : Rng) :
  (forall a b, P a -> P (absorb a b)) ->
  (forall b, P b -> P (shrink b)) ->
  (forall b c, P b -> spawn sim b = Ok c -> P c) ->
  merge_and_split fuel sim nd na params g = Ok (sim', g') ->
  Forall P (blobs sim) -> Forall P (blobs sim').
Proof.
  intros Hab Hsh Hsp H Hall. unfold merge_and_split in H.
  apply bind_Ok in H as ([bs1 g1] & Hm & H).
  apply bind_Ok in H as ([bs2 g2] & Hs & H).
  injection H as <- <-. simpl.
  eapply (split_loop_inherits sim P Hsh Hsp); [exact Hs |].
  eapply (merge_outer_preserves P Hab); [exact Hm | exact Hall].
Qed.

Lemma merge_and_split_total (sim : FluidSimulation) (nd na : R)
  (params : VisualParams) (g : Rng) :
  width sim <> 0 -> 0 < blob_size_mean params ->
  exists fuel r, merge_and_split fuel sim nd na params g = Ok r.
Proof.
  intros Hw Hmean.
  destruct (merge_outer_total nd (length (blobs sim)) 0 (blobs sim) g)
    as (bs1 & g1 & Hm & _); [lia |].
  assert (HT : 0 < blob_size_mean params * (18 / 10)) by lra.
  destruct (budget_exists _ (drop 0 bs1) HT) as [N HN].
  destruct (split_loop_total sim na params Hw HT N N 0 bs1 g1 HN
              (Nat.le_refl N)) as (bs2 & g2 & Hs).
  exists (max (length (blobs sim)) N). eexists. unfold merge_and_split.
  rewrite (merge_outer_fuel_mono _ _ _ _ _ _ _ Hm) by lia.
  cbn [mbind result_bind].
  rewrite (split_loop_fuel_mono _ _ _ _ _ _ _ _ _ Hs) by lia.
  reflexivity.
Qed.

(** X17.  A completed [_merge_and_split] pass conserves the summed
    squared radii of the blobs (merges add areas, splits halve them), keeps
    every radius strictly positive if all were, never empties a non-empty
    simulation and leaves the constants of the simulation alone. *)
Theorem merge_and_split_conserves (fuel : nat) (sim : FluidSimulation)
  (nd na : R) (params : VisualParams) (g : Rng) (sim' : FluidSimulation)
  (g' : Rng) :
  merge_and_split fuel sim nd na params g = Ok (sim', g') ->
  total_area (blobs sim') = total_area (blobs sim)
  /\ (Forall (fun b => 0 < radius b) (blobs sim) ->
      Forall (fun b => 0 < radius b) (blobs sim'))
  /\ (blobs sim <> [] -> blobs sim' <> [])
  /\ width sim' = width sim /\ height sim' = height sim
  /\ damping_base sim' = damping_base sim.
Proof.
  intros H. split; [| split; [| split]].
  - unfold merge_and_split in H.
    apply bind_Ok in H as ([bs1 g1] & Hm & H).
    apply bind_Ok in H as ([bs2 g2] & Hs & H). injection H as <- <-.
    destruct (merge_outer_area _ _ _ _ _ _ _ Hm) as [Ha _].
    destruct (split_loop_area _ _ _ _ _ _ _ _ _ Hs) as [Ha' _].
    simpl. congruence.
  - apply (merge_and_split_inherits (fun b => 0 < radius b) fuel sim nd na
             params g sim' g' absorb_radius_pos shrink_radius_pos);
      [| exact H].
    intros b c Hb Hc. destruct (spawn_radius _ _ _ Hc) as [-> _]. exact Hb.
  - unfold merge_and_split in H.
    apply bind_Ok in H as ([bs1 g1] & Hm & H).
    apply bind_Ok in H as ([bs2 g2] & Hs & H). injection H as <- <-.
    destruct (merge_outer_area _ _ _ _ _ _ _ Hm) as [_ Hne].
    destruct (split_loop_area _ _ _ _ _ _ _ _ _ Hs) as [_ Hlen].
    simpl. intros Hsim Hnil. apply (Hne Hsim). rewrite Hnil in Hlen.
    simpl in Hlen. destruct bs1; [reflexivity | simpl in Hlen; lia].
  - unfold merge_and_split in H.
    apply bind_Ok in H as ([bs1 g1] & Hm & H).
    apply bind_Ok in H as ([bs2 g2] & Hs & H). injection H as <- <-.
    simpl. auto.
Qed.

Lemma merge_and_split_conserves_witness :
  exists fuel sim' g',
    merge_and_split fuel two_blobs 1 1 (params_still 2) (rng_const 0)
    = Ok (sim', g')
    /\ total_area (blobs sim') = total_area (blobs two_blobs)
    /\ Forall (fun b => 0 < radius b) (blobs sim')
    /\ blobs sim' <> [].
Proof.
  destruct (merge_and_split_total two_blobs 1 1 (params_still 2)
              (rng_const 0)) as (fuel & [sim' g'] & H);
    try (simpl; lra).
  exists fuel, sim', g'. split; [exact H |].
  destruct (merge_and_split_conserves _ _ _ _ _ _ _ _ H)
    as (Harea & Hpos & Hne & _).
  split; [exact Harea |]. split.
  - apply Hpos. unfold two_blobs, blob_at. simpl.
    repeat constructor; simpl; lra.
  - apply Hne. discriminate.
Defined.

(** ** A call of step that never returns *)

Lemma merge_iter_rng_ok (nd : R) (i j : nat) (bs : list Blob) (g : Rng)
  (j' : nat) (bs' : list Blob) (g' : Rng) :
  rng_ok g -> merge_iter nd i j bs g = Ok (j', bs', g') -> rng_ok g'.
Proof.
  intros Hg. unfold merge_iter.
  destruct (bs !! i); [| discriminate]. destruct (bs !! j); [| discriminate].
  destruct (Rlt_dec _ _); [| intros H; injection H as <- <- <-; exact Hg].
  simpl. destruct (Rlt_dec _ _); intros H; injection H as <- <- <-; exact Hg.
Qed.

Lemma merge_inner_outcome (nd : R) (i : nat) :
  forall (fuel j : nat) (bs : list Blob) (g : Rng),
    (i < j)%nat -> rng_ok g ->
    merge_inner fuel nd i j bs g = OutOfFuel
    \/ exists bs' g', merge_inner fuel nd i j bs g = Ok (bs', g')
                      /\ rng_ok g'.
Proof.
  induction fuel as [| fuel IH]; intros j bs g Hij Hg; simpl;
    destruct (decide (j < length bs)%nat) as [Hj | Hj]; eauto.
  destruct (merge_iter_progress nd i j bs g Hij Hj)
    as (j' & bs1 & g1 & Hit & Hij' & _ & _).
  rewrite Hit. cbn [mbind result_bind]. apply IH; [exact Hij' |].
  eapply merge_iter_rng_ok; eauto.
Qed.

Lemma merge_outer_outcome (nd : R) :
  forall (fuel i : nat) (bs : list Blob) (g : Rng),
    rng_ok g ->
    merge_outer fuel nd i bs g = OutOfFuel
    \/ exists bs' g', merge_outer fuel nd i bs g = Ok (bs', g')
                      /\ rng_ok g'.
Proof.
  induction fuel as [| fuel IH]; intros i bs g Hg; cbn [merge_outer];
    destruct (decide (i < length bs)%nat) as [Hi | Hi]; eauto.
  destruct (merge_inner_outcome nd i (S fuel) (S i) bs g
              (Nat.lt_succ_diag_r i) Hg) as [-> | (bs1 & g1 & -> & Hg1)];
    [left; reflexivity |].
  cbn [mbind result_bind]. apply IH. exact Hg1.
Qed.

(** With a negative threshold, blobs above it and [na >= 1], every turn
    of the split scan splits, so the list outgrows the index for ever. *)
Lemma split_loop_diverges (sim : FluidSimulation) (na : R)
  (params : VisualParams) :
  width sim <> 0 -> blob_size_mean params < 0 -> 1 <= na ->
  forall (fuel idx : nat) (bs : list Blob) (g : Rng),
    rng_ok g -> (idx < length bs)%nat ->
    Forall (fun b => blob_size_mean params * (18 / 10) < radius b) bs ->
    split_loop fuel sim na params idx bs g = OutOfFuel.
Proof.
  intros Hw Hmean Hna.
  induction fuel as [| fuel IH]; intros idx bs g Hg Hidx Hall; simpl;
    destruct (decide (idx < length bs)%nat) as [_ | Hn]; try lia;
    [reflexivity |].
  destruct (lookup_lt_is_Some_2 bs idx Hidx) as [b Hb].
  pose proof (Forall_lookup_1 _ _ _ _ Hall Hb) as Hbig.
  pose proof (Hg (ucursor g)) as Hu.
  destruct (split_iter_fires sim na params idx bs g b Hw Hb)
    as (child & Hchild & ->); [lra | simpl; lra |].
  cbn [mbind result_bind]. apply IH.
  - exact Hg.
  - rewrite length_app, length_insert. simpl. lia.
  - assert (Hsh : blob_size_mean params * (18 / 10) < radius (shrink b)).
    { unfold shrink. simpl. pose proof sqrt2_gt_1 as H2.
      destruct (Rle_dec 0 (radius b)) as [Hpos | Hneg].
      - assert (0 <= radius b / sqrt 2)
          by (apply Rmult_le_pos; [lra |];
              left; apply Rinv_0_lt_compat; lra).
        lra.
      - assert (radius b <= radius b / sqrt 2).
        { apply (Rmult_le_reg_r (sqrt 2)); [lra |].
          replace (radius b / sqrt 2 * sqrt 2) with (radius b)
            by (field; lra).
          nra. }
        lra. }
    apply Forall_app. split.
    + apply Forall_insert; [exact Hall | exact Hsh].
    + constructor; [| constructor].
      destruct (spawn_radius _ _ _ Hchild) as [-> _]. exact Hsh.
Qed.

Lemma reconcile_Forall (P : Blob -> Prop) (sim : FluidSimulation)
  (params : VisualParams) (w : World) :
  (forall g, P (reset_blob sim params g).1) ->
  (forall s g, P (grow_blob s params g).1) ->
  Forall P (blobs sim) -> Forall P (blobs (reconcile sim params w).1).
Proof.
  intros Hreset Hgrow Hall.
  assert (Happ : forall make n bs g,
             (forall g0, P (make g0).1) -> Forall P bs ->
             Forall P (append_blobs make n bs g).1).
  { intros make n. induction n as [| n IH]; intros bs g Hmake Hbs; simpl.
    - exact Hbs.
    - specialize (Hmake g) as Hb. destruct (make g) as [b g'].
      apply IH; [exact Hmake |]. apply Forall_app.
      split; [exact Hbs | constructor; [exact Hb | constructor]]. }
  assert (Hslice : forall bs n, Forall P bs -> Forall P (py_slice_to bs n)).
  { intros bs n Hbs. unfold py_slice_to.
    destruct (n <? 0)%Z; apply Forall_take; exact Hbs. }
  unfold reconcile, FluidSimulation_reset.
  destruct (blobs sim) as [| b0 bs0] eqn:Hbs.
  - pose proof (Happ (reset_blob sim params)
                  (Z.to_nat (blob_count params)) [] (seeded_rng w)
                  Hreset (Forall_nil_2 _)) as H1.
    destruct (append_blobs (reset_blob sim params) _ [] _) as [bs g].
    cbn [fst snd blobs with_blobs global_rng] in *.
    pose proof (Happ (grow_blob (with_blobs sim bs) params)
                  (Z.to_nat (blob_count params - Z.of_nat (length bs)))
                  bs (global_rng w) (Hgrow _) H1) as H2.
    destruct (append_blobs _ _ bs _) as [bs1 g1].
    cbn [fst snd blobs with_blobs] in *.
    destruct (blob_count params <? Z.of_nat (length bs1))%Z; auto.
  - rewrite !Hbs.
    pose proof (Happ (grow_blob sim params)
                  (Z.to_nat (blob_count params
                             - Z.of_nat (length (b0 :: bs0))))
                  (b0 :: bs0) (global_rng w) (Hgrow _) Hall) as H2.
    destruct (append_blobs _ _ (b0 :: bs0) _) as [bs1 g1].
    cbn [fst snd blobs with_blobs] in *.
    destruct (blob_count params <? Z.of_nat (length bs1))%Z; auto.
Qed.

Lemma integrate_blob_radius (sim : FluidSimulation) (params : VisualParams)
  (dt t : R) (b b' : Blob) :
  integrate_blob sim params dt t b = Ok b' ->
  radius b' = radius b /\ color b' = rgb_primary params.
Proof.
  unfold integrate_blob.
  destruct (position b) as [px py], (velocity b) as [vx vy].
  destruct (curl_noise px py t) as [cx cy].
  intros H. apply bind_Ok in H as (px' & _ & H). injection H as <-.
  split; reflexivity.
Qed.

Lemma for_each_Forall2 {A B : Type} (body : A -> result B)
  (P : A -> Prop) (Q : B -> Prop) (xs : list A) (ys : list B) :
  (forall x y, P x -> body x = Ok y -> Q y) ->
  for_each body xs = Ok ys -> Forall P xs -> Forall Q ys.
Proof.
  intros Hbody. revert ys. induction xs as [| x xs IH]; simpl; intros ys H Hxs.
  - injection H as <-. constructor.
  - apply bind_Ok in H as (y & Hy & H). apply bind_Ok in H as (ys' & Hys & H).
    injection H as <-. inversion Hxs; subst. constructor; eauto.
Qed.

(** X18.  [step] can hang.  With a negative [params.blob_size_mean] the
    split threshold is negative; if [na >= 1] every draw in [0, 1) is below
    [na], so every blob the split scan visits splits and appends a child
    that will split in turn.  For a target count of at least 1, a non-zero
    width and starting radii above the threshold (any non-negative radius
    is), the call never returns, whatever the fuel. *)
Theorem step_hangs_on_negative_mean (sim : FluidSimulation)
  (params : VisualParams) (nd na dt t : R) (w : World) :
  width sim <> 0 -> world_ok w ->
  blob_size_mean params < 0 -> 1 <= na -> (1 <= blob_count params)%Z ->
  Forall (fun b => blob_size_mean params * (18 / 10) < radius b)
         (blobs sim) ->
  forall fuel : nat,
    FluidSimulation_step fuel sim params nd na dt t w = OutOfFuel.
Proof.
  intros Hw Hok Hmean Hna Hcount Hall fuel.
  set (P := fun b => blob_size_mean params * (18 / 10) < radius b) in *.
  rewrite step_phases.
  destruct (reconcile_dims sim params w) as (Hw1 & _ & _).
  destruct (reconcile_world_ok sim params w Hok) as [Hg1 _].
  pose proof (reconcile_count sim params w ltac:(lia)) as Hlen.
  assert (Hall1 : Forall P (blobs (reconcile sim params w).1)).
  { apply reconcile_Forall; [| | exact Hall].
    - intros g. unfold P, reset_blob, uniform, gauss, random. cbn [fst radius].
      match goal with
      | |- _ < Rmax ?lo ?x => pose proof (Rmax_l lo x)
      end.
      lra.
    - intros s g. unfold P, grow_blob, random. cbn [fst radius]. lra. }
  set (sim1 := (reconcile sim params w).1) in *.
  set (w1 := (reconcile sim params w).2) in *.
  destruct (for_each_total (integrate_blob sim1 params dt t) (blobs sim1))
    as [bs Hint].
  { intros b. apply integrate_blob_Ok. rewrite Hw1. exact Hw. }
  rewrite Hint. cbn [mbind result_bind].
  assert (Hbs : Forall P bs).
  { eapply (for_each_Forall2 _ P P); [| exact Hint | exact Hall1].
    intros b b' Hb Hb'. unfold P.
    destruct (integrate_blob_radius _ _ _ _ _ _ Hb') as [-> _]. exact Hb. }
  assert (Hne : bs <> []).
  { intros ->. apply for_each_length in Hint. simpl in Hint. lia. }
  destruct (merge_outer_outcome nd fuel 0 bs (global_rng w1) Hg1)
    as [-> | (bs1 & g1 & Hm & Hg2)]; [reflexivity |].
  rewrite Hm. cbn [mbind result_bind].
  rewrite (split_loop_diverges (with_blobs sim1 bs) na params); try assumption.
  - reflexivity.
  - simpl. rewrite Hw1. exact Hw.
  - destruct (merge_outer_area _ _ _ _ _ _ _ Hm) as [_ Hne1].
    specialize (Hne1 Hne). destruct bs1; [contradiction | simpl; lia].
  - eapply (merge_outer_preserves P); [| exact Hm | exact Hbs].
    intros a b Ha. unfold P, absorb. cbn [radius].
    pose proof (sqrt_pos (radius a * radius a + radius b * radius b)). lra.
Qed.

Lemma step_hangs_on_negative_mean_witness :
  FluidSimulation_step 1000 two_blobs
    (mkVisualParams (0, 0, 0) (0, 0, 0) (1, 1, 1) 2 (- (1 / 10))
       0 1 0 0 0 0)
    0 1 (16 / 1000) 0 (world_const 0) = OutOfFuel.
Proof.
  apply (step_hangs_on_negative_mean two_blobs
           (mkVisualParams (0, 0, 0) (0, 0, 0) (1, 1, 1) 2 (- (1 / 10))
              0 1 0 0 0 0) 0 1 (16 / 1000) 0 (world_const 0));
    try (simpl; lra); try (simpl; lia).
  - split; apply rng_const_ok; lra.
  - unfold two_blobs, blob_at. simpl. repeat constructor; simpl; lra.
Defined.

(** ** What a completed step leaves behind *)

(** X19.  After a [step] call that returns, every blob has the colour
    [params.rgb_primary]; a target count of at least 1 leaves at least one
    blob (the merge scan never absorbs the first blob and the split scan
    only appends); and with a positive mean size, strictly positive radii
    stay strictly positive. *)
Theorem step_postconditions (fuel : nat) (sim : FluidSimulation)
  (params : VisualParams) (nd na dt t : R) (w : World)
  (sim' : FluidSimulation) (w' : World) :
  FluidSimulation_step fuel sim params nd na dt t w = Ok (sim', w') ->
  Forall (fun b => color b = rgb_primary params) (blobs sim')
  /\ ((1 <= blob_count params)%Z -> blobs sim' <> [])
  /\ (0 < blob_size_mean params ->
      Forall (fun b => 0 < radius b) (blobs sim) ->
      Forall (fun b => 0 < radius b) (blobs sim')).
Proof.
  rewrite step_phases.
  set (sim1 := (reconcile sim params w).1).
  set (w1 := (reconcile sim params w).2).
  intros H.
  apply bind_Ok in H as (bs & Hint & H).
  apply bind_Ok in H as ([bs1 g1] & Hm & H).
  apply bind_Ok in H as ([bs2 g2] & Hs & H).
  injection H as <- <-. cbn [blobs with_blobs].
  split; [| split].
  - eapply (split_loop_inherits (with_blobs sim1 bs)
              (fun b => color b = rgb_primary params)); [| | exact Hs |].
    + intros b Hb. exact Hb.
    + intros b c Hb Hc. destruct (spawn_radius _ _ _ Hc) as [_ ->]. exact Hb.
    + eapply (merge_outer_preserves
                (fun b => color b = rgb_primary params)); [| exact Hm |].
      * intros a b Ha. exact Ha.
      * eapply for_each_Forall; [| exact Hint].
        intros b b' Hb'. apply (integrate_blob_radius _ _ _ _ _ _ Hb').
  - intros Hcount.
    pose proof (reconcile_count sim params w ltac:(lia)) as Hlen.
    fold sim1 in Hlen. apply for_each_length in Hint.
    destruct (merge_outer_area _ _ _ _ _ _ _ Hm) as [_ Hne].
    destruct (split_loop_area _ _ _ _ _ _ _ _ _ Hs) as [_ Hle].
    assert (Hbs : bs <> []) by (intros ->; simpl in Hint; lia).
    specialize (Hne Hbs). intros ->.
    destruct bs1; [contradiction | simpl in Hle; lia].
  - intros Hmean Hall.
    eapply (split_loop_inherits (with_blobs sim1 bs)
              (fun b => 0 < radius b) shrink_radius_pos); [| exact Hs |].
    + intros b c Hb Hc. destruct (spawn_radius _ _ _ Hc) as [-> _]. exact Hb.
    + eapply (merge_outer_preserves (fun b => 0 < radius b)
                absorb_radius_pos); [exact Hm |].
      eapply (for_each_Forall2 _ (fun b => 0 < radius b)
                (fun b => 0 < radius b)); [| exact Hint |].
      * intros b b' Hb Hb'.
        destruct (integrate_blob_radius _ _ _ _ _ _ Hb') as [-> _]. exact Hb.
      * apply reconcile_Forall; [| | exact Hall].
        -- intros g. unfold reset_blob, uniform, gauss, random.
           cbn [fst radius].
           match goal with
           | |- _ < Rmax ?lo ?x => pose proof (Rmax_l lo x)
           end.
           lra.
        -- intros s g. unfold grow_blob, random. cbn [fst radius].
           exact Hmean.
Qed.

Lemma step_postconditions_witness :
  exists fuel sim' w',
    FluidSimulation_step fuel two_blobs (params_still 3) 1 1 (16 / 1000) 0
      (world_const 0) = Ok (sim', w')
    /\ Forall (fun b => color b = rgb_primary (params_still 3)) (blobs sim')
    /\ blobs sim' <> []
    /\ Forall (fun b => 0 < radius b) (blobs sim').
Proof.
  destruct (step_total two_blobs (params_still 3) 1 1 (16 / 1000) 0
              (world_const 0)) as (fuel & [sim' w'] & Hstep);
    try (simpl; lra).
  exists fuel, sim', w'. split; [exact Hstep |].
  destruct (step_postconditions _ _ _ _ _ _ _ _ _ _ Hstep)
    as (Hcol & Hne & Hpos).
  split; [exact Hcol |]. split; [apply Hne; simpl; lia |].
  apply Hpos; [simpl; lra |].
  unfold two_blobs, blob_at. simpl. repeat constructor; simpl; lra.
Defined.

(** X20.  A domain of width 0 cannot be stepped: with a target count of
    at least 1 there is a blob to integrate, and its x-position is taken
    modulo the width, so [step] raises [ZeroDivisionError] whatever the
    starting blobs and the fuel.  (A count of 0 never reaches the
    modulo.) *)
Theorem step_zero_width_raises (fuel : nat) (sim : FluidSimulation)
  (params : VisualParams) (nd na dt t : R) (w : World) :
  width sim = 0 -> (1 <= blob_count params)%Z ->
  FluidSimulation_step fuel sim params nd na dt t w = Raise ZeroDivisionError.
Proof.
  intros Hw Hcount. rewrite step_phases.
  destruct (reconcile_dims sim params w) as (Hw1 & _ & _).
  pose proof (reconcile_count sim params w ltac:(lia)) as Hlen.
  set (sim1 := (reconcile sim params w).1) in *.
  destruct (blobs sim1) as [| b rest]; [simpl in Hlen; lia |].
  cbn [for_each].
  assert (Hint : integrate_blob sim1 params dt t b = Raise ZeroDivisionError).
  { unfold integrate_blob.
    destruct (position b) as [px py], (velocity b) as [vx vy].
    destruct (curl_noise px py t) as [cx cy].
    unfold py_mod. rewrite Hw1, Hw.
    destruct (Req_dec_T 0 0) as [_ | Hn]; [reflexivity | contradiction]. }
  rewrite Hint. reflexivity.
Qed.

Lemma step_zero_width_raises_witness :
  FluidSimulation_step 7 (mkFluidSimulation 0 1 (995 / 1000) [])
    (params_still 3) 0 0 (16 / 1000) 0 (world_const 0)
  = Raise ZeroDivisionError.
Proof.
  apply (step_zero_width_raises 7 (mkFluidSimulation 0 1 (995 / 1000) [])
           (params_still 3) 0 0 (16 / 1000) 0 (world_const 0)).
  - reflexivity.
  - simpl. lia.
Defined.

(** ** EmotionLavaLampEngine.tick and run_engine *)

Lemma clamp_sample_same (s : list pyval) :
  for_each (fun v => py_clamp v (-1) 1) (clamp_sample s)
  = for_each (fun v => py_clamp v (-1) 1) s.
Proof.
  induction s as [| v s IH]; [reflexivity |].
  unfold clamp_sample in *. cbn [map for_each]. rewrite IH.
  destruct v; cbn [py_clamp]; try reflexivity.
  rewrite (clamp_inside (clamp x (-1) 1))
    by (split; [apply clamp_lower | apply clamp_upper; lra]).
  reflexivity.
Qed.

(** X21.  Values outside [-1, 1] are tolerated: a tick on a sample is the
    same tick, result and state, as on the sample with every number
    clamped to [-1, 1] beforehand. *)
Theorem tick_clamps_sample (fuel : nat) (eng : Engine) (s : list pyval)
  (dt : R) (w : World) :
  tick fuel eng (Some (clamp_sample s)) dt w = tick fuel eng (Some s) dt w.
Proof.
  unfold tick, store_sample. rewrite clamp_sample_same. reflexivity.
Qed.

(** X22.  After any [tick] that returns, whatever the sample and the
    previous state: the filter state lies in [-1, 1] on every axis, the
    energy in [0, 10], the clock has advanced by [dt], the mapper and the
    domain are unchanged and, without a sample, so is the held target;
    with the default mapper the returned parameters have a blob count
    between 3 and 13 and a turbulence in [0.1, 5.0]. *)
Theorem tick_postconditions (fuel : nat) (eng : Engine)
  (sample : option (list pyval)) (dt : R) (w : World) (p : VisualParams)
  (eng' : Engine) (w' : World) :
  tick fuel eng sample dt w = Ok (p, eng', w') ->
  (forall k : Axis, -1 <= component k (state (filter eng')) <= 1)
  /\ 0 <= energy (energy_model eng') <= 10
  /\ time_s eng' = time_s eng + dt
  /\ mapper eng' = mapper eng
  /\ width (sim eng') = width (sim eng)
  /\ (sample = None -> target_vad eng' = target_vad eng)
  /\ (mapper eng = VisualMapping_default ->
      (3 <= blob_count p <= 13)%Z /\ 1 / 10 <= turbulence p <= 5).
Proof.
  intros Htick.
  apply tick_inv in Htick
    as (eng1 & s & Hst & Hu & Htv & Hmap & Htime & Hw & Hen & Hp).
  destruct (store_sample_fields _ _ _ Hst)
    as (Hf1 & Hm1 & Hmp1 & Hs1 & Ht1 & Hnone).
  pose proof (TemporalFilter_update_range _ _ _ _ _ Hu) as Hrange.
  destruct (TemporalFilter_update_state _ _ _ _ _ Hu) as (Hstate & _).
  pose proof (energy_update_range (energy_model eng1) (target_vad eng1) s)
    as Herange.
  destruct (energy_update_model (energy_model eng1) (target_vad eng1) s)
    as [Heq _].
  split; [rewrite Hstate; exact Hrange |].
  split; [rewrite Hen, Heq; exact Herange |].
  split; [rewrite Htime, Ht1; reflexivity |].
  split; [rewrite Hmap, Hmp1; reflexivity |].
  split; [rewrite Hw, Hs1; reflexivity |].
  split; [intros Hn; rewrite Htv; apply Hnone; exact Hn |].
  intros Hdef. rewrite Hmp1, Hdef in Hp. subst p.
  pose proof (Hrange Arousal) as Ha.
  set (e := (EmotionEnergyModel_update (energy_model eng1)
               (target_vad eng1) s).2) in *.
  clearbody e. destruct s as [[sv sa] sd]. simpl in Ha.
  rewrite map_blob_count, map_turbulence. split.
  - assert (H : (0 <= py_int ((sa + 1) / 2 * 10) <= 10)%Z)
      by (apply py_int_range; simpl; lra).
    lia.
  - simpl. lra.
Qed.

Lemma tick_postconditions_witness :
  exists fuel p eng' w',
    tick fuel Engine_default (Some [PyFloat 30; PyFloat (-7); PyFloat 2])
      (16 / 1000) (world_const 0) = Ok (p, eng', w')
    /\ (forall k : Axis, -1 <= component k (state (filter eng')) <= 1)
    /\ 0 <= energy (energy_model eng') <= 10
    /\ time_s eng' = time_s Engine_default + 16 / 1000
    /\ (3 <= blob_count p <= 13)%Z /\ 1 / 10 <= turbulence p <= 5.
Proof.
  destruct (tick_total Engine_default
              (mkEngine TemporalFilter_default EmotionEnergyModel_default
                 VisualMapping_default FluidSimulation_default
                 (map stored_component [PyFloat 30; PyFloat (-7); PyFloat 2])
                 0)
              (Some [PyFloat 30; PyFloat (-7); PyFloat 2]) (16 / 1000)
              (world_const 0)) as (fuel & [[p eng'] w'] & Htick).
  { lra. }
  { apply store_sample_Ok. repeat constructor; discriminate. }
  { unfold engine_ok. simpl. repeat split; (lra || lia). }
  exists fuel, p, eng', w'. split; [exact Htick |].
  destruct (tick_postconditions _ _ _ _ _ _ _ _ Htick)
    as (Hs & He & Ht & _ & _ & _ & Hdef).
  split; [exact Hs |]. split; [exact He |]. split; [exact Ht |].
  apply Hdef. reflexivity.
Defined.

Lemma py_int_IZR (n : Z) : py_int (IZR n) = n.
Proof.
  unfold py_int. destruct (Rle_dec 0 (IZR n)) as [Hn | Hn].
  - apply Int_part_unique. lra.
  - rewrite <- opp_IZR. rewrite (Int_part_unique (IZR (- n)) (- n)) by lra.
    lia.
Qed.

Lemma tick_at_rest (fuel : nat) (eng : Engine) (dt : R) (w : World)
  (p : VisualParams) (eng' : Engine) (w' : World) :
  0 <= dt -> at_rest eng -> tick fuel eng None dt w = Ok (p, eng', w') ->
  at_rest eng' /\ resting_params p.
Proof.
  intros Hdt (Hf & He & Hdecay & Hmap & Htv & Hw) Htick.
  apply tick_inv in Htick
    as (eng1 & s & Hst & Hu & Htv' & Hmap' & _ & Hw' & Hen & Hp).
  rewrite store_sample_None in Hst. injection Hst as <-.
  rewrite Hf, Htv in Hu.
  change [0; 0; 0] with (vad_list (state TemporalFilter_default)) in Hu.
  rewrite (filter_update_at_target TemporalFilter_default dt) in Hu;
    try (simpl; lra); [| intros [| |]; simpl; lra].
  injection Hu as Hf' <-. cbn [state TemporalFilter_default] in *.
  rewrite Htv in Hen, Hp.
  change [0; 0; 0] with (vad_list (0, 0, 0)) in Hen, Hp.
  rewrite energy_update_calm in Hen, Hp by (rewrite ?He, ?Hdecay; lra).
  cbn [fst snd] in Hen, Hp. rewrite He, Hmap in Hp.
  replace (0 * decay_per_frame (energy_model eng)) with 0 in Hp by ring.
  split.
  - unfold at_rest. rewrite <- Hf', Hen, Htv', Hmap', Hw'. cbn [energy
      decay_per_frame]. rewrite He.
    repeat split; try assumption; try lra; try reflexivity.
  - subst p. unfold resting_params.
    rewrite map_blob_count, map_turbulence, map_blob_size_mean.
    replace ((0 + 1) / 2 * 10) with (IZR 5) by (simpl; lra).
    rewrite py_int_IZR. split; [reflexivity |].
    split; [simpl; lra |]. split; [unfold lerp; lra |].
    unfold VisualMapping_map. destruct (uniform (-24) 24 (global_rng w)).
    cbn [fst hsv_primary]. unfold lerp. f_equal; [f_equal |]; lra.
Qed.

Lemma run_at_rest (dt : R) :
  0 <= dt ->
  forall (n : nat) (fuel : nat) (eng : Engine) (w : World) frames w',
    at_rest eng ->
    run fuel eng (replicate n None) dt w = Ok (frames, w') ->
    length frames = n /\ Forall (fun fr => resting_params fr.1) frames.
Proof.
  intros Hdt.
  induction n as [| n IH]; intros fuel eng w frames w' Hrest Hrun.
  - cbn [replicate run] in Hrun. injection Hrun as <- <-.
    split; [reflexivity | constructor].
  - cbn [replicate] in Hrun.
    apply run_cons_inv in Hrun as (p & eng' & w1 & fr & Ht & Hrun & ->).
    destruct (tick_at_rest _ _ _ _ _ _ _ Hdt Hrest Ht) as [Hrest' Hp].
    destruct (IH _ _ _ _ _ Hrest' Hrun) as [Hlen Hall].
    split; [simpl; congruence | constructor; assumption].
Qed.

(** X23.  [run_engine] drives a fresh engine from the placeholder source
    [get_global_vad], which never has a sample.  For every frame count and
    every time step [dt >= 0] it returns: it yields [max(frames, 0)]
    parameter sets, and on every one of them the blob count is 8, the
    turbulence 0.55, the mean blob size 0.095 and the primary colour
    (120, 0.65, 0.7): the engine stays at rest.  (A negative time step can
    overflow [math.exp] in the filter.) *)
Theorem run_engine_at_rest (frames : Z) (dt : R) (w : World) :
  0 <= dt ->
  exists (fuel0 : nat) (ps : list VisualParams) (w' : World),
    (forall fuel, (fuel0 <= fuel)%nat ->
       run_engine fuel frames dt w = Ok (ps, w'))
    /\ length ps = Z.to_nat frames
    /\ Forall resting_params ps.
Proof.
  intros Hdt.
  assert (Hrest : at_rest Engine_default).
  { unfold at_rest, Engine_default. simpl.
    repeat split; try reflexivity; lra. }
  assert (Hok : engine_ok Engine_default).
  { unfold engine_ok. simpl. repeat split; (lra || lia). }
  destruct (run_hold dt Hdt (Z.to_nat frames) Engine_default w Hok)
    as (fuel0 & fr & w' & Hrun & _ & _).
  destruct (run_at_rest dt Hdt _ _ _ _ _ _ Hrest Hrun) as [Hlen Hall].
  exists fuel0, (map fst fr), w'. split; [| split].
  - intros fuel Hfuel. unfold run_engine, get_global_vad.
    rewrite (run_fuel_mono _ _ _ _ _ _ _ Hrun Hfuel). reflexivity.
  - rewrite length_map. exact Hlen.
  - apply Forall_map. exact Hall.
Qed.

Lemma run_engine_at_rest_witness :
  exists (fuel0 : nat) (ps : list VisualParams) (w' : World),
    (forall fuel, (fuel0 <= fuel)%nat ->
       run_engine fuel 300 (16 / 1000) (world_const 0) = Ok (ps, w'))
    /\ length ps = 300%nat
    /\ Forall resting_params ps.
Proof.
  apply (run_engine_at_rest 300 (16 / 1000) (world_const 0)). lra.
Defined.

(** ** Low against high arousal *)

Lemma clamp_odd (x m : R) : 0 <= m -> clamp (- x) (- m) m = - clamp x (- m) m.
Proof.
  intros Hm. unfold clamp, Rmax, Rmin.
  repeat destruct (Rle_dec _ _); lra.
Qed.

Lemma clamp_odd_unit (x : R) : clamp (- x) (-1) 1 = - clamp x (-1) 1.
Proof.
  unfold clamp, Rmax, Rmin. repeat destruct (Rle_dec _ _); lra.
Qed.

Lemma axis_update_odd (ms dt cur t tau x : R) :
  0 <= ms ->
  axis_update ms dt cur t tau = Ok x ->
  axis_update ms dt (- cur) (- t) tau = Ok (- x).
Proof.
  intros Hms Hx. unfold axis_update in *.
  destruct (py_div (- dt) tau) as [q | |]; try discriminate.
  cbn [mbind result_bind] in *.
  destruct (math_exp q) as [ex | |]; try discriminate.
  cbn [mbind result_bind] in *.
  injection Hx as <-. f_equal.
  replace (- t - - cur) with (- (t - cur)) by ring.
  rewrite clamp_odd by exact Hms.
  rewrite <- clamp_odd_unit. f_equal. unfold lerp. ring.
Qed.

Lemma energy_update_mirror (m : EmotionEnergyModel) (cv ca cd sv sa sd : R) :
  EmotionEnergyModel_update m [cv; - ca; cd] (sv, - sa, sd)
  = EmotionEnergyModel_update m [cv; ca; cd] (sv, sa, sd).
Proof.
  unfold EmotionEnergyModel_update, py_sum. simpl.
  replace (- ca - - sa) with (- (ca - sa)) by ring. rewrite Rabs_Ropp.
  reflexivity.
Qed.

Lemma py_int_below (x : R) (n : Z) :
  0 <= x < IZR n -> (py_int x < n)%Z.
Proof.
  intros [H0 Hn]. unfold py_int.
  destruct (Rle_dec 0 x) as [_ | Hneg]; [| lra].
  destruct (Int_part_bounds x) as [H1 _]. apply lt_IZR. lra.
Qed.

(** One tick of each engine on mirrored samples keeps the engines
    mirrored and separates the returned parameters. *)
Lemma tick_mirrored (v a d dt : R) (fl fh : nat) (el eh : Engine)
  (wl wh : World) (pl ph : VisualParams) (el' eh' : Engine)
  (wl' wh' : World) :
  0 < a -> 0 < dt -> mirrored (clamp a (-1) 1) el eh ->
  tick fl el (Some [PyFloat v; PyFloat (- a); PyFloat d]) dt wl
  = Ok (pl, el', wl') ->
  tick fh eh (Some [PyFloat v; PyFloat a; PyFloat d]) dt wh
  = Ok (ph, eh', wh') ->
  mirrored (clamp a (-1) 1) el' eh'
  /\ (blob_count pl < blob_count ph)%Z /\ turbulence pl < turbulence ph.
Proof.
  intros Ha Hdt (sv & sa & sd & Hfh & Hfl & Hsa & Hen & Hml & Hmh) Htl Hth.
  assert (Hca : 0 < clamp a (-1) 1 <= 1).
  { split; [| apply clamp_upper; lra].
    destruct (Rle_dec a 1).
    - rewrite clamp_inside by lra. lra.
    - rewrite clamp_above by lra. lra. }
  set (ca := clamp a (-1) 1) in *.
  apply tick_inv in Htl
    as (l1 & sl & Hstl & Hul & Htvl & Hmapl & _ & _ & Henl & Hpl).
  apply tick_inv in Hth
    as (h1 & sh & Hsth & Huh & Htvh & Hmaph & _ & _ & Henh & Hph).
  rewrite store_sample_Ok in Hstl, Hsth by (repeat constructor; discriminate).
  injection Hstl as <-. injection Hsth as <-.
  cbn [filter target_vad energy_model mapper time_s map stored_component]
    in *.
  rewrite (clamp_odd_unit a) in Hul, Henl, Hpl. fold ca in Hul, Henl, Hpl.
  fold ca in Huh, Henh, Hph.
  set (cv := clamp v (-1) 1) in *. set (cd := clamp d (-1) 1) in *.
  (* the high filter *)
  destruct (TemporalFilter_update_axes (filter eh) cv ca cd [] dt)
    as (s & Hu & Hax); try lra; try (rewrite Hfh; simpl; lra).
  rewrite Hu in Huh. injection Huh as Hfh' <-.
  pose proof (Hax Valence) as Hxv. pose proof (Hax Arousal) as Hxa.
  pose proof (Hax Dominance) as Hxd.
  rewrite Hfh in Hxv, Hxa, Hxd, Hfh'.
  cbn [component state max_step axis_tau tau_v tau_a tau_d fst snd]
    in Hxv, Hxa, Hxd, Hfh'.
  (* the low filter *)
  destruct (TemporalFilter_update_axes (filter el) cv (- ca) cd [] dt)
    as (s' & Hu' & Hax'); try lra; try (rewrite Hfl; simpl; lra).
  rewrite Hu' in Hul. injection Hul as Hfl' <-.
  pose proof (Hax' Valence) as Hyv. pose proof (Hax' Arousal) as Hya.
  pose proof (Hax' Dominance) as Hyd.
  rewrite Hfl in Hyv, Hya, Hyd, Hfl'.
  cbn [component state max_step axis_tau tau_v tau_a tau_d fst snd]
    in Hyv, Hya, Hyd, Hfl'.
  apply (axis_update_odd (25 / 100) dt sa ca (6 / 10)) in Hxa as Hxa';
    try lra.
  rewrite Hyv in Hxv. rewrite Hyd in Hxd. rewrite Hya in Hxa'.
  injection Hxv as Hv'. injection Hxd as Hd'. injection Hxa' as Ha'.
  destruct s as [[hv ha] hd], s' as [[lv la] ld].
  cbn [fst snd] in *. subst lv ld la.
  (* the high arousal stays in (0, ca] *)
  assert (Hha : 0 < ha <= ca).
  { destruct (axis_update_towards (25 / 100) dt sa ca (6 / 10) ha)
      as [[Hlo Hhi] _]; try lra; try exact Hxa.
    split; [| exact Hhi].
    destruct (Rle_lt_or_eq_dec sa ca (proj2 Hsa)) as [Hlt | Heq]; [| lra].
    destruct (axis_update_strict (25 / 100) dt sa ca (6 / 10) ha)
      as (Hup & _ & _); try lra; exact Hxa. }
  (* energies agree *)
  rewrite Hen in Henl, Hpl. rewrite energy_update_mirror in Henl, Hpl.
  split.
  - exists hv, ha, hd. rewrite <- Hfh', <- Hfl', Henl, Henh, Hmapl, Hmaph.
    repeat split; (reflexivity || assumption || lra).
  - subst pl ph. rewrite Hml, Hmh.
    rewrite !map_blob_count, !map_turbulence.
    set (e := (EmotionEnergyModel_update (energy_model eh) [cv; ca; cd]
                 (hv, ha, hd)).2).
    split; [| simpl; lra].
    assert (Hlow : (py_int ((- ha + 1) / 2 * 10) < 5)%Z)
      by (apply py_int_below; simpl; lra).
    assert (Hhigh : (py_int (IZR 5) <= py_int ((ha + 1) / 2 * 10))%Z)
      by (apply py_int_mono; simpl; lra).
    rewrite py_int_IZR in Hhigh. lia.
Qed.

Lemma run_constant_sample (s : list pyval) (dt : R) :
  0 <= dt ->
  Forall (fun v => v <> PyNonNumeric) s -> (3 <= length s)%nat ->
  forall (n : nat) (eng : Engine) (w : World),
    0 < tau_v (filter eng) -> 0 < tau_a (filter eng) ->
    0 < tau_d (filter eng) -> width (sim eng) <> 0 ->
    exists fuel frames w',
      run fuel eng (replicate n (Some s)) dt w = Ok (frames, w')
      /\ length frames = n.
Proof.
  intros Hdt Hs Hlen. induction n as [| n IH]; intros eng w Hv Ha Hd Hw.
  - exists 0%nat, [], w. split; reflexivity.
  - pose proof (store_sample_Ok eng s Hs) as Hstore.
    set (eng1 := mkEngine (filter eng) (energy_model eng) (mapper eng)
                   (sim eng) (map stored_component s) (time_s eng)) in *.
    assert (Hok1 : engine_ok eng1).
    { unfold engine_ok, eng1. cbn [filter sim target_vad].
      rewrite length_map. auto. }
    destruct (tick_total eng eng1 (Some s) dt w Hdt Hstore Hok1)
      as (fuel1 & [[p eng'] w1] & Htick).
    destruct (tick_keeps_engine_ok _ _ _ _ _ _ _ _ _ Hstore Hok1 Htick)
      as [(Hv' & Ha' & Hd' & Hw' & _) _].
    destruct (IH eng' w1 Hv' Ha' Hd' Hw')
      as (fuel2 & frames & w2 & Hrun & Hlenf).
    exists (max fuel1 fuel2), ((p, eng') :: frames), w2.
    cbn [replicate run].
    rewrite (tick_fuel_mono _ _ _ _ _ _ _ Htick) by lia.
    cbn [mbind result_bind].
    rewrite (run_fuel_mono _ _ _ _ _ _ _ Hrun) by lia.
    split; [reflexivity | simpl; congruence].
Qed.

Lemma run_mirrored (v a d dt : R) :
  0 < a -> 0 < dt ->
  forall (n : nat) (fl fh : nat) (el eh : Engine) (wl wh : World)
         framesl framesh wl' wh',
    mirrored (clamp a (-1) 1) el eh ->
    run fl el (replicate n (Some [PyFloat v; PyFloat (- a); PyFloat d])) dt
      wl = Ok (framesl, wl') ->
    run fh eh (replicate n (Some [PyFloat v; PyFloat a; PyFloat d])) dt wh
    = Ok (framesh, wh') ->
    forall k pl e1 ph e2,
      framesl !! k = Some (pl, e1) -> framesh !! k = Some (ph, e2) ->
      (blob_count pl < blob_count ph)%Z /\ turbulence pl < turbulence ph.
Proof.
  intros Ha Hdt.
  induction n as [| n IH];
    intros fl fh el eh wl wh framesl framesh wl' wh' Hmir Hl Hh.
  - cbn [replicate run] in Hl. injection Hl as <- <-.
    intros k pl e1 ph e2 Hk. rewrite lookup_nil in Hk. discriminate.
  - cbn [replicate] in Hl, Hh.
    apply run_cons_inv in Hl as (pl0 & el' & wl1 & frl & Htl & Hl & ->).
    apply run_cons_inv in Hh as (ph0 & eh' & wh1 & frh & Hth & Hh & ->).
    destruct (tick_mirrored _ _ _ _ _ _ _ _ _ _ _ _ _ _ _ _ Ha Hdt Hmir
                Htl Hth) as (Hmir' & Hcount & Hturb).
    intros [| k] pl e1 ph e2 Hkl Hkh; cbn [lookup list_lookup] in Hkl, Hkh.
    + injection Hkl as <- <-. injection Hkh as <- <-. auto.
    + exact (IH _ _ _ _ _ _ _ _ _ _ Hmir' Hl Hh k pl e1 ph e2 Hkl Hkh).
Qed.

(** X24.  Two fresh engines are fed constant samples that differ only in
    the sign of the arousal, [(v, -a, d)] against [(v, a, d)] with an
    arousal [a >= 0.01], with the same time step [dt >= 0.001].  Both runs
    return, and on every tick, from the first on, the high-arousal engine
    returns a strictly larger blob count and a strictly larger turbulence,
    whatever the random draws of either run.  (This is the repository test
    [test_arousal_changes_blob_count_and_turbulence] for any number of
    ticks; the two lower bounds keep the smoothed arousals apart by more
    than the spacing of the floats.) *)
Theorem arousal_separates_engines (v a d dt : R) (n : nat) (wl wh : World) :
  1 / 100 <= a -> 1 / 1000 <= dt ->
  exists (fuel0 : nat) (framesl framesh : list (VisualParams * Engine))
         (wl' wh' : World),
    (forall fuel, (fuel0 <= fuel)%nat ->
       run fuel Engine_default
         (replicate n (Some [PyFloat v; PyFloat (- a); PyFloat d])) dt wl
       = Ok (framesl, wl')
       /\ run fuel Engine_default
            (replicate n (Some [PyFloat v; PyFloat a; PyFloat d])) dt wh
          = Ok (framesh, wh'))
    /\ length framesl = n /\ length framesh = n
    /\ forall k pl e1 ph e2,
         framesl !! k = Some (pl, e1) -> framesh !! k = Some (ph, e2) ->
         (blob_count pl < blob_count ph)%Z /\ turbulence pl < turbulence ph.
Proof.
  intros Ha Hdt.
  assert (Hok : 0 < tau_v (filter Engine_default)
                /\ 0 < tau_a (filter Engine_default)
                /\ 0 < tau_d (filter Engine_default)
                /\ width (sim Engine_default) <> 0).
  { simpl. repeat split; lra. }
  destruct Hok as (Hv & Hta & Htd & Hw).
  destruct (run_constant_sample
              [PyFloat v; PyFloat (- a); PyFloat d] dt ltac:(lra)
              ltac:(repeat constructor; discriminate) ltac:(simpl; lia)
              n Engine_default wl Hv Hta Htd Hw)
    as (fl & framesl & wl' & Hl & Hlenl).
  destruct (run_constant_sample
              [PyFloat v; PyFloat a; PyFloat d] dt ltac:(lra)
              ltac:(repeat constructor; discriminate) ltac:(simpl; lia)
              n Engine_default wh Hv Hta Htd Hw)
    as (fh & framesh & wh' & Hh & Hlenh).
  exists (max fl fh), framesl, framesh, wl', wh'.
  split; [| split; [exact Hlenl | split; [exact Hlenh |]]].
  - intros fuel Hfuel. split.
    + apply (run_fuel_mono _ _ _ _ _ _ _ Hl). lia.
    + apply (run_fuel_mono _ _ _ _ _ _ _ Hh). lia.
  - apply (run_mirrored v a d dt ltac:(lra) ltac:(lra) n fl fh
             Engine_default Engine_default wl wh framesl framesh wl' wh');
      try assumption.
    exists 0, 0, 0. unfold Engine_default, TemporalFilter_default.
    cbn [filter energy_model mapper].
    replace (- 0) with 0 by ring.
    repeat split; try reflexivity; try lra.
    destruct (Rle_dec a 1).
    + rewrite clamp_inside by lra. lra.
    + rewrite clamp_above by lra. lra.
Qed.

Lemma arousal_separates_engines_witness :
  exists fuel0 framesl framesh wl' wh',
    (forall fuel, (fuel0 <= fuel)%nat ->
       run fuel Engine_default
         (replicate 180 (Some [PyFloat (- (2 / 10)); PyFloat (- 1);
                               PyFloat (1 / 10)])) (16 / 1000)
         (world_const 0)
       = Ok (framesl, wl')
       /\ run fuel Engine_default
            (replicate 180 (Some [PyFloat (- (2 / 10)); PyFloat 1;
                                  PyFloat (1 / 10)])) (16 / 1000)
            (world_const (1 / 2))
          = Ok (framesh, wh'))
    /\ length framesl = 180%nat /\ length framesh = 180%nat
    /\ forall k pl e1 ph e2,
         framesl !! k = Some (pl, e1) -> framesh !! k = Some (ph, e2) ->
         (blob_count pl < blob_count ph)%Z /\ turbulence pl < turbulence ph.
Proof.
  apply (arousal_separates_engines (- (2 / 10)) 1 (1 / 10) (16 / 1000) 180
           (world_const 0) (world_const (1 / 2))); lra.
Defined.

(** ** demo_tk.VADSignal *)

Lemma clamp_unit_range (x : R) : -1 <= clamp x (-1) 1 <= 1.
Proof. split; [apply clamp_lower | apply clamp_upper; lra]. Qed.

Lemma clamped_triple_in_range (x y z : R) :
  vad_in_range (clamp x (-1) 1, clamp y (-1) 1, clamp z (-1) 1).
Proof. intros [| |]; simpl; apply clamp_unit_range. Qed.

Lemma vad_neg_in_range (s : VAD) : vad_in_range s -> vad_in_range (vad_neg s).
Proof.
  intros H. pose proof (H Valence). pose proof (H Arousal).
  pose proof (H Dominance). destruct s as [[x y] z].
  intros [| |]; simpl in *; lra.
Qed.

(** X25.  One call of a [VADSignal] whose step state is a VAD in range.
    In the modes sine, noise and step it yields a triple with every
    component in [-1, 1], so the engine's own clamp never changes a
    built-in sample; the sine mode yields the three sines unclamped and,
    like the step mode, draws nothing.  Any other mode raises
    [ValueError].  In every case, the error included, the signal's clock
    has advanced by 0.016 and the mode is kept. *)
Theorem VADSignal_call_contract (sig : VADSignal) (g : Rng) :
  vad_in_range (step_state sig) ->
  match VADSignal_call sig g with
  | Yields s sig' g' =>
      known_mode (mode sig) /\ vad_in_range s
      /\ vad_in_range (step_state sig')
      /\ signal_t sig' = signal_t sig + 16 / 1000
      /\ mode sig' = mode sig
      /\ (mode sig = "sine"%string ->
          g' = g
          /\ s = (sin (signal_t sig' * (5 / 10)),
                  sin (signal_t sig' * (14 / 10)),
                  sin (signal_t sig' * (8 / 10) + 12 / 10)))
      /\ (mode sig = "step"%string -> g' = g /\ s = step_state sig')
  | RaisesValueError sig' =>
      ~ known_mode (mode sig)
      /\ signal_t sig' = signal_t sig + 16 / 1000
      /\ mode sig' = mode sig
  end.
Proof.
  intros Hstate. unfold VADSignal_call.
  destruct (String.eqb (mode sig) "sine"%string) eqn:Esine.
  { apply String.eqb_eq in Esine.
    split; [left; exact Esine |].
    split; [apply clamped_triple_in_range |].
    split; [exact Hstate |]. split; [reflexivity |].
    split; [reflexivity |]. split.
    - intros _. split; [reflexivity |]. cbn [signal_t].
      pose proof (SIN_bound ((signal_t sig + 16 / 1000) * (5 / 10))).
      pose proof (SIN_bound ((signal_t sig + 16 / 1000) * (14 / 10))).
      pose proof (SIN_bound ((signal_t sig + 16 / 1000) * (8 / 10)
                             + 12 / 10)).
      rewrite !clamp_inside by lra. reflexivity.
    - intros Hstep. rewrite Esine in Hstep. discriminate. }
  destruct (String.eqb (mode sig) "noise"%string) eqn:Enoise.
  { apply String.eqb_eq in Enoise. unfold uniform, random.
    split; [right; left; exact Enoise |].
    split; [apply clamped_triple_in_range |].
    split; [exact Hstate |]. split; [reflexivity |].
    split; [reflexivity |].
    split; intros Hm; rewrite Enoise in Hm; discriminate. }
  destruct (String.eqb (mode sig) "step"%string) eqn:Estep.
  { apply String.eqb_eq in Estep.
    destruct (Rgt_dec _ _).
    - destruct (step_state sig) as [[x y] z] eqn:Hs.
      pose proof (vad_neg_in_range (x, y, z) Hstate) as Hneg.
      unfold vad_neg in Hneg. cbn [fst snd] in Hneg.
      split; [right; right; exact Estep |].
      split; [exact Hneg |]. split; [exact Hneg |].
      split; [reflexivity |]. split; [reflexivity |].
      split; [intros Hm; rewrite Estep in Hm; discriminate |].
      intros _. split; reflexivity.
    - split; [right; right; exact Estep |].
      split; [exact Hstate |]. split; [exact Hstate |].
      split; [reflexivity |]. split; [reflexivity |].
      split; [intros Hm; rewrite Estep in Hm; discriminate |].
      intros _. split; reflexivity. }
  apply String.eqb_neq in Esine, Enoise, Estep.
  split; [| split; reflexivity].
  intros [H | [H | H]]; contradiction.
Qed.

Lemma VADSignal_call_contract_witness :
  (exists s sig' g',
      VADSignal_call (VADSignal_init "noise"%string) (rng_const (1 / 2))
      = Yields s sig' g'
      /\ vad_in_range s /\ signal_t sig' = 0 + 16 / 1000)
  /\ (exists sig',
        VADSignal_call (VADSignal_init "square"%string) (rng_const (1 / 2))
        = RaisesValueError sig'
        /\ signal_t sig' = 0 + 16 / 1000).
Proof.
  assert (Hinit : forall m, vad_in_range (step_state (VADSignal_init m))).
  { intros m [| |]; simpl; lra. }
  split.
  - pose proof (VADSignal_call_contract (VADSignal_init "noise"%string)
                  (rng_const (1 / 2)) (Hinit _)) as H.
    destruct (VADSignal_call (VADSignal_init "noise"%string) (rng_const (1 / 2)))
      as [s sig' g' | sig'] eqn:E.
    + exists s, sig', g'. destruct H as (_ & Hs & _ & Ht & _).
      split; [reflexivity |]. split; [exact Hs | exact Ht].
    + destruct H as [Hn _]. exfalso. apply Hn. right. left. reflexivity.
  - pose proof (VADSignal_call_contract (VADSignal_init "square"%string)
                  (rng_const (1 / 2)) (Hinit _)) as H.
    destruct (VADSignal_call (VADSignal_init "square"%string) (rng_const (1 / 2)))
      as [s sig' g' | sig'] eqn:E.
    + destruct H as ([Hk | [Hk | Hk]] & _); discriminate.
    + exists sig'. destruct H as (_ & Ht & _).
      split; [reflexivity | exact Ht].
Defined.

Lemma vad_neg_involutive (s : VAD) : vad_neg (vad_neg s) = s.
Proof.
  destruct s as [[x y] z]. unfold vad_neg. simpl.
  rewrite !Ropp_involutive. reflexivity.
Qed.

(** One call in the step mode. *)
Lemma VADSignal_call_step (sig : VADSignal) (g : Rng) :
  mode sig = "step"%string ->
  let t := signal_t sig + 16 / 1000 in
  VADSignal_call sig g
  = if Rgt_dec t (next_flip sig)
    then Yields (vad_neg (step_state sig))
           (mkVADSignal (mode sig) t (vad_neg (step_state sig))
              (next_flip sig + 15 / 10)) g
    else Yields (step_state sig)
           (mkVADSignal (mode sig) t (step_state sig) (next_flip sig)) g.
Proof.
  intros Hmode. cbn zeta. unfold VADSignal_call. rewrite Hmode.
  cbn [String.eqb Ascii.eqb Bool.eqb].
  destruct (Rgt_dec _ _); [| reflexivity].
  destruct (step_state sig) as [[x y] z]. reflexivity.
Qed.

Lemma VADSignal_step_calls (s0 : VAD) (g : Rng) :
  forall (n : nat) (sig : VADSignal),
    mode sig = "step"%string ->
    step_state sig = s0 \/ step_state sig = vad_neg s0 ->
    exists ss sig',
      VADSignal_calls n sig g = Some (ss, sig', g)
      /\ length ss = n
      /\ Forall (fun s => s = s0 \/ s = vad_neg s0) ss
      /\ (step_state sig' = s0 \/ step_state sig' = vad_neg s0)
      /\ mode sig' = mode sig
      /\ signal_t sig' = signal_t sig + INR n * (16 / 1000).
Proof.
  induction n as [| n IH]; intros sig Hmode Hstate.
  - exists [], sig. cbn [VADSignal_calls length INR].
    split; [reflexivity |]. split; [reflexivity |].
    split; [apply Forall_nil_2 |]. split; [exact Hstate |].
    split; [reflexivity | lra].
  - cbn [VADSignal_calls]. rewrite (VADSignal_call_step sig g Hmode).
    cbn zeta. rewrite S_INR.
    destruct (Rgt_dec _ _) as [Hflip | Hstay].
    + set (sig1 := mkVADSignal _ _ _ _).
      assert (Hstate1 : step_state sig1 = s0 \/ step_state sig1 = vad_neg s0).
      { cbn [sig1 step_state].
        destruct Hstate as [-> | ->];
          [right; reflexivity | left; apply vad_neg_involutive]. }
      destruct (IH sig1 Hmode Hstate1)
        as (ss & sig' & -> & Hlen & Hall & Hfin & Hm & Ht).
      exists (vad_neg (step_state sig) :: ss), sig'.
      split; [reflexivity |]. split; [simpl; congruence |].
      split; [constructor; [exact Hstate1 | exact Hall] |].
      split; [exact Hfin |]. split; [exact Hm |].
      rewrite Ht; cbn [sig1 signal_t]; lra.
    + set (sig1 := mkVADSignal _ _ _ _).
      destruct (IH sig1 Hmode Hstate)
        as (ss & sig' & -> & Hlen & Hall & Hfin & Hm & Ht).
      exists (step_state sig :: ss), sig'.
      split; [reflexivity |]. split; [simpl; congruence |].
      split; [constructor; [exact Hstate | exact Hall] |].
      split; [exact Hfin |]. split; [exact Hm |].
      rewrite Ht; cbn [sig1 signal_t]; lra.
Qed.

(** X26.  A [VADSignal] in the step mode, called [n] times: no call
    raises or draws, every sample is the starting step state or its
    negation, so is the state the signal is left in, the mode is kept and
    the clock ends [0.016 * n] later. *)
Theorem VADSignal_step_mode (n : nat) (sig : VADSignal) (g : Rng) :
  mode sig = "step"%string ->
  exists ss sig',
    VADSignal_calls n sig g = Some (ss, sig', g)
    /\ length ss = n
    /\ Forall (fun s => s = step_state sig \/ s = vad_neg (step_state sig)) ss
    /\ (step_state sig' = step_state sig
        \/ step_state sig' = vad_neg (step_state sig))
    /\ mode sig' = mode sig
    /\ signal_t sig' = signal_t sig + INR n * (16 / 1000).
Proof.
  intros Hmode.
  exact (VADSignal_step_calls (step_state sig) g n sig Hmode
           (or_introl eq_refl)).
Qed.

Lemma VADSignal_step_mode_witness :
  exists ss sig',
    VADSignal_calls 200 (VADSignal_init "step"%string) (rng_const 0)
    = Some (ss, sig', rng_const 0)
    /\ length ss = 200%nat
    /\ Forall (fun s => s = (- (8 / 10), - (6 / 10), - (6 / 10))
                        \/ s = vad_neg (- (8 / 10), - (6 / 10), - (6 / 10)))
              ss
    /\ mode sig' = "step"%string.
Proof.
  destruct (VADSignal_step_mode 200 (VADSignal_init "step"%string)
              (rng_const 0) eq_refl)
    as (ss & sig' & Hc & Hlen & Hall & _ & Hm & _).
  exists ss, sig'. split; [exact Hc |]. split; [exact Hlen |].
  split; [exact Hall | exact Hm].
Defined.
